(** * esb.c: the extensible string buffer of dwarfdump

    A shallow embedding of [src/dwarfdump/esb.c] and the properties of
    its growth protocol, its appends and its extraction functions.

    The C code works on a caller-owned [struct esb_s] and on storage it
    obtains from [malloc]/[realloc]; it reports problems on [stderr] and
    leaves through [exit(5)] when the allocator fails.  The embedding
    keeps all of that: a machine state with the heap of live blocks, the
    file-scope [alloc_size] and the diagnostics written so far, and a
    small state-and-error monad in which every C function is written
    statement by statement. *)

From Stdlib Require Import ZArith Ascii String List Sorted Lia.
From stdpp Require Import base numbers option list gmap strings.

Local Open Scope Z_scope.

(** ** Machine integers *)

Module CInt.

(** [size_t] is an unsigned 64-bit integer, [int] a signed 32-bit one
    (LP64).  Values are kept in [Z]; every C operation that can leave
    the range is followed by the conversion that C applies. *)
Definition SIZE_MODULUS : Z := 2 ^ 64.
Definition SIZE_MAX : Z := SIZE_MODULUS - 1.
Definition INT_MAX : Z := 2 ^ 31 - 1.
Definition INT_MIN : Z := - 2 ^ 31.

(** Conversion to [size_t]: reduction modulo [2^64]. *)
Definition to_size_t (x : Z) : Z := x mod SIZE_MODULUS.

(** Conversion to [int]: the low 32 bits, read as two's complement. *)
Definition to_int (x : Z) : Z :=
  let r := x mod 2 ^ 32 in
  if r <? 2 ^ 31 then r else r - 2 ^ 32.

Definition is_size_t (x : Z) : Prop := 0 <= x < SIZE_MODULUS.

Definition in_int_range (x : Z) : bool := (INT_MIN <=? x) && (x <=? INT_MAX).

End CInt.
Export CInt.

(** ** Memory, diagnostics and the machine state *)

(** A byte of allocated storage: [malloc] and the tail added by
    [realloc] hand out indeterminate bytes. *)
Inductive memval : Type :=
| Undef
| Byte (c : ascii).

#[global] Instance memval_eq_dec : EqDecision memval.
Proof. solve_decision. Defined.

Definition NUL : ascii := Ascii.zero.

(** Pointers returned by the allocator are block identifiers; a null
    pointer is [None]. *)
Abbreviation block := positive (only parsing).
Abbreviation pointer := (option positive) (only parsing).

(** The three messages esb.c prints on [stderr]. *)
Inductive diagnostic : Type :=
| OutOfMemoryAllocating (bytes : Z)
| OutOfMemoryReallocating (bytes : Z)
| BadStringLength (full_len len : Z).

#[global] Instance diagnostic_eq_dec : EqDecision diagnostic.
Proof. solve_decision. Defined.

Record machine : Type := Machine {
  (** [static size_t alloc_size = INITIAL_ALLOC;] *)
  alloc_size : Z;
  (** contents of the live heap blocks *)
  heap : gmap positive (list memval);
  (** the next block the allocator hands out; blocks are never reused *)
  next_block : positive;
  (** whether the C library can satisfy a request of that many bytes *)
  mem_avail : Z -> bool;
  (** what has been written to [stderr], oldest first *)
  stderr : list diagnostic
}.

Definition set_heap (h : gmap positive (list memval)) (m : machine) : machine :=
  Machine (alloc_size m) h (next_block m) (mem_avail m) (stderr m).

Definition set_alloc_size (n : Z) (m : machine) : machine :=
  Machine n (heap m) (next_block m) (mem_avail m) (stderr m).

(** [INITIAL_ALLOC] outside of the self test. *)
Definition INITIAL_ALLOC : Z := 16.
(** [INITIAL_ALLOC] under [-DSELFTEST]. *)
Definition INITIAL_ALLOC_SELFTEST : Z := 1.

(** A process that has not allocated or printed anything yet. *)
Definition boot (quantum : Z) (avail : Z -> bool) : machine :=
  Machine quantum ∅ 1%positive avail [].

(** ** The monad: state, [exit] and undefined behaviour *)

Inductive outcome (A : Type) : Type :=
| Ret (a : A) (m : machine)
| Exit (status : Z) (m : machine)
| Fault.
Arguments Ret {A} a m.
Arguments Exit {A} status m.
Arguments Fault {A}.

Definition M (A : Type) : Type := machine -> outcome A.

Definition ret {A} (a : A) : M A := fun m => Ret a m.

Definition bind {A B} (c : M A) (k : A -> M B) : M B :=
  fun m =>
    match c m with
    | Ret a m' => k a m'
    | Exit st m' => Exit st m'
    | Fault => Fault
    end.

Notation "'let*' x ':=' c1 'in' c2" := (bind c1 (fun x => c2))
  (at level 10, x name, c1 at level 100, c2 at level 200).

(** [exit(status)]: the process ends; nothing after it runs. *)
Definition exit {A} (status : Z) : M A := fun m => Exit status m.

(** Undefined behaviour: an access outside a live block, a null or
    dangling pointer, signed overflow. *)
Definition fault {A} : M A := fun _ => Fault.

Definition get_alloc_size : M Z := fun m => Ret (alloc_size m) m.

Definition fprintf_stderr (d : diagnostic) : M unit :=
  fun m => Ret tt (Machine (alloc_size m) (heap m) (next_block m)
                           (mem_avail m) (stderr m ++ [d])).

(** ** The C library *)

Module Libc.

(** [malloc(n)]: a fresh block of [n] indeterminate bytes, or a null
    pointer. *)
Definition malloc (n : Z) : M pointer :=
  fun m =>
    if mem_avail m n then
      let b := next_block m in
      Ret (Some b)
          (Machine (alloc_size m)
                   (<[b := replicate (Z.to_nat n) Undef]> (heap m))
                   (Pos.succ b) (mem_avail m) (stderr m))
    else Ret None m.

(** [realloc(p, n)]: like [malloc] for a null [p]; otherwise a block of
    [n] bytes that starts with the old contents (as many as fit), the
    old block being released.  On failure the old block stays. *)
Definition realloc (p : pointer) (n : Z) : M pointer :=
  match p with
  | None => malloc n
  | Some b =>
      fun m =>
        match heap m !! b with
        | None => Fault
        | Some old =>
            if mem_avail m n then
              let b' := next_block m in
              let new := take (Z.to_nat n) old
                         ++ replicate (Z.to_nat n - length old)%nat Undef in
              Ret (Some b')
                  (Machine (alloc_size m)
                           (<[b' := new]> (delete b (heap m)))
                           (Pos.succ b') (mem_avail m) (stderr m))
            else Ret None m
        end
  end.

(** [free(p)] for a non-null [p]. *)
Definition free (b : block) : M unit :=
  fun m =>
    match heap m !! b with
    | None => Fault
    | Some _ => Ret tt (set_heap (delete b (heap m)) m)
    end.

(** [p[i] = v] *)
Definition store (p : pointer) (i : Z) (v : memval) : M unit :=
  fun m =>
    match p with
    | None => Fault
    | Some b =>
        match heap m !! b with
        | None => Fault
        | Some l =>
            if (0 <=? i) && (i <? Z.of_nat (length l)) then
              Ret tt (set_heap (<[b := <[Z.to_nat i := v]> l]> (heap m)) m)
            else Fault
        end
    end.

(** Writing the bytes [vs] to [&p[off]], [&p[off+1]], ...  Writing no
    byte touches nothing. *)
Definition store_bytes (p : pointer) (off : Z) (vs : list memval) : M unit :=
  match vs with
  | [] => ret tt
  | _ =>
      fun m =>
        match p with
        | None => Fault
        | Some b =>
            match heap m !! b with
            | None => Fault
            | Some l =>
                if (0 <=? off) && (off + Z.of_nat (length vs) <=? Z.of_nat (length l)) then
                  let l' := take (Z.to_nat off) l ++ vs
                            ++ drop (Z.to_nat off + length vs)%nat l in
                  Ret tt (set_heap (<[b := l']> (heap m)) m)
                else Fault
            end
        end
  end.

(** The characters of the C string that starts at [l]: those before
    the first NUL.  [None] when [l] ends, or an indeterminate byte is
    met, before a NUL. *)
Fixpoint cstring_of (l : list memval) : option (list ascii) :=
  match l with
  | [] => None
  | Undef :: _ => None
  | Byte c :: l' =>
      if Ascii.eqb c NUL then Some []
      else match cstring_of l' with
           | Some s => Some (c :: s)
           | None => None
           end
  end.

(** The C string at [&p[off]]. *)
Definition load_cstring (p : pointer) (off : Z) (m : machine) : option (list ascii) :=
  match p with
  | None => None
  | Some b =>
      match heap m !! b with
      | None => None
      | Some l => if 0 <=? off then cstring_of (drop (Z.to_nat off) l) else None
      end
  end.

(** A [const char *] argument is the array it points into.
    [strlen]: the number of characters before the first NUL; reading
    past the end of the array is undefined. *)
Fixpoint strlen (s : list ascii) : option Z :=
  match s with
  | [] => None
  | c :: s' =>
      if Ascii.eqb c NUL then Some 0
      else match strlen s' with
           | Some n => Some (1 + n)
           | None => None
           end
  end.

(** The [n] bytes [strncpy(dst, s, n)] stores: the characters of [s]
    up to its NUL, then NULs up to [n] bytes; or the first [n]
    characters when [s] has more. *)
Fixpoint strncpy_image (s : list ascii) (n : nat) {struct n}
  : option (list ascii) :=
  match n with
  | O => Some []
  | S n' =>
      match s with
      | [] => None
      | c :: s' =>
          if Ascii.eqb c NUL then Some (repeat NUL n)
          else match strncpy_image s' n' with
               | Some r => Some (c :: r)
               | None => None
               end
      end
  end.

Definition strncpy (dst : pointer) (off : Z) (s : list ascii) (n : Z) : M unit :=
  match strncpy_image s (Z.to_nat n) with
  | None => fault
  | Some img => store_bytes dst off (map Byte img)
  end.

(** [strcpy(dst, src)] between two heap blocks: the string at [src]
    and its NUL. *)
Definition strcpy (dst src : pointer) : M unit :=
  fun m =>
    match load_cstring src 0 m with
    | None => Fault
    | Some s => store_bytes dst 0 (map Byte (s ++ [NUL])) m
    end.

(** What a format string and its arguments expand to: the text; or,
    when a conversion fails, the negative value the [printf] family
    returns and what the failing call leaves in its destination.  The C
    standard does not say what that is: [None] is a library that stores
    nothing, [Some text] one that stores the text produced before the
    failing conversion as it stores an expansion, cut to the size of the
    destination and terminated, as glibc does. *)
Inductive expansion : Type :=
| Expands (text : list ascii)
| FormatError (code : Z) (stored : option (list ascii)).

(** The value [vsnprintf] returns: the length of the whole expansion,
    whatever the size of the destination; the error value when the
    format fails or the length is no [int] (EOVERFLOW). *)
Definition vsnprintf_result (f : expansion) : Z :=
  match f with
  | Expands text =>
      if Z.of_nat (length text) <=? INT_MAX then Z.of_nat (length text) else -1
  | FormatError code _ => code
  end.

(** [vsnprintf(&p[off], size, fmt, ap)]: stores at most [size - 1]
    characters of the expansion and a NUL, nothing when [size] is 0.
    A call that fails returns the error value after it has stored what
    it had produced: the text of a [FormatError], and the expansion
    itself when its length is no [int]. *)
Definition vsnprintf (p : pointer) (off : Z) (size : Z) (f : expansion) : M Z :=
  match f with
  | FormatError code None => ret code
  | FormatError code (Some text) =>
      if size =? 0 then ret code
      else
        let* _ := store_bytes p off
                    (map Byte (take (Z.to_nat (size - 1)) text ++ [NUL])) in
        ret code
  | Expands text =>
      if Z.of_nat (length text) <=? INT_MAX then
        if size =? 0 then ret (Z.of_nat (length text))
        else
          let* _ := store_bytes p off
                      (map Byte (take (Z.to_nat (size - 1)) text ++ [NUL])) in
          ret (Z.of_nat (length text))
      else
        if size =? 0 then ret (-1)
        else
          let* _ := store_bytes p off
                      (map Byte (take (Z.to_nat (size - 1)) text ++ [NUL])) in
          ret (-1)
  end.

End Libc.
Export Libc.

(** ** [struct esb_s] and the functions of esb.c *)

(** Modelled from the spec: [struct esb_s] is declared in esb.h, which is
    not among the sources; its three fields are the ones esb.c reads and
    writes: the storage pointer [esb_string], the capacity
    [esb_allocated_size] and the content length [esb_used_bytes], both
    [size_t]. *)
Record esb_s : Type := Esb {
  esb_string : pointer;
  esb_allocated_size : Z;
  esb_used_bytes : Z
}.

(** A [const char *] argument: null, or the array it points into. *)
Definition c_string : Type := option (list ascii).

(** The array of a string literal. *)
Definition literal (s : string) : c_string :=
  Some (list_ascii_of_string s ++ [NUL]).

(** [int] addition; signed overflow is undefined. *)
Definition int_add (a b : Z) : M Z :=
  if in_int_range (a + b) then ret (a + b) else fault.

Definition init_esb_string (data : esb_s) (min_len : Z) : M esb_s :=
  if esb_allocated_size data >? 0 then ret data
  else
    let* quantum := get_alloc_size in
    let min_len :=
      if min_len <=? quantum then to_size_t (quantum + 1)
      else to_size_t (min_len + 1) in
    let* d := malloc min_len in
    match d with
    | None =>
        let* _ := fprintf_stderr (OutOfMemoryAllocating min_len) in
        exit 5
    | Some _ =>
        let data := Esb d min_len (esb_used_bytes data) in
        let* _ := store (esb_string data) 0 (Byte NUL) in
        ret (Esb (esb_string data) (esb_allocated_size data) 0)
    end.

Definition esb_allocate_more (data : esb_s) (len : Z) : M esb_s :=
  let* quantum := get_alloc_size in
  let new_size := to_size_t (esb_allocated_size data + len) in
  let new_size := if new_size <? quantum then quantum else new_size in
  let* newd := realloc (esb_string data) new_size in
  match newd with
  | None =>
      let* _ := fprintf_stderr (OutOfMemoryReallocating new_size) in
      exit 5
  | Some _ => ret (Esb newd new_size (esb_used_bytes data))
  end.

Definition esb_force_allocation (data : esb_s) (minlen : Z) : M esb_s :=
  if esb_allocated_size data <? minlen then
    let increment := to_size_t (minlen - esb_allocated_size data) in
    esb_allocate_more data increment
  else ret data.

(** The ['len' is believed]: the caller passes an array of at least
    [len] bytes or a string. *)
Definition esb_appendn_internal (data : esb_s) (in_string : list ascii) (len : Z)
  : M esb_s :=
  let needed := len in
  let* data :=
    if esb_allocated_size data =? 0 then
      let* quantum := get_alloc_size in
      let maxlen := if len >=? quantum then len else quantum in
      init_esb_string data maxlen
    else ret data in
  let remaining := to_size_t (esb_allocated_size data - esb_used_bytes data) in
  let* data :=
    if remaining <=? needed then esb_allocate_more data len else ret data in
  let* _ := strncpy (esb_string data) (esb_used_bytes data) in_string len in
  let data := Esb (esb_string data) (esb_allocated_size data)
                  (to_size_t (esb_used_bytes data + len)) in
  let* _ := store (esb_string data) (esb_used_bytes data) (Byte NUL) in
  ret data.

Definition esb_appendn (data : esb_s) (in_string : c_string) (len : Z) : M esb_s :=
  match in_string with
  | None => fault
  | Some s =>
      match strlen s with
      | None => fault
      | Some full_len =>
          let* len :=
            if full_len <? len then
              let* _ := fprintf_stderr (BadStringLength full_len len) in
              ret full_len
            else ret len in
          esb_appendn_internal data s len
      end
  end.

Definition esb_append (data : esb_s) (in_string : c_string) : M esb_s :=
  match in_string with
  | Some s =>
      match strlen s with
      | None => fault
      | Some len =>
          if len =? 0 then ret data
          else esb_appendn_internal data s len
      end
  | None => ret data
  end.

Definition esb_get_string (data : esb_s) : M (esb_s * pointer) :=
  let* data :=
    if esb_allocated_size data =? 0 then
      let* quantum := get_alloc_size in
      init_esb_string data quantum
    else ret data in
  ret (data, esb_string data).

Definition esb_empty_string (data : esb_s) : M esb_s :=
  let* data :=
    if esb_allocated_size data =? 0 then
      let* quantum := get_alloc_size in
      init_esb_string data quantum
    else ret data in
  let data := Esb (esb_string data) (esb_allocated_size data) 0 in
  let* _ := store (esb_string data) 0 (Byte NUL) in
  ret data.

Definition esb_string_len (data : esb_s) : Z := esb_used_bytes data.

(** [memset(data, 0, sizeof( *data))]: whatever [data] held is gone. *)
Definition esb_constructor (data : esb_s) : M esb_s := ret (Esb None 0 0).

Definition esb_destructor (data : esb_s) : M esb_s :=
  let* data :=
    match esb_string data with
    | Some b =>
        let* _ := free b in
        ret (Esb None (esb_allocated_size data) (esb_used_bytes data))
    | None => ret data
    end in
  esb_constructor data.

Definition esb_alloc_size (size : Z) : M unit :=
  fun m => Ret tt (set_alloc_size size m).

Definition esb_get_allocated_size (data : esb_s) : Z := esb_allocated_size data.

(** The measure phase.  [vsnprintf(a_buffer, sizeof(a_buffer), ...)]
    writes into a function-local static scratch array that nothing
    reads; only the length it returns is kept. *)
Definition esb_allocate_more_if_needed (data : esb_s) (f : expansion) : M esb_s :=
  let netlen := vsnprintf_result f in
  let* minlen := int_add netlen 1 in
  esb_force_allocation data (to_size_t minlen).

Definition esb_append_printf_ap (data : esb_s) (f : expansion) : M esb_s :=
  let* data := esb_allocate_more_if_needed data f in
  let netlen := to_int (to_size_t (esb_allocated_size data - esb_used_bytes data)) in
  let* expandedlen :=
    vsnprintf (esb_string data) (esb_used_bytes data) (to_size_t netlen) f in
  if expandedlen <? 0 then ret data
  else if netlen <? expandedlen then
    let* written := int_add netlen (-1) in
    ret (Esb (esb_string data) (esb_allocated_size data)
             (to_size_t (esb_used_bytes data + to_size_t written)))
  else
    ret (Esb (esb_string data) (esb_allocated_size data)
             (to_size_t (esb_used_bytes data + to_size_t expandedlen))).

Definition esb_append_printf (data : esb_s) (f : expansion) : M esb_s :=
  esb_append_printf_ap data f.

Definition esb_get_copy (data : esb_s) : M (esb_s * pointer) :=
  let len := esb_string_len data in
  if len =? 0 then ret (data, None)
  else
    let* copy := malloc (to_size_t (len + 1)) in
    let* r := esb_get_string data in
    let* _ := strcpy copy (snd r) in
    ret (fst r, copy).

(** ** Observations *)

(** What a caller reads through the pointer [esb_get_string] returns. *)
Definition as_string (data : esb_s) (m : machine) : option (list ascii) :=
  load_cstring (esb_string data) 0 m.

(** The storage of the buffer, when it has any. *)
Definition storage (data : esb_s) (m : machine) : option (list memval) :=
  match esb_string data with
  | None => None
  | Some b => heap m !! b
  end.

(** What the caller of [esb_get_string] reads back. *)
Definition read_back (data : esb_s) : M (option (list ascii)) :=
  let* r := esb_get_string data in
  fun m => Ret (load_cstring (snd r) 0 m) m.

(** ** The invariant of the buffer *)

(** [holds text data m]: the buffer is valid and its content is [text].
    Either nothing is allocated yet (null storage, capacity 0, no
    content), or the storage block has [esb_allocated_size] bytes and
    starts with the content followed by the NUL terminator. *)
Definition holds (text : list ascii) (data : esb_s) (m : machine) : Prop :=
  esb_used_bytes data = Z.of_nat (length text) /\
  0 <= esb_allocated_size data < SIZE_MODULUS /\
  match esb_string data with
  | None => esb_allocated_size data = 0 /\ text = []
  | Some b =>
      exists rest,
        heap m !! b = Some (map Byte text ++ Byte NUL :: rest) /\
        esb_allocated_size data
        = Z.of_nat (length text) + 1 + Z.of_nat (length rest)
  end.

(** The terminator rule alone, as a test: when the capacity is positive,
    the length is below it and the byte at offset [length] is NUL. *)
Definition terminated (data : esb_s) (m : machine) : bool :=
  if 0 <? esb_allocated_size data then
    (esb_used_bytes data <? esb_allocated_size data) &&
    match storage data m with
    | Some l =>
        bool_decide (l !! Z.to_nat (esb_used_bytes data) = Some (Byte NUL))
    | None => false
    end
  else true.

(** The fields of the struct and the quantum are [size_t] values. *)
Definition sizes_ok (data : esb_s) (m : machine) : Prop :=
  is_size_t (esb_allocated_size data) /\
  is_size_t (esb_used_bytes data) /\
  is_size_t (alloc_size m).

(** Every request up to [bound] bytes is granted. *)
Definition enough_memory (m : machine) (bound : Z) : Prop :=
  forall n, 0 <= n <= bound -> mem_avail m n = true.

(** ** Calls of the public interface *)

Inductive esb_call : Type :=
| CallForceAllocation (minlen : Z)
| CallAppendn (in_string : c_string) (len : Z)
| CallAppend (in_string : c_string)
| CallAppendPrintf (f : expansion)
| CallGetString
| CallEmptyString
| CallStringLen
| CallGetAllocatedSize
| CallGetCopy
| CallAllocSize (size : Z)
| CallDestructor.

(** The effect of a call on the struct and the machine; what the call
    returns besides is dropped. *)
Definition perform (c : esb_call) (data : esb_s) : M esb_s :=
  match c with
  | CallForceAllocation minlen => esb_force_allocation data minlen
  | CallAppendn s len => esb_appendn data s len
  | CallAppend s => esb_append data s
  | CallAppendPrintf f => esb_append_printf data f
  | CallGetString => let* r := esb_get_string data in ret (fst r)
  | CallEmptyString => esb_empty_string data
  | CallStringLen => ret data
  | CallGetAllocatedSize => ret data
  | CallGetCopy => let* r := esb_get_copy data in ret (fst r)
  | CallAllocSize size => let* _ := esb_alloc_size size in ret data
  | CallDestructor => esb_destructor data
  end.

Fixpoint perform_all (cs : list esb_call) (data : esb_s) : M esb_s :=
  match cs with
  | [] => ret data
  | c :: cs' => let* data := perform c data in perform_all cs' data
  end.

(** The capacity seen before the first call and after every call that
    returns; the record ends where the process does. *)
Fixpoint capacities (cs : list esb_call) (data : esb_s) (m : machine) : list Z :=
  esb_get_allocated_size data ::
  match cs with
  | [] => []
  | c :: cs' =>
      match perform c data m with
      | Ret data' m' => capacities cs' data' m'
      | _ => []
      end
  end.

(** The arguments of a call are values of their C types (a [size_t],
    an array whose size is one), and the call is not the destructor. *)
Definition call_ok (c : esb_call) : Prop :=
  match c with
  | CallForceAllocation minlen => is_size_t minlen
  | CallAppendn _ len => is_size_t len
  | CallAppend (Some s) => is_size_t (Z.of_nat (length s))
  | CallAllocSize size => is_size_t size
  | CallDestructor => False
  | _ => True
  end.

(** The characters of a C string: those before its first NUL. *)
Fixpoint chars (s : list ascii) : list ascii :=
  match s with
  | [] => []
  | c :: s' => if Ascii.eqb c NUL then [] else c :: chars s'
  end.

(** An append of a string with a truthful length. *)
Definition truthful (c : esb_call) : Prop :=
  match c with
  | CallAppendn (Some s) len =>
      match strlen s with
      | Some t => 0 <= len <= t
      | None => False
      end
  | CallAppend (Some s) =>
      match strlen s with
      | Some _ => True
      | None => False
      end
  | _ => False
  end.

(** The piece such a call appends, and its length as the call gives it. *)
Definition appended (c : esb_call) : list ascii :=
  match c with
  | CallAppendn (Some s) len => take (Z.to_nat len) s
  | CallAppend (Some s) => chars s
  | _ => []
  end.

Definition appended_length (c : esb_call) : Z :=
  match c with
  | CallAppendn _ len => len
  | CallAppend (Some s) => default 0 (strlen s)
  | _ => 0
  end.

Definition Zsum (l : list Z) : Z := foldr Z.add 0 l.

(** The storage pointer is null or points to a live block. *)
Definition storage_live (data : esb_s) (m : machine) : Prop :=
  match esb_string data with
  | None => True
  | Some b => is_Some (heap m !! b)
  end.

(** The size [esb_allocate_more] asks [realloc] for. *)
Definition new_size_of (data : esb_s) (len : Z) (m : machine) : Z :=
  let new_size := to_size_t (esb_allocated_size data + len) in
  if new_size <? alloc_size m then alloc_size m else new_size.

(** The block [realloc] builds from the old contents. *)
Definition resized (old : list memval) (n : Z) : list memval :=
  take (Z.to_nat n) old ++ replicate (Z.to_nat n - length old)%nat Undef.

(** Nothing but the heap changed. *)
Definition same_process (m m' : machine) : Prop :=
  alloc_size m' = alloc_size m /\
  mem_avail m' = mem_avail m /\
  stderr m' = stderr m.

(** ** Partial correctness over the monad *)

(** [wlp c Q m]: if [c] returns from [m], then [Q] holds of the result
    and of the machine it leaves. *)
Definition wlp {A} (c : M A) (Q : A -> machine -> Prop) (m : machine) : Prop :=
  match c m with
  | Ret a m' => Q a m'
  | _ => True
  end.

(** The allocator does not hand out a live block. *)
Definition allocator_ok (m : machine) : Prop :=
  forall b, (next_block m <= b)%positive -> heap m !! b = None.

(** Block [k] is allocated, and it is not the storage of [data]. *)
Definition apart (k : block) (data : esb_s) (m : machine) : Prop :=
  esb_string data <> Some k /\ (k < next_block m)%positive.

(** Between [m] and [m'] the quantum is the same, no block was handed
    out twice, and among the blocks that existed in [m] only the one [p]
    points to may differ. *)
Definition touches (p : pointer) (m m' : machine) : Prop :=
  alloc_size m' = alloc_size m /\
  (next_block m <= next_block m')%positive /\
  forall k, p <> Some k -> (k < next_block m)%positive ->
            heap m' !! k = heap m !! k.

(** The capacity of [data'] is at least that of [data], and its fields
    are [size_t] values. *)
Definition grows (data data' : esb_s) (m' : machine) : Prop :=
  esb_allocated_size data <= esb_allocated_size data' /\ sizes_ok data' m'.

(** The scenarios of the self test and of the defects below. *)
Definition always_available (_ : Z) : bool := true.

Definition text_of (s : string) : list ascii := list_ascii_of_string s.

(** A buffer that holds "ab" in four bytes. *)
Definition ab_buffer : esb_s := Esb (Some 1%positive) 4 2.
Definition ab_machine : machine :=
  Machine INITIAL_ALLOC_SELFTEST
          {[1%positive := [Byte "a"%char; Byte "b"%char; Byte NUL; Undef]]}
          2%positive always_available [].

(** construct, then append "aaaaa", with the default quantum of 16 *)
Definition five_a : M esb_s :=
  let* d := esb_constructor (Esb None 0 0) in
  esb_append d (literal "aaaaa").

Definition capacity_of (o : outcome esb_s) : option Z :=
  match o with
  | Ret d _ => Some (esb_allocated_size d)
  | _ => None
  end.

Definition length_of (o : outcome esb_s) : option Z :=
  match o with
  | Ret d _ => Some (esb_string_len d)
  | _ => None
  end.

Definition content_of (o : outcome esb_s) : option (list ascii) :=
  match o with
  | Ret d m => as_string d m
  | _ => None
  end.

Definition terminated_after (o : outcome esb_s) : option bool :=
  match o with
  | Ret d m => Some (terminated d m)
  | _ => None
  end.

(** ** The self test of esb.c *)

(** [validate_esb]: length, capacity and content after the calls, with
    the quantum of the self test. *)
Definition validate_esb (c : M esb_s) (explen expalloc : Z) (expout : string) : bool :=
  match (let* d := c in
         let* s := read_back d in
         ret (d, s)) (boot INITIAL_ALLOC_SELFTEST always_available) with
  | Ret (d, s) _ =>
      bool_decide (esb_string_len d = explen) &&
      bool_decide (esb_allocated_size d = expalloc) &&
      bool_decide (s = Some (text_of expout))
  | _ => false
  end.

Definition constructed : M esb_s := esb_constructor (Esb None 0 0).

(** [static char oddarray[7] = {'a','b',0,'c','c','d',0};] *)
Definition oddarray : c_string :=
  Some (text_of "ab" ++ [NUL] ++ text_of "ccd" ++ [NUL]).

Definition selftest_1 : M esb_s :=
  let* d := constructed in esb_append d (literal "a").
Definition selftest_2 : M esb_s :=
  let* d := selftest_1 in esb_append d (literal "b").
Definition selftest_3 : M esb_s :=
  let* d := selftest_2 in esb_append d (literal "c").
Definition selftest_4 : M esb_s :=
  let* d := selftest_3 in esb_empty_string d.
Definition selftest_6 : M esb_s :=
  let* d := constructed in esb_append d (literal "aa").
Definition selftest_7 : M esb_s :=
  let* d := selftest_6 in esb_append d (literal "bbb").
Definition selftest_8 : M esb_s :=
  let* d := selftest_7 in esb_append d (literal "c").
Definition selftest_9 : M esb_s :=
  let* d := selftest_8 in esb_empty_string d.
Definition selftest_10 : M esb_s :=
  let* d := constructed in esb_appendn d oddarray 6.
Definition selftest_11 : M esb_s :=
  let* d := selftest_10 in esb_appendn d (literal "cc") 1.
Definition selftest_12 : M esb_s :=
  let* d := selftest_11 in esb_empty_string d.
Definition selftest_13 : M esb_s :=
  let* d := constructed in
  let* d := esb_force_allocation d 7 in
  esb_append d (literal "aaaa i").
(** [trialprint]: the format "aaaa %s bbbb" with "insert me". *)
Definition trialprint (d : esb_s) : M esb_s :=
  esb_append_printf_ap d (Expands (text_of "aaaa insert me bbbb")).
Definition selftest_14 : M esb_s :=
  let* d := constructed in
  let* d := esb_force_allocation d 50 in
  trialprint d.
Definition selftest_15 : M esb_s :=
  let* d := constructed in
  esb_append d (literal "abcde fghij klmno pqrst").

(** ** Further notions: room, ownership, clamped pieces *)

(** [stores text data m]: the storage block starts with the content and
    has at least one more byte, of which nothing is said.  This is what
    is left of [holds] after [esb_force_allocation] on a constructed
    buffer. *)
Definition stores (text : list ascii) (data : esb_s) (m : machine) : Prop :=
  esb_used_bytes data = Z.of_nat (length text) /\
  0 <= esb_allocated_size data < SIZE_MODULUS /\
  exists b x rest,
    esb_string data = Some b /\
    heap m !! b = Some (map Byte text ++ x :: rest) /\
    esb_allocated_size data
    = Z.of_nat (length text) + 1 + Z.of_nat (length rest).

(** The capacity the measure phase of the formatted append leaves, for
    an expansion of [len] characters. *)
Definition capacity_after_measure (data : esb_s) (len : Z) (m : machine) : Z :=
  if esb_allocated_size data <? len + 1
  then Z.max (len + 1) (alloc_size m)
  else esb_allocated_size data.

(** An append whose input has a terminator; the claimed length of
    [esb_appendn] is any [size_t]. *)
Definition terminated_input (c : esb_call) : Prop :=
  match c with
  | CallAppendn (Some s) len =>
      match strlen s with
      | Some _ => is_size_t len
      | None => False
      end
  | CallAppend (Some s) =>
      match strlen s with
      | Some _ => True
      | None => False
      end
  | _ => False
  end.

(** The piece such a call appends: the claimed length clamped to the
    length of the string. *)
Definition clamped (c : esb_call) : list ascii :=
  match c with
  | CallAppendn (Some s) len => take (Z.to_nat len) (chars s)
  | CallAppend (Some s) => chars s
  | _ => []
  end.

(** What the call prints on [stderr]. *)
Definition complaint (c : esb_call) : list diagnostic :=
  match c with
  | CallAppendn (Some s) len =>
      match strlen s with
      | Some t => if t <? len then [BadStringLength t len] else []
      | None => []
      end
  | _ => []
  end.

(** Of the blocks allocated since [base], only the storage of the buffer
    is live; the allocator hands out no live block; the quantum is not
    zero; and a buffer that has storage has a capacity. *)
Definition owned (base : positive) (data : esb_s) (m : machine) : Prop :=
  (base <= next_block m)%positive /\
  (forall k, (next_block m <= k)%positive -> heap m !! k = None) /\
  (forall k, (base <= k)%positive -> is_Some (heap m !! k) ->
             esb_string data = Some k) /\
  0 < alloc_size m /\
  (esb_string data <> None -> 0 < esb_allocated_size data).

(** Calls that hand no block to the caller, and keep the quantum
    non-zero as the comment of [esb_alloc_size] demands. *)
Definition keeps_blocks (c : esb_call) : Prop :=
  match c with
  | CallGetCopy => False
  | CallAllocSize size => 0 < size
  | _ => True
  end.

(** Between [m] and [m'] at most the contents of the block [p] points to
    changed. *)
Definition overwrites (p : pointer) (m m' : machine) : Prop :=
  alloc_size m' = alloc_size m /\
  next_block m' = next_block m /\
  (heap m' = heap m \/
   exists b l l', p = Some b /\ heap m !! b = Some l /\
                  heap m' = <[b := l']> (heap m)).

(** Between [m] and [m'] a block was handed out, and the block [p]
    pointed to, if any, was released. *)
Definition moves (p : pointer) (m m' : machine) : Prop :=
  alloc_size m' = alloc_size m /\
  next_block m' = Pos.succ (next_block m) /\
  exists l,
    heap m' = <[next_block m := l]>
                (match p with
                 | Some b => delete b (heap m)
                 | None => heap m
                 end).

(** The array a pointer into the heap designates, as an argument: the
    bytes of the block up to the first indeterminate one. *)
Fixpoint defined_prefix (l : list memval) : list ascii :=
  match l with
  | Byte c :: l' => c :: defined_prefix l'
  | _ => []
  end.

Definition argument_at (p : pointer) (m : machine) : c_string :=
  match p with
  | None => None
  | Some b =>
      match heap m !! b with
      | Some l => Some (defined_prefix l)
      | None => Some []
      end
  end.

(** Instance 16 of the self test: the copy of one buffer appended to
    another. *)
Definition copy_into (d e : esb_s) : M (esb_s * esb_s * pointer) :=
  let* r := esb_get_copy d in
  let* a := (fun m => Ret (argument_at (snd r) m) m) in
  let* e := esb_append e a in
  ret (fst r, e, snd r).

(** An empty buffer of 3 GiB: a terminator and indeterminate bytes. *)
Definition wide_buffer : esb_s := Esb (Some 1%positive) 3221225472 0.
Definition wide_machine : machine :=
  Machine INITIAL_ALLOC
          {[1%positive := Byte NUL :: replicate (Z.to_nat 3221225471) Undef]}
          2%positive always_available [].

(** ** The null device of the formatted append *)

Module NullDevice.

(** The streams of the process as far as esb.c sees them: the
    file-scope [null_device_handle], the streams that are open, the next
    stream [fopen] hands out, and whether [fopen] succeeds. *)
Record streams : Type := Streams {
  null_device_handle : option positive;
  open_streams : gset positive;
  next_stream : positive;
  fopen_succeeds : bool
}.

(** [fopen(NULL_DEVICE_NAME, "w")] *)
Definition fopen (st : streams) : option positive * streams :=
  if fopen_succeeds st then
    (Some (next_stream st),
     Streams (null_device_handle st)
             ({[next_stream st]} ∪ open_streams st)
             (Pos.succ (next_stream st)) (fopen_succeeds st))
  else (None, st).

(** [fclose(f)]: undefined ([None]) on a stream that is not open. *)
Definition fclose (f : positive) (st : streams) : option streams :=
  if bool_decide (f ∈ open_streams st) then
    Some (Streams (null_device_handle st) (open_streams st ∖ {[f]})
                  (next_stream st) (fopen_succeeds st))
  else None.

Definition esb_open_null_device (st : streams) : option positive * streams :=
  match null_device_handle st with
  | None =>
      let (f, st') := fopen st in
      (f, Streams f (open_streams st') (next_stream st') (fopen_succeeds st'))
  | Some f => (Some f, st)
  end.

Definition esb_close_null_device (st : streams) : option streams :=
  match null_device_handle st with
  | Some f => fclose f st
  | None => Some st
  end.

(** At process start: no handle, no stream. *)
Definition start (works : bool) : streams := Streams None ∅ 1%positive works.

End NullDevice.

(** * Properties *)

(** ** Conversions *)

Lemma size_modulus_value : SIZE_MODULUS = 18446744073709551616.
Proof. reflexivity. Qed.

Lemma to_size_t_small x : is_size_t x -> to_size_t x = x.
Proof. intros H. unfold to_size_t. apply Z.mod_small. exact H. Qed.

Lemma to_size_t_range x : is_size_t (to_size_t x).
Proof.
  unfold is_size_t, to_size_t. apply Z.mod_pos_bound.
  rewrite size_modulus_value. lia.
Qed.

Lemma to_size_t_shift x k : to_size_t (x + k * SIZE_MODULUS) = to_size_t x.
Proof. unfold to_size_t. apply Z.mod_add. rewrite size_modulus_value. lia. Qed.

Lemma to_size_t_below x :
  - SIZE_MODULUS <= x < 0 -> to_size_t x = x + SIZE_MODULUS.
Proof.
  intros H. rewrite <- (to_size_t_shift x 1).
  apply to_size_t_small. unfold is_size_t. lia.
Qed.

(** ** The monad *)

Lemma bind_ext {A B} (c : M A) (k k' : A -> M B) m :
  (forall a m', k a m' = k' a m') -> bind c k m = bind c k' m.
Proof. intros H. unfold bind. destruct (c m); auto. Qed.

Lemma wlp_ret {A} (a : A) Q m : Q a m -> wlp (ret a) Q m.
Proof. intros H. exact H. Qed.

Lemma wlp_bind {A B} (c : M A) (k : A -> M B) Q m :
  wlp c (fun a m' => wlp (k a) Q m') m -> wlp (bind c k) Q m.
Proof.
  unfold wlp, bind. destruct (c m) as [a m1| |]; intros H; auto.
Qed.

Lemma wlp_mono {A} (c : M A) (Q Q' : A -> machine -> Prop) m :
  wlp c Q m -> (forall a m', Q a m' -> Q' a m') -> wlp c Q' m.
Proof.
  unfold wlp. destruct (c m); intros H HQ; auto.
Qed.

Lemma wlp_elim {A} (c : M A) Q m a m' :
  wlp c Q m -> c m = Ret a m' -> Q a m'.
Proof. unfold wlp. intros H E. rewrite E in H. exact H. Qed.

Lemma wlp_exit {A} st (Q : A -> machine -> Prop) m : wlp (exit st) Q m.
Proof. exact I. Qed.

(** ** The self test of esb.c, run on the embedding *)

Example selftest_passes :
  validate_esb selftest_1 1 2 "a" = true /\
  validate_esb selftest_2 2 3 "ab" = true /\
  validate_esb selftest_3 3 4 "abc" = true /\
  validate_esb selftest_4 0 4 "" = true /\
  validate_esb selftest_6 2 3 "aa" = true /\
  validate_esb selftest_7 5 6 "aabbb" = true /\
  validate_esb selftest_8 6 7 "aabbbc" = true /\
  validate_esb selftest_9 0 7 "" = true /\
  validate_esb selftest_10 2 3 "ab" = true /\
  validate_esb selftest_11 3 4 "abc" = true /\
  validate_esb selftest_12 0 4 "" = true /\
  validate_esb selftest_13 6 7 "aaaa i" = true /\
  validate_esb selftest_14 19 50 "aaaa insert me bbbb" = true /\
  validate_esb selftest_15 23 24 "abcde fghij klmno pqrst" = true.
Proof. vm_compute. repeat split. Qed.

(** ** Initialisation *)

Lemma min_len_with_terminator min_len q :
  is_size_t min_len -> is_size_t q -> Z.max min_len q + 1 < SIZE_MODULUS ->
  (if min_len <=? q then to_size_t (q + 1) else to_size_t (min_len + 1))
  = Z.max min_len q + 1.
Proof.
  unfold is_size_t. intros Hl Hq Hb.
  destruct (Z.leb_spec min_len q).
  - rewrite to_size_t_small by (unfold is_size_t; lia). lia.
  - rewrite to_size_t_small by (unfold is_size_t; lia). lia.
Qed.

Lemma init_esb_string_eq data min_len m :
  esb_allocated_size data = 0 ->
  is_size_t min_len -> is_size_t (alloc_size m) ->
  Z.max min_len (alloc_size m) + 1 < SIZE_MODULUS ->
  mem_avail m (Z.max min_len (alloc_size m) + 1) = true ->
  init_esb_string data min_len m
  = Ret (Esb (Some (next_block m)) (Z.max min_len (alloc_size m) + 1) 0)
        (Machine (alloc_size m)
                 (<[next_block m :=
                      Byte NUL :: replicate (Z.to_nat (Z.max min_len (alloc_size m))) Undef]>
                    (heap m))
                 (Pos.succ (next_block m)) (mem_avail m) (stderr m)).
Proof.
  intros H0 Hl Hq Hb Hav.
  unfold init_esb_string. rewrite H0. simpl.
  unfold bind, get_alloc_size.
  rewrite min_len_with_terminator by assumption.
  unfold malloc. rewrite Hav. simpl.
  unfold store. simpl. rewrite lookup_insert_eq.
  assert (Hn : Z.to_nat (Z.max min_len (alloc_size m) + 1)
               = S (Z.to_nat (Z.max min_len (alloc_size m)))).
  { unfold is_size_t in *. lia. }
  rewrite Hn. simpl.
  unfold ret, set_heap. simpl. rewrite insert_insert_eq. reflexivity.
Qed.

(** C8: on a buffer whose capacity is 0, initialisation allocates exactly
    [max(min_len, alloc_size) + 1] bytes, sets the length to 0 and
    writes the terminator at offset 0 (when that size is a [size_t] and
    [malloc] grants it). *)
Theorem init_esb_string_allocates data min_len m :
  esb_allocated_size data = 0 ->
  is_size_t min_len -> is_size_t (alloc_size m) ->
  Z.max min_len (alloc_size m) + 1 < SIZE_MODULUS ->
  mem_avail m (Z.max min_len (alloc_size m) + 1) = true ->
  exists b l m',
    init_esb_string data min_len m = Ret (Esb (Some b) (Z.of_nat (length l)) 0) m' /\
    heap m' !! b = Some l /\
    Z.of_nat (length l) = Z.max min_len (alloc_size m) + 1 /\
    l !! 0%nat = Some (Byte NUL) /\
    b = next_block m /\
    stderr m' = stderr m.
Proof.
  intros H0 Hl Hq Hb Hav.
  exists (next_block m),
         (Byte NUL :: replicate (Z.to_nat (Z.max min_len (alloc_size m))) Undef).
  eexists. split.
  - rewrite init_esb_string_eq by assumption.
    f_equal. f_equal. simpl length. rewrite length_replicate.
    unfold is_size_t in *. lia.
  - simpl heap. rewrite lookup_insert_eq. split; [reflexivity|].
    split.
    + simpl length. rewrite length_replicate. unfold is_size_t in *. lia.
    + repeat split.
Qed.

Lemma init_esb_string_allocates_witness :
  exists b l m',
    init_esb_string (Esb None 0 0) 23 (boot INITIAL_ALLOC always_available)
    = Ret (Esb (Some b) (Z.of_nat (length l)) 0) m' /\
    heap m' !! b = Some l /\
    Z.of_nat (length l) = Z.max 23 16 + 1 /\
    l !! 0%nat = Some (Byte NUL) /\
    b = 1%positive /\
    stderr m' = [].
Proof.
  apply (init_esb_string_allocates (Esb None 0 0) 23
           (boot INITIAL_ALLOC always_available)).
  - reflexivity.
  - unfold is_size_t. rewrite size_modulus_value. lia.
  - unfold is_size_t, boot, INITIAL_ALLOC, alloc_size.
    rewrite size_modulus_value. lia.
  - unfold boot, INITIAL_ALLOC, alloc_size. rewrite size_modulus_value. lia.
  - reflexivity.
Defined.

(** When the allocator refuses, the diagnostic names the size and the
    process exits with status 5. *)
Lemma init_esb_string_out_of_memory data min_len m :
  esb_allocated_size data = 0 ->
  is_size_t min_len -> is_size_t (alloc_size m) ->
  Z.max min_len (alloc_size m) + 1 < SIZE_MODULUS ->
  mem_avail m (Z.max min_len (alloc_size m) + 1) = false ->
  exists m',
    init_esb_string data min_len m = Exit 5 m' /\
    stderr m' = stderr m
                ++ [OutOfMemoryAllocating (Z.max min_len (alloc_size m) + 1)].
Proof.
  intros H0 Hl Hq Hb Hav.
  unfold init_esb_string. rewrite H0. simpl.
  unfold bind, get_alloc_size.
  rewrite min_len_with_terminator by assumption.
  unfold malloc. rewrite Hav. simpl. eexists. split; reflexivity.
Qed.

(** C10: [esb_append] with a null input string changes nothing: the
    struct and the whole machine are as before; whereas [esb_appendn],
    like the rest of the module, takes its pointer to be non-null and
    hands it to [strlen]. *)
Theorem esb_append_null_is_noop data len m :
  esb_append data None m = Ret data m /\
  esb_appendn data None len m = Fault.
Proof. split; reflexivity. Qed.

(** ** Growth *)

Lemma length_resized old n : 0 <= n -> Z.of_nat (length (resized old n)) = n.
Proof.
  intros Hn. unfold resized.
  rewrite length_app, length_take, length_replicate. lia.
Qed.

Lemma resized_extends old n :
  Z.of_nat (length old) <= n ->
  resized old n = old ++ replicate (Z.to_nat n - length old)%nat Undef.
Proof.
  intros Hn. unfold resized. rewrite take_ge by lia. reflexivity.
Qed.

Lemma new_size_of_range data len m :
  is_size_t (alloc_size m) -> is_size_t (new_size_of data len m).
Proof.
  intros Hq. unfold new_size_of.
  destruct (_ <? _); [exact Hq | apply to_size_t_range].
Qed.

Lemma new_size_of_max data len m :
  is_size_t (esb_allocated_size data + len) ->
  new_size_of data len m = Z.max (esb_allocated_size data + len) (alloc_size m).
Proof.
  intros H. unfold new_size_of. rewrite to_size_t_small by exact H.
  destruct (Z.ltb_spec (esb_allocated_size data + len) (alloc_size m)); lia.
Qed.

Lemma esb_allocate_more_live data len m b old :
  esb_string data = Some b -> heap m !! b = Some old ->
  mem_avail m (new_size_of data len m) = true ->
  esb_allocate_more data len m
  = Ret (Esb (Some (next_block m)) (new_size_of data len m) (esb_used_bytes data))
        (Machine (alloc_size m)
                 (<[next_block m := resized old (new_size_of data len m)]>
                    (delete b (heap m)))
                 (Pos.succ (next_block m)) (mem_avail m) (stderr m)).
Proof.
  intros Hs Hb Hav.
  unfold esb_allocate_more, bind, get_alloc_size.
  fold (new_size_of data len m).
  rewrite Hs. unfold realloc. rewrite Hb, Hav. reflexivity.
Qed.

Lemma esb_allocate_more_null data len m :
  esb_string data = None ->
  mem_avail m (new_size_of data len m) = true ->
  esb_allocate_more data len m
  = Ret (Esb (Some (next_block m)) (new_size_of data len m) (esb_used_bytes data))
        (Machine (alloc_size m)
                 (<[next_block m := replicate (Z.to_nat (new_size_of data len m)) Undef]>
                    (heap m))
                 (Pos.succ (next_block m)) (mem_avail m) (stderr m)).
Proof.
  intros Hs Hav.
  unfold esb_allocate_more, bind, get_alloc_size.
  fold (new_size_of data len m).
  rewrite Hs. unfold realloc, malloc. rewrite Hav. reflexivity.
Qed.

(** Growing returns with the requested size as capacity and a block of
    exactly that many bytes, the length being untouched. *)
Lemma esb_allocate_more_grows data len m :
  storage_live data m -> is_size_t (alloc_size m) ->
  mem_avail m (new_size_of data len m) = true ->
  exists d' m' l,
    esb_allocate_more data len m = Ret d' m' /\
    esb_allocated_size d' = new_size_of data len m /\
    esb_used_bytes d' = esb_used_bytes data /\
    storage d' m' = Some l /\
    Z.of_nat (length l) = new_size_of data len m /\
    same_process m m'.
Proof.
  intros Hlive Hq Hav.
  pose proof (new_size_of_range data len m Hq) as Hr.
  unfold storage_live in Hlive.
  destruct (esb_string data) as [b|] eqn:Hs.
  - destruct Hlive as [old Hold].
    do 2 eexists. exists (resized old (new_size_of data len m)).
    split; [apply (esb_allocate_more_live _ _ _ b old); assumption|].
    unfold storage. simpl. rewrite lookup_insert_eq.
    repeat split. apply length_resized. apply Hr.
  - do 2 eexists. exists (replicate (Z.to_nat (new_size_of data len m)) Undef).
    split; [apply esb_allocate_more_null; assumption|].
    unfold storage. simpl. rewrite lookup_insert_eq.
    repeat split. rewrite length_replicate. unfold is_size_t in Hr. lia.
Qed.

Lemma force_increment data minlen m :
  is_size_t (esb_allocated_size data) -> is_size_t minlen ->
  is_size_t (alloc_size m) ->
  esb_allocated_size data < minlen ->
  new_size_of data (to_size_t (minlen - esb_allocated_size data)) m
  = Z.max minlen (alloc_size m).
Proof.
  unfold is_size_t. intros Ha Hm Hq Hlt.
  rewrite (to_size_t_small (minlen - _)) by (unfold is_size_t; lia).
  rewrite new_size_of_max by (unfold is_size_t; lia). f_equal. lia.
Qed.

(** C3, amended: when the capacity is below [minlen],
    [esb_force_allocation] asks for the deficit and the capacity becomes
    [max(minlen, alloc_size)], the quantum being the floor of any
    reallocation; when the capacity is already [minlen] or more, nothing
    changes. *)
Theorem esb_force_allocation_capacity data minlen m :
  is_size_t (esb_allocated_size data) -> is_size_t minlen ->
  is_size_t (alloc_size m) ->
  storage_live data m ->
  (esb_allocated_size data < minlen ->
   mem_avail m (Z.max minlen (alloc_size m)) = true) ->
  exists d' m',
    esb_force_allocation data minlen m = Ret d' m' /\
    (esb_allocated_size data < minlen ->
     esb_allocated_size d' = Z.max minlen (alloc_size m) /\
     esb_used_bytes d' = esb_used_bytes data /\
     exists l, storage d' m' = Some l /\
               Z.of_nat (length l) = Z.max minlen (alloc_size m)) /\
    (minlen <= esb_allocated_size data -> d' = data /\ m' = m).
Proof.
  intros Ha Hm Hq Hlive Hav.
  unfold esb_force_allocation.
  destruct (Z.ltb_spec (esb_allocated_size data) minlen) as [Hlt|Hge].
  - specialize (Hav Hlt).
    pose proof (force_increment data minlen m Ha Hm Hq Hlt) as Hn.
    destruct (esb_allocate_more_grows data
                (to_size_t (minlen - esb_allocated_size data)) m)
      as (d' & m' & l & Hrun & Hcap & Hused & Hsto & Hlen & _); try assumption.
    { rewrite Hn. exact Hav. }
    exists d', m'. split; [exact Hrun|]. split.
    + intros _. rewrite Hcap, Hn. split; [reflexivity|].
      split; [exact Hused|]. exists l. split; [exact Hsto|]. lia.
    + intros Hge. lia.
  - exists data, m. split; [reflexivity|]. split.
    + intros Hlt. lia.
    + intros _. split; reflexivity.
Qed.

Lemma esb_force_allocation_capacity_witness :
  exists d' m',
    esb_force_allocation (Esb None 0 0) 50 (boot INITIAL_ALLOC always_available)
    = Ret d' m' /\
    (0 < 50 ->
     esb_allocated_size d' = Z.max 50 16 /\
     esb_used_bytes d' = 0 /\
     exists l, storage d' m' = Some l /\ Z.of_nat (length l) = Z.max 50 16) /\
    (50 <= 0 -> d' = Esb None 0 0 /\ m' = boot INITIAL_ALLOC always_available).
Proof.
  apply (esb_force_allocation_capacity (Esb None 0 0) 50
           (boot INITIAL_ALLOC always_available)).
  - unfold is_size_t, esb_allocated_size. rewrite size_modulus_value. lia.
  - unfold is_size_t. rewrite size_modulus_value. lia.
  - unfold is_size_t, boot, INITIAL_ALLOC, alloc_size.
    rewrite size_modulus_value. lia.
  - simpl. exact I.
  - reflexivity.
Defined.

(** C3 as stated fails: with the default quantum of 16, forcing a
    capacity of 7 on a constructed buffer yields 16, not 7. *)
Lemma esb_force_allocation_overshoots :
  capacity_of (esb_force_allocation (Esb None 0 0) 7
                 (boot INITIAL_ALLOC always_available)) = Some 16 /\
  ~ (forall data minlen m d' m',
        esb_allocated_size data < minlen ->
        esb_force_allocation data minlen m = Ret d' m' ->
        esb_allocated_size d' = minlen).
Proof.
  split; [reflexivity|].
  intros H.
  specialize (H (Esb None 0 0) 7 (boot INITIAL_ALLOC always_available)).
  simpl in H.
  unfold esb_force_allocation, esb_allocate_more, bind, get_alloc_size in H.
  simpl in H.
  specialize (H _ _ ltac:(lia) eq_refl). simpl in H. discriminate H.
Qed.

(** ** The two defects of the formatted append *)

(** C1: the measure phase forces the capacity to the measured length
    plus one only, without the current length.  After "aaaaa" (length 5,
    capacity 17) a format that expands to 19 characters leaves the
    capacity at 20, below 5 + 19 + 1, and the commit drops the last five
    characters of the expansion. *)
Theorem printf_measure_ignores_length :
  let m0 := boot INITIAL_ALLOC always_available in
  let f := Expands (text_of "aaaa insert me bbbb") in
  length_of (five_a m0) = Some 5 /\
  capacity_of (five_a m0) = Some 17 /\
  vsnprintf_result f = 19 /\
  capacity_of ((let* d := five_a in esb_allocate_more_if_needed d f) m0)
  = Some 20 /\
  length_of ((let* d := five_a in esb_append_printf_ap d f) m0) = Some 19 /\
  content_of ((let* d := five_a in esb_append_printf_ap d f) m0)
  = Some (text_of "aaaaaaaaa insert me").
Proof. vm_compute. repeat split. Qed.

(** C2: the terminator rule does not survive every call.  A formatted
    append whose expansion is exactly as long as the room left (12
    characters after "aaaaa" in 17 bytes) ends with the length equal to
    the capacity; and forcing an allocation on a constructed buffer
    leaves an indeterminate byte at offset 0. *)
Theorem terminator_rule_broken :
  let m0 := boot INITIAL_ALLOC always_available in
  let f := Expands (text_of "insert me!!!") in
  terminated_after (five_a m0) = Some true /\
  length_of ((let* d := five_a in esb_append_printf_ap d f) m0) = Some 17 /\
  capacity_of ((let* d := five_a in esb_append_printf_ap d f) m0) = Some 17 /\
  terminated_after ((let* d := five_a in esb_append_printf_ap d f) m0)
  = Some false /\
  capacity_of ((let* d := constructed in esb_force_allocation d 7) m0)
  = Some 16 /\
  length_of ((let* d := constructed in esb_force_allocation d 7) m0)
  = Some 0 /\
  terminated_after ((let* d := constructed in esb_force_allocation d 7) m0)
  = Some false.
Proof. vm_compute. repeat split. Qed.

(** ** C strings *)

Lemma eqb_NUL_false c : c <> NUL -> Ascii.eqb c NUL = false.
Proof. intros H. apply Ascii.eqb_neq. exact H. Qed.

Lemma chars_no_NUL s : Forall (fun c => c <> NUL) (chars s).
Proof.
  induction s as [|c s IH]; simpl; [constructor|].
  destruct (Ascii.eqb c NUL) eqn:E; [constructor|].
  constructor; [|exact IH]. apply Ascii.eqb_neq. exact E.
Qed.

Lemma chars_id s : Forall (fun c => c <> NUL) s -> chars s = s.
Proof.
  induction 1 as [|c s Hc _ IH]; simpl; [reflexivity|].
  rewrite eqb_NUL_false by exact Hc. rewrite IH. reflexivity.
Qed.

(** A string with a terminator splits into its characters, the NUL and
    what follows in the array. *)
Lemma strlen_split s t :
  strlen s = Some t ->
  exists rest, s = chars s ++ NUL :: rest /\ Z.of_nat (length (chars s)) = t.
Proof.
  revert t. induction s as [|c s IH]; simpl; intros t H; [discriminate|].
  destruct (Ascii.eqb c NUL) eqn:E.
  - apply Ascii.eqb_eq in E. subst c. injection H as <-.
    exists s. split; reflexivity.
  - destruct (strlen s) as [n|]; [|discriminate]. injection H as <-.
    destruct (IH n eq_refl) as (rest & Hs & Hn).
    exists rest. split.
    + simpl. f_equal. exact Hs.
    + simpl length. lia.
Qed.

Lemma strlen_app_NUL pre rest :
  Forall (fun c => c <> NUL) pre ->
  strlen (pre ++ NUL :: rest) = Some (Z.of_nat (length pre)).
Proof.
  induction 1 as [|c s Hc _ IH]; [reflexivity|].
  cbn [app strlen]. rewrite eqb_NUL_false by exact Hc. rewrite IH.
  f_equal. simpl length. lia.
Qed.

Lemma strlen_nonneg s t : strlen s = Some t -> 0 <= t.
Proof. intros H. destruct (strlen_split s t H) as (_ & _ & <-). lia. Qed.

(** Within the characters of the string, [strncpy] stores a prefix and
    reads nothing behind it. *)
Lemma strncpy_image_prefix pre tl n :
  Forall (fun c => c <> NUL) pre -> (n <= length pre)%nat ->
  strncpy_image (pre ++ tl) n = Some (take n pre).
Proof.
  intros Hpre. revert n.
  induction Hpre as [|c s Hc _ IH]; intros n Hn.
  - simpl in Hn. replace n with O by lia. reflexivity.
  - destruct n as [|n]; [reflexivity|].
    cbn [app strncpy_image]. rewrite eqb_NUL_false by exact Hc.
    rewrite IH by (simpl in Hn; lia). reflexivity.
Qed.

Lemma strncpy_image_truthful s t len :
  strlen s = Some t -> 0 <= len <= t ->
  strncpy_image s (Z.to_nat len) = Some (take (Z.to_nat len) s) /\
  Forall (fun c => c <> NUL) (take (Z.to_nat len) s) /\
  Z.of_nat (length (take (Z.to_nat len) s)) = len.
Proof.
  intros H Hlen.
  destruct (strlen_split s t H) as (rest & Hs & Hn).
  pose proof (chars_no_NUL s) as Hc.
  assert (Ht : take (Z.to_nat len) s = take (Z.to_nat len) (chars s)).
  { rewrite Hs at 1. rewrite take_app_le by lia. reflexivity. }
  rewrite Ht. split; [|split].
  - rewrite Hs at 1. apply strncpy_image_prefix; [exact Hc | lia].
  - apply Forall_take. exact Hc.
  - rewrite length_take. lia.
Qed.

Lemma strncpy_image_length s n img :
  strncpy_image s n = Some img -> length img = n.
Proof.
  revert s img. induction n as [|n IH]; intros s img H.
  - injection H as <-. reflexivity.
  - destruct s as [|c s]; [discriminate|]. cbn [strncpy_image] in H.
    destruct (Ascii.eqb c NUL).
    + injection H as <-. simpl. f_equal. apply repeat_length.
    + destruct (strncpy_image s n) as [r|] eqn:E; [|discriminate].
      injection H as <-. simpl. f_equal. apply (IH s). exact E.
Qed.

Lemma cstring_of_content text rest :
  cstring_of (map Byte text ++ Byte NUL :: rest) = Some (chars text).
Proof.
  induction text as [|c text IH]; [reflexivity|].
  cbn [map app cstring_of chars].
  destruct (Ascii.eqb c NUL); [reflexivity|].
  rewrite IH. reflexivity.
Qed.

(** ** Stores *)

Lemma set_heap_same m : set_heap (heap m) m = m.
Proof. destruct m. reflexivity. Qed.

Lemma store_eq b i v l m :
  heap m !! b = Some l -> 0 <= i < Z.of_nat (length l) ->
  store (Some b) i v m
  = Ret tt (set_heap (<[b := <[Z.to_nat i := v]> l]> (heap m)) m).
Proof.
  intros Hb Hi. unfold store. rewrite Hb.
  destruct (Z.leb_spec 0 i); [|lia].
  destruct (Z.ltb_spec i (Z.of_nat (length l))); [|lia].
  reflexivity.
Qed.

Lemma store_bytes_eq b off vs l m :
  heap m !! b = Some l ->
  0 <= off -> off + Z.of_nat (length vs) <= Z.of_nat (length l) ->
  store_bytes (Some b) off vs m
  = Ret tt (set_heap
              (<[b := take (Z.to_nat off) l ++ vs
                      ++ drop (Z.to_nat off + length vs)%nat l]> (heap m)) m).
Proof.
  intros Hb Hoff Hfit. destruct vs as [|v vs].
  - simpl. rewrite Nat.add_0_r, take_drop.
    rewrite insert_id by exact Hb. rewrite set_heap_same. reflexivity.
  - unfold store_bytes. rewrite Hb.
    destruct (Z.leb_spec 0 off); [|lia].
    destruct (Z.leb_spec (off + Z.of_nat (length (v :: vs))) (Z.of_nat (length l)));
      [|lia].
    reflexivity.
Qed.

(** The bytes of the block after a piece and its terminator have been
    written behind the content. *)
Lemma write_piece text rest (piece : list ascii) :
  (length piece <= length rest)%nat ->
  <[(length text + length piece)%nat := Byte NUL]>
    (take (length text) (map Byte text ++ Byte NUL :: rest)
     ++ map Byte piece
     ++ drop (length text + length (map Byte piece))
             (map Byte text ++ Byte NUL :: rest))
  = map Byte (text ++ piece) ++ Byte NUL :: drop (length piece) rest.
Proof.
  intros Hfit.
  rewrite take_app_length' by (rewrite length_map; reflexivity).
  rewrite drop_app_add' by (rewrite length_map; reflexivity).
  rewrite length_map, map_app, <- app_assoc.
  rewrite <- (length_map Byte text) at 1.
  rewrite insert_app_r.
  rewrite <- (length_map Byte piece) at 1.
  rewrite <- (Nat.add_0_r (length (map Byte piece))) at 1.
  rewrite insert_app_r.
  do 2 f_equal.
  destruct piece as [|c piece]; [reflexivity|].
  simpl length in *. simpl drop at 1.
  destruct (drop (length piece) rest) as [|x tl] eqn:E.
  - apply (f_equal length) in E. rewrite length_drop in E. simpl in E. lia.
  - simpl. f_equal.
    change (S (length piece)) with (1 + length piece)%nat.
    rewrite Nat.add_comm, <- drop_drop, E. reflexivity.
Qed.

(** ** Valid buffers *)

Lemma same_process_refl m : same_process m m.
Proof. repeat split. Qed.

Lemma same_process_trans m1 m2 m3 :
  same_process m1 m2 -> same_process m2 m3 -> same_process m1 m3.
Proof.
  unfold same_process. intros (A1 & A2 & A3) (B1 & B2 & B3).
  repeat split; congruence.
Qed.

Lemma holds_allocated text data m :
  holds text data m -> 0 < esb_allocated_size data ->
  exists b rest,
    esb_string data = Some b /\
    heap m !! b = Some (map Byte text ++ Byte NUL :: rest) /\
    esb_allocated_size data = Z.of_nat (length text) + 1 + Z.of_nat (length rest) /\
    esb_used_bytes data = Z.of_nat (length text) /\
    esb_allocated_size data < SIZE_MODULUS.
Proof.
  intros (Hu & Hr & Hs) Hpos.
  destruct (esb_string data) as [b|].
  - destruct Hs as (rest & Hb & Ha). exists b, rest. repeat split; auto. lia.
  - lia.
Qed.

Lemma holds_unallocated text data m :
  holds text data m -> esb_allocated_size data = 0 ->
  esb_string data = None /\ text = [] /\ esb_used_bytes data = 0.
Proof.
  intros (Hu & Hr & Hs) H0.
  destruct (esb_string data) as [b|].
  - destruct Hs as (rest & _ & Ha). lia.
  - destruct Hs as (_ & ->). auto.
Qed.

Lemma holds_sizes text data m :
  holds text data m ->
  is_size_t (esb_allocated_size data) /\
  0 <= esb_used_bytes data <= esb_allocated_size data.
Proof.
  intros H. pose proof H as (Hu & Hr & Hs). split; [exact Hr|].
  destruct (esb_string data) as [b|].
  - destruct Hs as (rest & _ & Ha). lia.
  - destruct Hs as (_ & ->). simpl in Hu. lia.
Qed.

(** A valid buffer reads back as the characters of its content. *)
Lemma holds_as_string text data m :
  holds text data m -> 0 < esb_allocated_size data ->
  as_string data m = Some (chars text).
Proof.
  intros H Hpos.
  destruct (holds_allocated _ _ _ H Hpos) as (b & rest & Hs & Hb & _).
  unfold as_string, load_cstring. rewrite Hs, Hb. simpl.
  apply cstring_of_content.
Qed.

Lemma holds_terminated text data m :
  holds text data m -> terminated data m = true.
Proof.
  intros H. unfold terminated.
  destruct (Z.ltb_spec 0 (esb_allocated_size data)) as [Hpos|]; [|reflexivity].
  destruct (holds_allocated _ _ _ H Hpos) as (b & rest & Hs & Hb & Ha & Hu & _).
  unfold storage. rewrite Hs, Hb.
  apply andb_true_intro. split.
  - apply Z.ltb_lt. lia.
  - apply bool_decide_eq_true. rewrite Hu, Nat2Z.id.
    rewrite lookup_app_r by (rewrite length_map; lia).
    rewrite length_map, Nat.sub_diag. reflexivity.
Qed.

Lemma init_esb_string_holds text data min_len m :
  holds text data m -> esb_allocated_size data = 0 ->
  is_size_t min_len -> is_size_t (alloc_size m) ->
  Z.max min_len (alloc_size m) + 1 < SIZE_MODULUS ->
  mem_avail m (Z.max min_len (alloc_size m) + 1) = true ->
  exists d1 m1,
    init_esb_string data min_len m = Ret d1 m1 /\
    holds text d1 m1 /\
    esb_allocated_size d1 = Z.max min_len (alloc_size m) + 1 /\
    same_process m m1.
Proof.
  intros H H0 Hl Hq Hb Hav.
  destruct (holds_unallocated _ _ _ H H0) as (_ & -> & _).
  do 2 eexists. split; [apply init_esb_string_eq; assumption|].
  split; [|split; [reflexivity | repeat split]].
  unfold holds. simpl. split; [reflexivity|].
  split; [unfold is_size_t in *; lia|].
  eexists. rewrite lookup_insert_eq. split; [reflexivity|].
  rewrite length_replicate. unfold is_size_t in *. lia.
Qed.

(** The lazy initialisation that opens [esb_appendn_internal],
    [esb_get_string] and [esb_empty_string]; [g] is the minimum length
    computed from the quantum. *)
Lemma ensure_initialised text data m (g : Z -> Z) :
  holds text data m ->
  is_size_t (g (alloc_size m)) -> is_size_t (alloc_size m) ->
  (esb_allocated_size data = 0 ->
   Z.max (g (alloc_size m)) (alloc_size m) + 1 < SIZE_MODULUS /\
   mem_avail m (Z.max (g (alloc_size m)) (alloc_size m) + 1) = true) ->
  exists d1 m1,
    (if esb_allocated_size data =? 0 then
       let* quantum := get_alloc_size in init_esb_string data (g quantum)
     else ret data) m = Ret d1 m1 /\
    holds text d1 m1 /\
    0 < esb_allocated_size d1 /\
    same_process m m1 /\
    (esb_allocated_size data = 0 ->
     esb_allocated_size d1 = Z.max (g (alloc_size m)) (alloc_size m) + 1) /\
    (0 < esb_allocated_size data -> d1 = data /\ m1 = m).
Proof.
  intros H Hg Hq Hmem.
  destruct (Z.eqb_spec (esb_allocated_size data) 0) as [H0|Hne].
  - destruct (Hmem H0) as (Hb & Hav).
    destruct (init_esb_string_holds text data (g (alloc_size m)) m)
      as (d1 & m1 & Hrun & Hh & Hcap & Hsame); try assumption.
    exists d1, m1. split; [exact Hrun|].
    split; [exact Hh|]. split; [unfold is_size_t in *; lia|].
    split; [exact Hsame|]. split; [intros _; exact Hcap | lia].
  - exists data, m. split; [reflexivity|].
    pose proof (holds_sizes _ _ _ H) as ((? & ?) & _).
    split; [exact H|]. split; [lia|].
    split; [apply same_process_refl|]. split; [lia | auto].
Qed.

(** Growing a valid buffer keeps its content. *)
Lemma esb_allocate_more_holds text data len m :
  holds text data m -> 0 < esb_allocated_size data ->
  0 <= len -> is_size_t (alloc_size m) ->
  esb_allocated_size data + len < SIZE_MODULUS ->
  mem_avail m (Z.max (esb_allocated_size data + len) (alloc_size m)) = true ->
  exists d2 m2,
    esb_allocate_more data len m = Ret d2 m2 /\
    holds text d2 m2 /\
    esb_allocated_size d2 = Z.max (esb_allocated_size data + len) (alloc_size m) /\
    same_process m m2.
Proof.
  intros H Hpos Hlen Hq Hb Hav.
  destruct (holds_allocated _ _ _ H Hpos) as (b & rest & Hs & Hblk & Ha & Hu & _).
  assert (Hn : new_size_of data len m
               = Z.max (esb_allocated_size data + len) (alloc_size m)).
  { apply new_size_of_max. unfold is_size_t. lia. }
  do 2 eexists. split.
  { apply (esb_allocate_more_live _ _ _ b _ Hs Hblk). rewrite Hn. exact Hav. }
  rewrite Hn. split; [|split; [reflexivity | repeat split]].
  unfold holds. simpl. split; [exact Hu|].
  split; [unfold is_size_t in *; lia|].
  rewrite resized_extends
    by (rewrite length_app, length_map; simpl length; lia).
  exists (rest ++ replicate
                    (Z.to_nat (Z.max (esb_allocated_size data + len) (alloc_size m))
                     - length (map Byte text ++ Byte NUL :: rest))%nat Undef).
  rewrite lookup_insert_eq. split.
  - rewrite <- app_assoc. reflexivity.
  - rewrite length_app, length_replicate, length_app, length_map.
    simpl length. lia.
Qed.

(** ** The raw append *)

(** The second step of [esb_appendn_internal]: after it there is room
    for [len] bytes and the terminator. *)
Lemma make_room text data len m :
  holds text data m -> 0 < esb_allocated_size data ->
  0 <= len -> is_size_t (alloc_size m) ->
  (esb_allocated_size data - esb_used_bytes data <= len ->
   esb_allocated_size data + len < SIZE_MODULUS /\
   mem_avail m (Z.max (esb_allocated_size data + len) (alloc_size m)) = true) ->
  exists d2 m2,
    (if to_size_t (esb_allocated_size data - esb_used_bytes data) <=? len
     then esb_allocate_more data len else ret data) m = Ret d2 m2 /\
    holds text d2 m2 /\
    esb_used_bytes d2 + len < esb_allocated_size d2 /\
    (esb_allocated_size data - esb_used_bytes data <= len ->
     esb_allocated_size d2
     = Z.max (esb_allocated_size data + len) (alloc_size m)) /\
    (len < esb_allocated_size data - esb_used_bytes data ->
     d2 = data /\ m2 = m) /\
    same_process m m2.
Proof.
  intros H Hpos Hlen Hq Hmem.
  destruct (holds_allocated _ _ _ H Hpos) as (b & rest & Hs & Hblk & Ha & Hu & Hlt).
  rewrite to_size_t_small by (unfold is_size_t; lia).
  destruct (Z.leb_spec (esb_allocated_size data - esb_used_bytes data) len)
    as [Hfull|Hroom].
  - destruct (Hmem Hfull) as (Hb & Hav).
    destruct (esb_allocate_more_holds text data len m)
      as (d2 & m2 & Hrun & Hh & Hcap & Hsame); try assumption.
    exists d2, m2. split; [exact Hrun|]. split; [exact Hh|].
    destruct Hh as (Hu2 & _). split; [lia|].
    split; [intros _; exact Hcap|]. split; [lia | exact Hsame].
  - exists data, m. split; [reflexivity|]. split; [exact H|].
    split; [lia|]. split; [lia|]. split; [auto | apply same_process_refl].
Qed.

(** The last step: the copy, the new length and the terminator. *)
Lemma copy_and_terminate text data s len piece m :
  holds text data m ->
  strncpy_image s (Z.to_nat len) = Some piece -> 0 <= len ->
  esb_used_bytes data + len < esb_allocated_size data ->
  exists d3 m3,
    (let* _ := strncpy (esb_string data) (esb_used_bytes data) s len in
     let data := Esb (esb_string data) (esb_allocated_size data)
                     (to_size_t (esb_used_bytes data + len)) in
     let* _ := store (esb_string data) (esb_used_bytes data) (Byte NUL) in
     ret data) m = Ret d3 m3 /\
    holds (text ++ piece) d3 m3 /\
    esb_allocated_size d3 = esb_allocated_size data /\
    same_process m m3.
Proof.
  intros H Himg Hlen Hroom.
  pose proof (strncpy_image_length _ _ _ Himg) as Hpl.
  pose proof (holds_sizes _ _ _ H) as (Hr & Hu0).
  assert (Hpos : 0 < esb_allocated_size data) by lia.
  destruct (holds_allocated _ _ _ H Hpos) as (b & rest & Hs & Hblk & Ha & Hu & _).
  assert (Hfit : (length piece <= length rest)%nat) by lia.
  unfold bind, strncpy. rewrite Himg, Hs.
  rewrite (store_bytes_eq b _ _ _ m Hblk)
    by (rewrite ?length_app, ?length_map; simpl length; lia).
  cbn [esb_string esb_used_bytes].
  rewrite to_size_t_small by (unfold is_size_t in *; lia).
  erewrite store_eq;
    [|cbn [heap set_heap]; apply lookup_insert_eq
     |rewrite !length_app, length_take, length_drop, !length_app, !length_map;
      simpl length; lia].
  do 2 eexists. split; [reflexivity|].
  split; [|split; [reflexivity | repeat split]].
  unfold holds. cbn [esb_string esb_used_bytes esb_allocated_size heap set_heap].
  split; [rewrite length_app; lia|].
  split; [exact Hr|].
  exists (drop (length piece) rest).
  rewrite insert_insert_eq, lookup_insert_eq. split.
  - f_equal. rewrite Hu, Nat2Z.id.
    replace (Z.to_nat (Z.of_nat (length text) + len))
      with (length text + length piece)%nat by lia.
    apply write_piece. exact Hfit.
  - rewrite length_app, length_drop. lia.
Qed.

(** [esb_appendn_internal] on a valid buffer: the piece [strncpy] reads
    is appended, the buffer stays valid, and the capacity grows by no
    more than the piece, the first allocation apart. *)
Lemma esb_appendn_internal_holds text data s len piece m :
  holds text data m ->
  strncpy_image s (Z.to_nat len) = Some piece -> 0 <= len ->
  is_size_t (alloc_size m) ->
  Z.max (esb_allocated_size data) (alloc_size m + 1) + len < SIZE_MODULUS ->
  enough_memory m (Z.max (esb_allocated_size data) (alloc_size m + 1) + len) ->
  exists d' m',
    esb_appendn_internal data s len m = Ret d' m' /\
    holds (text ++ piece) d' m' /\
    same_process m m' /\
    esb_allocated_size data <= esb_allocated_size d'
      <= Z.max (esb_allocated_size data) (alloc_size m + 1) + len.
Proof.
  intros H Himg Hlen Hq Hb Hmem.
  pose proof (holds_sizes _ _ _ H) as (Hr & _).
  unfold is_size_t in Hq, Hr.
  destruct (ensure_initialised text data m
              (fun quantum => if len >=? quantum then len else quantum))
    as (d1 & m1 & Hrun1 & Hh1 & Hpos1 & Hsame1 & Hfresh & Hold).
  { exact H. }
  { cbv beta. destruct (len >=? alloc_size m); unfold is_size_t; lia. }
  { exact Hq. }
  { intros _. cbv beta.
    destruct (Z.geb_spec len (alloc_size m)); (split; [lia | apply Hmem; lia]). }
  assert (Hcap1 : esb_allocated_size data <= esb_allocated_size d1
                  <= Z.max (esb_allocated_size data) (alloc_size m + 1) + len).
  { destruct (Z.eq_dec (esb_allocated_size data) 0) as [H0|Hne].
    - rewrite (Hfresh H0). cbv beta.
      destruct (Z.geb_spec len (alloc_size m)); lia.
    - destruct Hold as (-> & _); lia. }
  assert (Hgrow : esb_allocated_size data = 0 \/
                  (0 < esb_allocated_size data /\ d1 = data)).
  { destruct (Z.eq_dec (esb_allocated_size data) 0) as [H0|Hne]; [auto|].
    right. split; [lia|]. apply Hold. lia. }
  destruct Hsame1 as (Hq1 & Hav1 & Herr1).
  assert (Hu1 : esb_allocated_size data = 0 -> esb_used_bytes d1 = 0).
  { intros H0. destruct (holds_unallocated _ _ _ H H0) as (_ & -> & _).
    destruct Hh1 as (Hu1 & _). exact Hu1. }
  destruct (make_room text d1 len m1)
    as (d2 & m2 & Hrun2 & Hh2 & Hroom & Hfull2 & Hkeep2 & Hsame2);
    try assumption.
  { rewrite Hq1. unfold is_size_t. lia. }
  { intros Hfull. rewrite Hq1, Hav1.
    destruct Hgrow as [H0|(Hp & ->)].
    - rewrite (Hfresh H0), (Hu1 H0) in Hfull. cbv beta in Hfull.
      destruct (Z.geb_spec len (alloc_size m)); lia.
    - split; [lia | apply Hmem; lia]. }
  destruct (copy_and_terminate text d2 s len piece m2)
    as (d3 & m3 & Hrun3 & Hh3 & Hcap3 & Hsame3); try assumption.
  exists d3, m3. split.
  - unfold esb_appendn_internal.
    cbv zeta. unfold bind at 1. rewrite Hrun1.
    unfold bind at 1. rewrite Hrun2. exact Hrun3.
  - split; [exact Hh3|]. split.
    + apply (same_process_trans m m1 m3); [repeat split; assumption|].
      apply (same_process_trans m1 m2 m3); assumption.
    + rewrite Hcap3. rewrite Hq1 in Hfull2.
      destruct (Z_le_gt_dec (esb_allocated_size d1 - esb_used_bytes d1) len)
        as [Hfull|Hroom1].
      * rewrite (Hfull2 Hfull).
        destruct Hgrow as [H0|(Hp & ->)].
        -- rewrite (Hfresh H0), (Hu1 H0) in Hfull. cbv beta in Hfull.
           destruct (Z.geb_spec len (alloc_size m)); lia.
        -- lia.
      * destruct Hkeep2 as (-> & _); [lia|]. exact Hcap1.
Qed.

Lemma enough_memory_le m bound bound' :
  enough_memory m bound -> bound' <= bound -> enough_memory m bound'.
Proof. unfold enough_memory. intros H Hle n Hn. apply H. lia. Qed.

Lemma enough_memory_same m m' bound :
  same_process m m' -> enough_memory m bound -> enough_memory m' bound.
Proof.
  unfold enough_memory. intros (_ & Hav & _) H n Hn. rewrite Hav. auto.
Qed.

(** [esb_appendn_internal] looks at its input through [strncpy] only. *)
Lemma esb_appendn_internal_ext data s s' len m :
  strncpy_image s (Z.to_nat len) = strncpy_image s' (Z.to_nat len) ->
  esb_appendn_internal data s len m = esb_appendn_internal data s' len m.
Proof.
  intros Himg. unfold esb_appendn_internal. cbv zeta.
  apply bind_ext. intros d1 m1. apply bind_ext. intros d2 m2.
  unfold strncpy. rewrite Himg. reflexivity.
Qed.

(** ** The checked append *)

Lemma esb_appendn_truthful data s t len m :
  strlen s = Some t -> len <= t ->
  esb_appendn data (Some s) len m = esb_appendn_internal data s len m.
Proof.
  intros Hs Hle. unfold esb_appendn. rewrite Hs.
  destruct (Z.ltb_spec t len); [lia|]. reflexivity.
Qed.

Lemma esb_appendn_short data s t len m :
  strlen s = Some t -> t < len ->
  esb_appendn data (Some s) len m
  = esb_appendn_internal data s t
      (Machine (alloc_size m) (heap m) (next_block m) (mem_avail m)
               (stderr m ++ [BadStringLength t len])).
Proof.
  intros Hs Hlt. unfold esb_appendn. rewrite Hs.
  destruct (Z.ltb_spec t len); [|lia]. reflexivity.
Qed.

(** C5: when the string is shorter than the claimed length,
    [esb_appendn] prints the diagnostic and appends exactly the [t]
    characters of the string, whatever lies behind its terminator in the
    array, and the buffer stays valid; otherwise it is
    [esb_appendn_internal] with the claimed length. *)
Theorem esb_appendn_clamps text data s t claimed m :
  holds text data m ->
  strlen s = Some t -> is_size_t claimed -> is_size_t (alloc_size m) ->
  Z.max (esb_allocated_size data) (alloc_size m + 1) + Z.min t claimed
    < SIZE_MODULUS ->
  enough_memory m
    (Z.max (esb_allocated_size data) (alloc_size m + 1) + Z.min t claimed) ->
  (t < claimed ->
   exists d' m',
     esb_appendn data (Some s) claimed m = Ret d' m' /\
     holds (text ++ take (Z.to_nat t) s) d' m' /\
     esb_string_len d' = esb_string_len data + t /\
     stderr m' = stderr m ++ [BadStringLength t claimed] /\
     forall behind,
       esb_appendn data (Some (take (Z.to_nat t) s ++ NUL :: behind)) claimed m
       = Ret d' m') /\
  (claimed <= t ->
   esb_appendn data (Some s) claimed m
   = esb_appendn_internal data s claimed m).
Proof.
  intros H Hs Hc Hq Hb Hmem. split.
  - intros Hlt. rewrite Z.min_l in Hb, Hmem by lia.
    pose proof (strlen_nonneg _ _ Hs) as Ht.
    destruct (strncpy_image_truthful s t t Hs ltac:(lia)) as (Himg & Hnn & Hlen).
    set (m1 := Machine (alloc_size m) (heap m) (next_block m) (mem_avail m)
                       (stderr m ++ [BadStringLength t claimed])).
    destruct (esb_appendn_internal_holds text data s t (take (Z.to_nat t) s) m1)
      as (d' & m' & Hrun & Hh & (_ & _ & Herr) & _);
      try assumption.
    exists d', m'.
    split; [rewrite (esb_appendn_short _ _ t) by assumption; exact Hrun|].
    split; [exact Hh|]. split.
    { destruct Hh as (Hu & _). destruct H as (Hu0 & _).
      unfold esb_string_len. rewrite Hu, Hu0, length_app. lia. }
    split; [exact Herr|].
    intros behind.
    assert (Hs' : strlen (take (Z.to_nat t) s ++ NUL :: behind) = Some t).
    { rewrite strlen_app_NUL by exact Hnn. f_equal. exact Hlen. }
    rewrite (esb_appendn_short _ _ t) by assumption.
    fold m1. rewrite <- Hrun. apply esb_appendn_internal_ext.
    rewrite Himg.
    rewrite (strncpy_image_prefix _ _ _ Hnn) by lia.
    rewrite take_ge by lia. reflexivity.
  - intros Hle. apply (esb_appendn_truthful _ _ t); assumption.
Qed.

Lemma esb_appendn_clamps_witness :
  (2 < 6 ->
   exists d' m',
     esb_appendn (Esb None 0 0) oddarray 6
       (boot INITIAL_ALLOC_SELFTEST always_available) = Ret d' m' /\
     holds ([] ++ text_of "ab") d' m' /\
     esb_string_len d' = 0 + 2 /\
     stderr m' = [] ++ [BadStringLength 2 6] /\
     forall behind,
       esb_appendn (Esb None 0 0) (Some (text_of "ab" ++ NUL :: behind)) 6
         (boot INITIAL_ALLOC_SELFTEST always_available)
       = Ret d' m') /\
  (6 <= 2 ->
   esb_appendn (Esb None 0 0) oddarray 6
     (boot INITIAL_ALLOC_SELFTEST always_available)
   = esb_appendn_internal (Esb None 0 0)
       (text_of "ab" ++ [NUL] ++ text_of "ccd" ++ [NUL]) 6
       (boot INITIAL_ALLOC_SELFTEST always_available)).
Proof.
  apply (esb_appendn_clamps [] (Esb None 0 0)
           (text_of "ab" ++ [NUL] ++ text_of "ccd" ++ [NUL]) 2 6
           (boot INITIAL_ALLOC_SELFTEST always_available)).
  - unfold holds. simpl. rewrite size_modulus_value. repeat split; lia.
  - reflexivity.
  - unfold is_size_t. rewrite size_modulus_value. lia.
  - unfold is_size_t, boot, INITIAL_ALLOC_SELFTEST, alloc_size.
    rewrite size_modulus_value. lia.
  - unfold boot, INITIAL_ALLOC_SELFTEST, alloc_size, esb_allocated_size.
    rewrite size_modulus_value. lia.
  - intros n _. reflexivity.
Defined.

(** ** Sequences of appends *)

Lemma Zsum_cons x l : Zsum (x :: l) = x + Zsum l.
Proof. reflexivity. Qed.

(** One truthful append on a valid buffer. *)
Lemma perform_append c text data m :
  truthful c -> holds text data m -> is_size_t (alloc_size m) ->
  Z.max (esb_allocated_size data) (alloc_size m + 1) + appended_length c
    < SIZE_MODULUS ->
  enough_memory m
    (Z.max (esb_allocated_size data) (alloc_size m + 1) + appended_length c) ->
  exists d1 m1,
    perform c data m = Ret d1 m1 /\
    holds (text ++ appended c) d1 m1 /\
    same_process m m1 /\
    esb_allocated_size d1
      <= Z.max (esb_allocated_size data) (alloc_size m + 1) + appended_length c /\
    Forall (fun a => a <> NUL) (appended c) /\
    Z.of_nat (length (appended c)) = appended_length c.
Proof.
  intros Hc H Hq Hb Hmem.
  destruct c as [| [s|] len | [s|] | | | | | | | |]; simpl in Hc; try contradiction.
  - (* esb_appendn *)
    destruct (strlen s) as [t|] eqn:Hs; [|contradiction].
    destruct (strncpy_image_truthful s t len Hs Hc) as (Himg & Hnn & Hlen).
    simpl in Hb, Hmem.
    destruct (esb_appendn_internal_holds text data s len _ m H Himg)
      as (d1 & m1 & Hrun & Hh & Hsame & Hcap); try assumption; try lia.
    exists d1, m1. cbn [perform appended appended_length].
    rewrite (esb_appendn_truthful _ _ t) by (assumption || lia).
    split; [exact Hrun|]. split; [exact Hh|]. split; [exact Hsame|].
    split; [lia|]. split; assumption.
  - (* esb_append *)
    destruct (strlen s) as [t|] eqn:Hs; [|contradiction].
    pose proof (strlen_nonneg _ _ Hs) as Ht.
    destruct (strlen_split s t Hs) as (rest & Hsplit & Hn).
    pose proof (chars_no_NUL s) as Hnn.
    cbn [appended_length] in Hb, Hmem. rewrite Hs in Hb, Hmem.
    cbn [perform appended appended_length]. unfold esb_append.
    rewrite Hs. change (default 0 (Some t)) with t in *.
    destruct (Z.eqb_spec t 0) as [H0|Hne].
    + assert (Hnil : chars s = []).
      { destruct (chars s); [reflexivity | simpl in Hn; lia]. }
      rewrite Hnil, app_nil_r.
      exists data, m. split; [reflexivity|]. split; [exact H|].
      split; [apply same_process_refl|]. split; [lia|].
      split; [constructor | simpl; lia].
    + assert (Himg : strncpy_image s (Z.to_nat t) = Some (chars s)).
      { rewrite Hsplit at 1.
        rewrite (strncpy_image_prefix _ _ _ Hnn) by lia.
        rewrite take_ge by lia. reflexivity. }
      destruct (esb_appendn_internal_holds text data s t _ m H Himg)
        as (d1 & m1 & Hrun & Hh & Hsame & Hcap); try assumption.
      exists d1, m1.
      split; [exact Hrun|]. split; [exact Hh|]. split; [exact Hsame|].
      split; [lia|]. split; assumption.
Qed.

Lemma perform_all_appends cs :
  forall text data m,
    Forall truthful cs -> holds text data m -> is_size_t (alloc_size m) ->
    Z.max (esb_allocated_size data) (alloc_size m + 1)
      + Zsum (map appended_length cs) < SIZE_MODULUS ->
    enough_memory m
      (Z.max (esb_allocated_size data) (alloc_size m + 1)
       + Zsum (map appended_length cs)) ->
    exists d' m',
      perform_all cs data m = Ret d' m' /\
      holds (text ++ concat (map appended cs)) d' m' /\
      same_process m m' /\
      Forall (fun a => a <> NUL) (concat (map appended cs)) /\
      Z.of_nat (length (concat (map appended cs))) = Zsum (map appended_length cs) /\
      esb_allocated_size d'
        <= Z.max (esb_allocated_size data) (alloc_size m + 1)
           + Zsum (map appended_length cs).
Proof.
  induction cs as [|c cs IH]; intros text data m Hcs H Hq Hb Hmem.
  - exists data, m. simpl. rewrite app_nil_r.
    split; [reflexivity|]. split; [exact H|].
    split; [apply same_process_refl|]. split; [constructor|].
    split; [reflexivity|]. unfold Zsum. simpl. lia.
  - inversion Hcs as [|? ? Hc Hcs']; subst.
    cbn [map] in Hb, Hmem. rewrite Zsum_cons in Hb, Hmem.
    assert (Hrest : 0 <= Zsum (map appended_length cs)).
    { clear -Hcs'. induction Hcs' as [|c' cs' Hc' _ IH']; [unfold Zsum; simpl; lia|].
      cbn [map]. rewrite Zsum_cons.
      assert (0 <= appended_length c'); [|lia].
      destruct c' as [| [s|] len | [s|] | | | | | | | |];
        simpl in Hc'; try contradiction; simpl.
      - destruct (strlen s); [lia | contradiction].
      - destruct (strlen s) as [t|] eqn:E; [|contradiction].
        simpl. apply (strlen_nonneg _ _ E). }
    destruct (perform_append c text data m)
      as (d1 & m1 & Hrun1 & Hh1 & Hsame1 & Hcap1 & Hnn1 & Hlen1);
      try assumption.
    { lia. }
    { apply (enough_memory_le _ _ _ Hmem). lia. }
    pose proof Hsame1 as (Hq1 & _ & _).
    pose proof (holds_sizes _ _ _ H) as ((Ha0 & _) & _).
    destruct (IH (text ++ appended c) d1 m1)
      as (d' & m' & Hrun & Hh & Hsame & Hnn & Hlen & Hcap); try assumption.
    { rewrite Hq1. exact Hq. }
    { rewrite Hq1. lia. }
    { apply (enough_memory_same m m1); [exact Hsame1|].
      apply (enough_memory_le _ _ _ Hmem). rewrite Hq1. lia. }
    exists d', m'. split.
    { cbn [perform_all]. unfold bind. rewrite Hrun1. exact Hrun. }
    cbn [map concat]. rewrite Zsum_cons.
    split; [rewrite app_assoc; exact Hh|].
    split; [apply (same_process_trans m m1 m'); assumption|].
    split; [apply Forall_app; split; assumption|].
    split; [rewrite length_app; lia|].
    rewrite Hq1 in Hcap. lia.
Qed.

(** C4: on a freshly constructed buffer, after any sequence of
    [esb_appendn] calls with a truthful length and [esb_append] calls,
    the length is the sum of the appended lengths and the string read
    back is the concatenation of the pieces in call order. *)
Theorem appends_concatenate garbage cs m :
  Forall truthful cs -> is_size_t (alloc_size m) ->
  alloc_size m + 1 + Zsum (map appended_length cs) < SIZE_MODULUS ->
  enough_memory m (alloc_size m + 1 + Zsum (map appended_length cs)) ->
  exists d' m',
    (let* d := esb_constructor garbage in perform_all cs d) m = Ret d' m' /\
    esb_string_len d' = Zsum (map appended_length cs) /\
    exists m'', read_back d' m' = Ret (Some (concat (map appended cs))) m''.
Proof.
  intros Hcs Hq Hb Hmem.
  assert (H0 : holds [] (Esb None 0 0) m).
  { unfold holds. simpl. rewrite size_modulus_value. repeat split; lia. }
  unfold is_size_t in Hq.
  destruct (perform_all_appends cs [] (Esb None 0 0) m)
    as (d' & m' & Hrun & Hh & Hsame & Hnn & Hlen & Hcap); try assumption.
  { simpl. lia. }
  { apply (enough_memory_le _ _ _ Hmem). simpl. lia. }
  simpl in Hh, Hcap.
  exists d', m'. split; [exact Hrun|].
  split.
  { destruct Hh as (Hu & _). unfold esb_string_len. rewrite Hu. exact Hlen. }
  pose proof Hsame as (Hq' & _ & _).
  assert (Hsum : 0 <= Zsum (map appended_length cs)) by lia.
  destruct (ensure_initialised _ d' m' (fun quantum => quantum) Hh)
    as (d1 & m1 & Hrun1 & Hh1 & Hpos1 & _).
  { rewrite Hq'. exact Hq. }
  { rewrite Hq'. exact Hq. }
  { intros _. rewrite Hq'. split; [lia|].
    apply (enough_memory_same m m' _ Hsame Hmem). lia. }
  exists m1. unfold read_back, esb_get_string.
  unfold bind at 1. unfold bind at 1. rewrite Hrun1.
  unfold ret. cbn [snd].
  f_equal. fold (as_string d1 m1).
  rewrite (holds_as_string _ _ _ Hh1 Hpos1).
  rewrite chars_id by exact Hnn. reflexivity.
Qed.

Lemma appends_concatenate_witness :
  exists d' m',
    (let* d := esb_constructor (Esb (Some 5%positive) 7 9) in
     perform_all [CallAppend (literal "a"); CallAppendn (literal "bcd") 2] d)
      (boot INITIAL_ALLOC always_available) = Ret d' m' /\
    esb_string_len d' = 1 + (2 + 0) /\
    exists m'', read_back d' m' = Ret (Some (text_of "abc")) m''.
Proof.
  apply (appends_concatenate (Esb (Some 5%positive) 7 9)
           [CallAppend (literal "a"); CallAppendn (literal "bcd") 2]
           (boot INITIAL_ALLOC always_available)).
  - repeat constructor; simpl; lia.
  - unfold is_size_t, boot, INITIAL_ALLOC, alloc_size.
    rewrite size_modulus_value. lia.
  - rewrite size_modulus_value. vm_compute. reflexivity.
  - intros n _. reflexivity.
Defined.

(** ** A failing format *)

Lemma esb_allocate_more_fails data len m :
  storage_live data m ->
  mem_avail m (new_size_of data len m) = false ->
  esb_allocate_more data len m
  = Exit 5 (Machine (alloc_size m) (heap m) (next_block m) (mem_avail m)
                    (stderr m ++ [OutOfMemoryReallocating (new_size_of data len m)])).
Proof.
  intros Hlive Hav.
  unfold esb_allocate_more, bind, get_alloc_size.
  fold (new_size_of data len m).
  unfold storage_live in Hlive.
  destruct (esb_string data) as [b|]; unfold realloc, malloc.
  - destruct Hlive as [old ->]. rewrite Hav. reflexivity.
  - rewrite Hav. reflexivity.
Qed.

(** Forcing the capacity of an allocated valid buffer either keeps the
    content or ends the process. *)
Lemma esb_force_allocation_holds text data minlen m d' m' :
  holds text data m -> 0 < esb_allocated_size data ->
  is_size_t minlen -> is_size_t (alloc_size m) ->
  esb_force_allocation data minlen m = Ret d' m' ->
  holds text d' m' /\ same_process m m' /\
  esb_allocated_size data <= esb_allocated_size d'.
Proof.
  intros H Hpos Hm Hq Hrun.
  pose proof (holds_sizes _ _ _ H) as (Ha & _).
  unfold esb_force_allocation in Hrun.
  destruct (Z.ltb_spec (esb_allocated_size data) minlen) as [Hlt|Hge].
  - pose proof (force_increment data minlen m Ha Hm Hq Hlt) as Hn.
    unfold is_size_t in *.
    rewrite (to_size_t_small (minlen - _)) in Hrun, Hn
      by (unfold is_size_t; lia).
    destruct (mem_avail m (new_size_of data (minlen - esb_allocated_size data) m))
      eqn:Hav.
    + destruct (esb_allocate_more_holds text data
                  (minlen - esb_allocated_size data) m)
        as (d2 & m2 & Hrun2 & Hh & Hcap & Hsame); try assumption; try lia.
      { rewrite new_size_of_max in Hav by (unfold is_size_t; lia). exact Hav. }
      rewrite Hrun2 in Hrun. injection Hrun as <- <-.
      split; [exact Hh|]. split; [exact Hsame | lia].
    + rewrite esb_allocate_more_fails in Hrun; [discriminate| |exact Hav].
      destruct (holds_allocated _ _ _ H Hpos) as (b & rest & Hs & Hb & _).
      unfold storage_live. rewrite Hs, Hb. eauto.
  - injection Hrun as <- <-.
    split; [exact H|]. split; [apply same_process_refl | lia].
Qed.

Lemma esb_force_allocation_used data minlen m d' m' :
  esb_force_allocation data minlen m = Ret d' m' ->
  esb_used_bytes d' = esb_used_bytes data /\ stderr m' = stderr m.
Proof.
  unfold esb_force_allocation, esb_allocate_more, bind, get_alloc_size.
  destruct (_ <? minlen); [|intros [= <- <-]; auto].
  destruct (esb_string data) as [b|]; unfold realloc, malloc.
  - destruct (heap m !! b); [|discriminate].
    destruct (mem_avail m _); [intros [= <- <-]; auto | discriminate].
  - destruct (mem_avail m _); [intros [= <- <-]; auto | discriminate].
Qed.

Lemma measure_failing_format data code stored m :
  INT_MIN <= code < 0 ->
  esb_allocate_more_if_needed data (FormatError code stored) m
  = esb_force_allocation data (to_size_t (code + 1)) m.
Proof.
  intros Hc. unfold esb_allocate_more_if_needed, int_add, in_int_range.
  cbn [vsnprintf_result].
  destruct (Z.leb_spec INT_MIN (code + 1)); [|lia].
  destruct (Z.leb_spec (code + 1) INT_MAX); [reflexivity|].
  unfold INT_MAX in *. lia.
Qed.

Lemma holds_storage_live text data m : holds text data m -> storage_live data m.
Proof.
  intros (_ & _ & Hs). unfold storage_live.
  destruct (esb_string data) as [b|]; [|exact I].
  destruct Hs as (rest & -> & _). eauto.
Qed.

(** What [esb_force_allocation] does when the capacity is too small:
    it returns when [realloc] grants the new size and exits otherwise. *)
Lemma esb_force_allocation_runs data minlen m :
  is_size_t (esb_allocated_size data) -> is_size_t minlen ->
  is_size_t (alloc_size m) -> storage_live data m ->
  esb_allocated_size data < minlen ->
  if mem_avail m (Z.max minlen (alloc_size m))
  then exists d' m', esb_force_allocation data minlen m = Ret d' m'
  else exists m',
      esb_force_allocation data minlen m = Exit 5 m' /\
      heap m' = heap m /\
      stderr m' = stderr m
                  ++ [OutOfMemoryReallocating (Z.max minlen (alloc_size m))].
Proof.
  intros Ha Hm Hq Hlive Hlt.
  pose proof (force_increment data minlen m Ha Hm Hq Hlt) as Hn.
  unfold esb_force_allocation.
  destruct (Z.ltb_spec (esb_allocated_size data) minlen); [|lia].
  destruct (mem_avail m (Z.max minlen (alloc_size m))) eqn:Hav.
  - destruct (esb_allocate_more_grows data
                (to_size_t (minlen - esb_allocated_size data)) m)
      as (d' & m' & l & Hrun & _); try assumption.
    { rewrite Hn. exact Hav. }
    eauto.
  - rewrite esb_allocate_more_fails; [|exact Hlive | rewrite Hn; exact Hav].
    rewrite Hn. eexists. split; [reflexivity|]. split; reflexivity.
Qed.

(** When the format fails in a library that stores nothing, the commit
    phase changes nothing: the formatted append is its measure phase.
    That phase, which forces a
    capacity of the error code plus one read as a [size_t], leaves the
    struct and the machine as they are when the capacity suffices, as
    with the usual code -1; otherwise it reallocates, and then the
    length and [stderr] are as before and an allocated buffer keeps its
    content, or the process exits on the refusal of [realloc]. *)
Lemma failing_format_storing_nothing text data code m :
  holds text data m -> INT_MIN <= code < 0 -> is_size_t (alloc_size m) ->
  esb_append_printf_ap data (FormatError code None) m
  = esb_allocate_more_if_needed data (FormatError code None) m /\
  (code = -1 -> esb_append_printf_ap data (FormatError code None) m = Ret data m) /\
  (to_size_t (code + 1) <= esb_allocated_size data ->
   esb_append_printf_ap data (FormatError code None) m = Ret data m) /\
  (esb_allocated_size data < to_size_t (code + 1) ->
   if mem_avail m (Z.max (to_size_t (code + 1)) (alloc_size m))
   then exists d' m',
       esb_append_printf_ap data (FormatError code None) m = Ret d' m' /\
       esb_string_len d' = esb_string_len data /\
       stderr m' = stderr m /\
       (0 < esb_allocated_size data ->
        holds text d' m' /\ as_string d' m' = as_string data m)
   else exists m',
       esb_append_printf_ap data (FormatError code None) m = Exit 5 m' /\
       heap m' = heap m).
Proof.
  intros H Hc Hq.
  pose proof (holds_sizes _ _ _ H) as (Ha & _).
  assert (Hcommit : esb_append_printf_ap data (FormatError code None) m
                    = esb_force_allocation data (to_size_t (code + 1)) m).
  { rewrite <- (measure_failing_format data code None m) by exact Hc.
    unfold esb_append_printf_ap. unfold bind at 1.
    destruct (esb_allocate_more_if_needed data (FormatError code None) m)
      as [d1 m1| |]; try reflexivity.
    unfold bind, vsnprintf, ret.
    destruct (Z.ltb_spec code 0); [reflexivity | lia]. }
  assert (Hkeep : to_size_t (code + 1) <= esb_allocated_size data ->
                  esb_append_printf_ap data (FormatError code None) m = Ret data m).
  { intros Hle. rewrite Hcommit. unfold esb_force_allocation.
    destruct (Z.ltb_spec (esb_allocated_size data) (to_size_t (code + 1)));
      [lia | reflexivity]. }
  split; [rewrite Hcommit; symmetry; apply measure_failing_format; exact Hc|].
  split.
  { intros ->. apply Hkeep. change (to_size_t (-1 + 1)) with 0.
    unfold is_size_t in Ha. lia. }
  split; [exact Hkeep|].
  intros Hlt. rewrite Hcommit.
  pose proof (esb_force_allocation_runs data (to_size_t (code + 1)) m Ha
                (to_size_t_range _) Hq (holds_storage_live _ _ _ H) Hlt) as Hruns.
  destruct (mem_avail m (Z.max (to_size_t (code + 1)) (alloc_size m))).
  - destruct Hruns as (d' & m' & Hrun).
    exists d', m'. split; [exact Hrun|].
    destruct (esb_force_allocation_used _ _ _ _ _ Hrun) as (Hu & Herr).
    split; [exact Hu|]. split; [exact Herr|].
    intros Hpos.
    destruct (esb_force_allocation_holds text data _ m d' m' H Hpos
                (to_size_t_range _) Hq Hrun) as (Hh & _ & Hcap).
    split; [exact Hh|].
    rewrite (holds_as_string _ _ _ Hh) by lia.
    rewrite (holds_as_string _ _ _ H Hpos). reflexivity.
  - destruct Hruns as (m' & Hrun & Hheap & _). eauto.
Qed.

Lemma holds_ab : holds (text_of "ab") ab_buffer ab_machine.
Proof.
  unfold holds. split; [reflexivity|].
  split; [simpl; rewrite size_modulus_value; lia|].
  exists [Undef]. split; reflexivity.
Defined.

Lemma failing_format_storing_nothing_example :
  esb_append_printf_ap ab_buffer (FormatError (-1) None) ab_machine
  = esb_allocate_more_if_needed ab_buffer (FormatError (-1) None) ab_machine /\
  (-1 = -1 ->
   esb_append_printf_ap ab_buffer (FormatError (-1) None) ab_machine
   = Ret ab_buffer ab_machine) /\
  (to_size_t (-1 + 1) <= esb_allocated_size ab_buffer ->
   esb_append_printf_ap ab_buffer (FormatError (-1) None) ab_machine
   = Ret ab_buffer ab_machine) /\
  (esb_allocated_size ab_buffer < to_size_t (-1 + 1) ->
   if mem_avail ab_machine (Z.max (to_size_t (-1 + 1)) (alloc_size ab_machine))
   then exists d' m',
       esb_append_printf_ap ab_buffer (FormatError (-1) None) ab_machine = Ret d' m' /\
       esb_string_len d' = esb_string_len ab_buffer /\
       stderr m' = stderr ab_machine /\
       (0 < esb_allocated_size ab_buffer ->
        holds (text_of "ab") d' m' /\
        as_string d' m' = as_string ab_buffer ab_machine)
   else exists m',
       esb_append_printf_ap ab_buffer (FormatError (-1) None) ab_machine = Exit 5 m' /\
       heap m' = heap ab_machine).
Proof.
  apply (failing_format_storing_nothing (text_of "ab") ab_buffer (-1) ab_machine).
  - exact holds_ab.
  - unfold INT_MIN. lia.
  - unfold is_size_t, ab_machine, INITIAL_ALLOC_SELFTEST, alloc_size.
    rewrite size_modulus_value. lia.
Defined.

(** C6: a formatted append whose format fails is no no-op when the
    library has stored what it produced before the failure, as glibc
    does.  After "aaaaa" (length 5, capacity 17, terminated) a format
    that fails with -1 after the text "xy" leaves the length at 5 and
    the capacity at 17, but the storage now reads "aaaaaxy": the bytes
    were committed, and the byte at the offset of the length is no
    terminator.  [esb_append_printf_ap] returns on the negative value
    ("There was an error. Do nothing.") without storing the terminator
    again. *)
Theorem failing_format_commits_bytes :
  let m0 := boot INITIAL_ALLOC always_available in
  let f := FormatError (-1) (Some (text_of "xy")) in
  vsnprintf_result f = -1 /\
  length_of (five_a m0) = Some 5 /\
  capacity_of (five_a m0) = Some 17 /\
  content_of (five_a m0) = Some (text_of "aaaaa") /\
  terminated_after (five_a m0) = Some true /\
  length_of ((let* d := five_a in esb_append_printf_ap d f) m0) = Some 5 /\
  capacity_of ((let* d := five_a in esb_append_printf_ap d f) m0) = Some 17 /\
  content_of ((let* d := five_a in esb_append_printf_ap d f) m0)
  = Some (text_of "aaaaaxy") /\
  terminated_after ((let* d := five_a in esb_append_printf_ap d f) m0)
  = Some false.
Proof. vm_compute. repeat split. Qed.

(** ** Footprints of the C library *)

Lemma touches_refl p m : touches p m m.
Proof. unfold touches. split; [reflexivity|]. split; [lia | auto]. Qed.

Lemma wlp_if {A} (b : bool) (c1 c2 : M A) Q m :
  (b = true -> wlp c1 Q m) -> (b = false -> wlp c2 Q m) ->
  wlp (if b then c1 else c2) Q m.
Proof. destruct b; auto. Qed.

Lemma wlp_malloc n m Q :
  Q None m ->
  (forall m',
      touches None m m' -> next_block m' = Pos.succ (next_block m) ->
      heap m' !! next_block m = Some (replicate (Z.to_nat n) Undef) ->
      Q (Some (next_block m)) m') ->
  wlp (malloc n) Q m.
Proof.
  intros Hnone Hsome. unfold wlp, malloc.
  destruct (mem_avail m n); [|exact Hnone].
  apply Hsome; simpl.
  - unfold touches. simpl. split; [reflexivity|]. split; [lia|].
    intros k _ Hk. apply lookup_insert_ne. lia.
  - reflexivity.
  - apply lookup_insert_eq.
Qed.

Lemma wlp_realloc p n m Q :
  Q None m ->
  (forall m' l,
      touches p m m' -> next_block m' = Pos.succ (next_block m) ->
      heap m' !! next_block m = Some l -> length l = Z.to_nat n ->
      Q (Some (next_block m)) m') ->
  wlp (realloc p n) Q m.
Proof.
  intros Hnone Hsome. destruct p as [b|].
  - unfold wlp, realloc.
    destruct (heap m !! b) as [old|] eqn:Hb; [|exact I].
    destruct (mem_avail m n); [|exact Hnone].
    apply (Hsome _ (resized old n)); simpl.
    + unfold touches. simpl. split; [reflexivity|]. split; [lia|].
      intros k Hne Hk. rewrite lookup_insert_ne by lia.
      apply lookup_delete_ne. congruence.
    + reflexivity.
    + apply lookup_insert_eq.
    + unfold resized. rewrite length_app, length_take, length_replicate. lia.
  - apply wlp_malloc; [exact Hnone|].
    intros m' Ht Hn Hl. apply (Hsome m' _ Ht Hn Hl).
    apply length_replicate.
Qed.

Lemma wlp_free b m Q :
  (forall m', touches (Some b) m m' -> next_block m' = next_block m -> Q tt m') ->
  wlp (free b) Q m.
Proof.
  intros HQ. unfold wlp, free.
  destruct (heap m !! b); [|exact I].
  apply HQ; [|reflexivity].
  unfold touches. simpl. split; [reflexivity|]. split; [lia|].
  intros k Hne _. apply lookup_delete_ne. congruence.
Qed.

Lemma wlp_store p i v m Q :
  (forall m' b l,
      p = Some b -> heap m !! b = Some l -> 0 <= i < Z.of_nat (length l) ->
      touches p m m' -> next_block m' = next_block m ->
      heap m' !! b = Some (<[Z.to_nat i := v]> l) ->
      Q tt m') ->
  wlp (store p i v) Q m.
Proof.
  intros HQ. unfold wlp, store.
  destruct p as [b|]; [|exact I].
  destruct (heap m !! b) as [l|] eqn:Hb; [|exact I].
  destruct (Z.leb_spec 0 i); [|exact I].
  destruct (Z.ltb_spec i (Z.of_nat (length l))); [|exact I].
  cbn [andb]. apply (HQ _ b l); try reflexivity; try assumption; try lia.
  - unfold touches. simpl. split; [reflexivity|]. split; [lia|].
    intros k Hne _. apply lookup_insert_ne. congruence.
  - simpl. apply lookup_insert_eq.
Qed.

Lemma wlp_store_bytes p off vs m Q :
  (forall m',
      touches p m m' -> next_block m' = next_block m ->
      (forall b l, p = Some b -> heap m !! b = Some l ->
                   (vs <> [] -> 0 <= off /\
                                off + Z.of_nat (length vs) <= Z.of_nat (length l)) /\
                   exists l', heap m' !! b = Some l' /\ length l' = length l) ->
      Q tt m') ->
  wlp (store_bytes p off vs) Q m.
Proof.
  intros HQ. destruct vs as [|v vs].
  - apply (HQ m); [apply touches_refl | reflexivity|].
    intros b l _ Hb. split; [congruence | eauto].
  - unfold wlp, store_bytes.
    destruct p as [b|]; [|exact I].
    destruct (heap m !! b) as [l|] eqn:Hb; [|exact I].
    destruct (Z.leb_spec 0 off); [|exact I].
    destruct (Z.leb_spec (off + Z.of_nat (length (v :: vs))) (Z.of_nat (length l)));
      [|exact I].
    cbn [andb]. apply HQ.
    + unfold touches. simpl. split; [reflexivity|]. split; [lia|].
      intros k Hne _. apply lookup_insert_ne. congruence.
    + reflexivity.
    + intros b' l' [= <-] Hb'. rewrite Hb in Hb'. injection Hb' as <-.
      split; [intros _; split; assumption|].
      eexists. split; [cbn [heap set_heap]; apply lookup_insert_eq|].
      rewrite !length_app, length_take, length_drop. lia.
Qed.

Lemma wlp_fprintf_stderr d m Q :
  (forall m', touches None m m' -> next_block m' = next_block m ->
              heap m' = heap m -> Q tt m') ->
  wlp (fprintf_stderr d) Q m.
Proof.
  intros HQ. apply HQ; try reflexivity.
  unfold touches. simpl. split; [reflexivity|]. split; [lia | auto].
Qed.

Lemma wlp_get_alloc_size m Q : Q (alloc_size m) m -> wlp get_alloc_size Q m.
Proof. intros H. exact H. Qed.

Lemma wlp_strncpy p off s len m Q :
  (forall m',
      touches p m m' -> next_block m' = next_block m ->
      (forall b l, p = Some b -> heap m !! b = Some l ->
                   (0 < len -> 0 <= off /\ off + len <= Z.of_nat (length l)) /\
                   exists l', heap m' !! b = Some l' /\ length l' = length l) ->
      Q tt m') ->
  wlp (strncpy p off s len) Q m.
Proof.
  intros HQ. unfold strncpy.
  destruct (strncpy_image s (Z.to_nat len)) as [img|] eqn:Himg; [|exact I].
  apply strncpy_image_length in Himg.
  apply wlp_store_bytes. intros m' Ht Hn Hfacts.
  apply (HQ m' Ht Hn). intros b l Hp Hb.
  destruct (Hfacts b l Hp Hb) as (Hfit & Hl'). split; [|exact Hl'].
  intros Hpos. rewrite length_map, Himg in Hfit.
  destruct Hfit as (? & ?); [|lia].
  destruct img; [simpl in Himg; lia | discriminate].
Qed.

(** ** The capacity never decreases *)

Ltac wlp_reduce := cbv beta iota zeta.

Lemma gtb_false x : (x >? 0) = false -> x <= 0.
Proof. rewrite Z.gtb_ltb. apply Z.ltb_ge. Qed.

Lemma init_esb_string_grows data min_len m Q :
  sizes_ok data m ->
  (forall d' m', grows data d' m' -> alloc_size m' = alloc_size m -> Q d' m') ->
  wlp (init_esb_string data min_len) Q m.
Proof.
  intros Hs HQ. unfold init_esb_string.
  apply wlp_if; intros Hpos.
  - apply wlp_ret. apply HQ; [split; [lia | exact Hs] | reflexivity].
  - apply gtb_false in Hpos.
    apply wlp_bind, wlp_get_alloc_size. wlp_reduce.
    apply wlp_bind, wlp_malloc; wlp_reduce.
    + apply wlp_bind, wlp_fprintf_stderr. intros. apply wlp_exit.
    + intros m1 (Hq1 & _) _ _.
      apply wlp_bind, wlp_store. intros m2 b l _ _ _ (Hq2 & _) _ _.
      apply wlp_ret. apply HQ; [|congruence].
      destruct Hs as (_ & _ & Hq).
      assert (Hr : is_size_t (if min_len <=? alloc_size m
                              then to_size_t (alloc_size m + 1)
                              else to_size_t (min_len + 1))).
      { destruct (_ <=? _); apply to_size_t_range. }
      unfold grows, sizes_ok. cbn [esb_allocated_size esb_used_bytes esb_string].
      unfold is_size_t in *. rewrite size_modulus_value in *.
      repeat split; lia.
Qed.

Lemma esb_allocate_more_grows_to data len m Q :
  is_size_t (alloc_size m) ->
  (forall d' m' l,
      esb_allocated_size d' = new_size_of data len m ->
      esb_used_bytes d' = esb_used_bytes data ->
      alloc_size m' = alloc_size m ->
      storage d' m' = Some l ->
      Z.of_nat (length l) = new_size_of data len m ->
      Q d' m') ->
  wlp (esb_allocate_more data len) Q m.
Proof.
  intros Hq HQ. unfold esb_allocate_more.
  apply wlp_bind, wlp_get_alloc_size. wlp_reduce.
  fold (new_size_of data len m).
  pose proof (new_size_of_range data len m Hq) as Hr.
  apply wlp_bind, wlp_realloc; wlp_reduce.
  - apply wlp_bind, wlp_fprintf_stderr. intros. apply wlp_exit.
  - intros m1 l (Hq1 & _) _ Hl Hlen.
    apply wlp_ret. apply (HQ _ _ l); try reflexivity; try assumption.
    unfold is_size_t in Hr. lia.
Qed.

Lemma esb_force_allocation_grows data minlen m Q :
  sizes_ok data m -> is_size_t minlen ->
  (forall d' m',
      grows data d' m' -> alloc_size m' = alloc_size m ->
      esb_used_bytes d' = esb_used_bytes data ->
      Q d' m') ->
  wlp (esb_force_allocation data minlen) Q m.
Proof.
  intros Hs Hm HQ. pose proof Hs as (Ha & Hu & Hq).
  unfold esb_force_allocation. apply wlp_if; intros Hlt.
  - apply Z.ltb_lt in Hlt.
    apply esb_allocate_more_grows_to; [exact Hq|].
    intros d' m' l Hcap Hused Hq' _ _.
    rewrite force_increment in Hcap by assumption.
    apply HQ; [|exact Hq' | exact Hused].
    unfold grows, sizes_ok. rewrite Hcap, Hused, Hq'.
    unfold is_size_t in *. repeat split; lia.
  - apply wlp_ret. apply HQ; [split; [lia | exact Hs] | reflexivity..].
Qed.

(** The raw append: if the reallocation had wrapped around to a smaller
    block, the copy or the terminator would fall outside of it. *)
Lemma esb_appendn_internal_grows data s len m Q :
  sizes_ok data m -> is_size_t len ->
  (forall d' m', grows data d' m' -> alloc_size m' = alloc_size m -> Q d' m') ->
  wlp (esb_appendn_internal data s len) Q m.
Proof.
  intros Hs Hlen HQ. unfold esb_appendn_internal. wlp_reduce.
  assert (Hfinish : forall d2 m2,
             grows data d2 m2 -> alloc_size m2 = alloc_size m ->
             wlp (let* _ := strncpy (esb_string d2) (esb_used_bytes d2) s len in
                  let* _ := store (esb_string d2)
                                  (to_size_t (esb_used_bytes d2 + len)) (Byte NUL) in
                  ret (Esb (esb_string d2) (esb_allocated_size d2)
                           (to_size_t (esb_used_bytes d2 + len)))) Q m2).
  { intros d2 m2 (Hle & Ha2 & Hu2 & Hq2) Hqm.
    apply wlp_bind, wlp_strncpy.
    intros m3 (Hq3 & _) _ _. wlp_reduce.
    apply wlp_bind, wlp_store. intros m4 b l _ _ _ (Hq4 & _) _ _.
    apply wlp_ret. apply HQ; [|congruence].
    split; [exact Hle|]. unfold sizes_ok. cbn [esb_allocated_size esb_used_bytes].
    split; [exact Ha2|]. split; [apply to_size_t_range|]. congruence. }
  apply wlp_bind.
  assert (Hinit : forall Q1,
             (forall d1 m1, grows data d1 m1 -> alloc_size m1 = alloc_size m ->
                            Q1 d1 m1) ->
             wlp (if esb_allocated_size data =? 0
                  then let* quantum := get_alloc_size in
                       init_esb_string data
                         (if len >=? quantum then len else quantum)
                  else ret data) Q1 m).
  { intros Q1 HQ1. apply wlp_if; intros _.
    - apply wlp_bind, wlp_get_alloc_size. wlp_reduce.
      apply init_esb_string_grows; assumption.
    - apply wlp_ret. apply HQ1; [split; [lia | exact Hs] | reflexivity]. }
  apply Hinit. intros d1 m1 (Hle1 & Ha1 & Hu1 & Hq1) Hqm1.
  apply wlp_bind. apply wlp_if; intros Hfull.
  - apply Z.leb_le in Hfull.
    apply esb_allocate_more_grows_to; [exact Hq1|].
    intros d2 m2 l2 Hcap2 Hused2 Hq2 Hsto2 Hlen2.
    unfold storage in Hsto2.
    destruct (esb_string d2) as [b2|] eqn:Hs2; [|discriminate].
    apply wlp_bind, wlp_strncpy.
    intros m3 (Hq3 & _) _ Hcopy. wlp_reduce.
    destruct (Hcopy b2 l2 eq_refl Hsto2) as (Hfit & l3 & Hsto3 & Hlen3).
    apply wlp_bind, wlp_store. intros m4 b l [= <-] Hb Hi (Hq4 & _) _ _.
    rewrite Hsto3 in Hb. injection Hb as <-.
    apply wlp_ret. apply HQ; [|congruence].
    unfold grows, sizes_ok. cbn [esb_allocated_size esb_used_bytes].
    assert (Hr2 : is_size_t (esb_allocated_size d2)).
    { rewrite Hcap2. apply new_size_of_range. exact Hq1. }
    assert (Hmono : esb_allocated_size d1 <= esb_allocated_size d2).
    { cbn [esb_used_bytes] in Hi. rewrite Hused2 in Hi, Hfit.
      rewrite Hlen3, Hlen2 in Hi. rewrite Hlen2 in Hfit.
      rewrite Hcap2 in *. unfold new_size_of in *.
      pose proof (to_size_t_range (esb_allocated_size d1 + len)) as Hn.
      unfold is_size_t in *.
      destruct (Z_lt_dec (esb_allocated_size d1 + len) SIZE_MODULUS)
        as [Hfits|Hwraps].
      - rewrite (to_size_t_small (esb_allocated_size d1 + len)) in *
          by (unfold is_size_t; lia).
        destruct (Z.ltb_spec (esb_allocated_size d1 + len) (alloc_size m1)); lia.
      - assert (Hpos : 0 < len) by lia.
        destruct (Hfit Hpos) as (_ & Hcopied).
        assert (Hsmall : esb_used_bytes d1 + len < SIZE_MODULUS).
        { destruct (_ <? _); lia. }
        rewrite (to_size_t_small (esb_used_bytes d1 + len)) in Hi
          by (unfold is_size_t; lia).
        destruct (Z_le_gt_dec (esb_used_bytes d1) (esb_allocated_size d1)).
        + rewrite to_size_t_small in Hfull by (unfold is_size_t; lia). lia.
        + rewrite to_size_t_below in Hfull by lia. lia. }
    split; [lia|]. split; [exact Hr2|].
    split; [apply to_size_t_range | congruence].
  - apply wlp_ret. apply Hfinish; [|exact Hqm1].
    split; [exact Hle1|]. split; [exact Ha1|]. split; assumption.
Qed.

Lemma lazy_init_grows data (g : Z -> Z) m Q :
  sizes_ok data m ->
  (forall d1 m1, grows data d1 m1 -> alloc_size m1 = alloc_size m -> Q d1 m1) ->
  wlp (if esb_allocated_size data =? 0
       then let* quantum := get_alloc_size in init_esb_string data (g quantum)
       else ret data) Q m.
Proof.
  intros Hs HQ. apply wlp_if; intros _.
  - apply wlp_bind, wlp_get_alloc_size. wlp_reduce.
    apply init_esb_string_grows; assumption.
  - apply wlp_ret. apply HQ; [split; [lia | exact Hs] | reflexivity].
Qed.

Lemma wlp_int_add a b m Q : (forall r, Q r m) -> wlp (int_add a b) Q m.
Proof.
  intros HQ. unfold int_add. destruct (in_int_range (a + b)); [apply HQ | exact I].
Qed.

Lemma wlp_vsnprintf p off size f m Q :
  (forall r m', touches p m m' -> next_block m' = next_block m -> Q r m') ->
  wlp (vsnprintf p off size f) Q m.
Proof.
  intros HQ.
  assert (Hstores : forall r text,
             wlp (if size =? 0 then ret r
                  else
                    let* _ := store_bytes p off
                                (map Byte (take (Z.to_nat (size - 1)) text
                                           ++ [NUL])) in
                    ret r) Q m).
  { intros r text. apply wlp_if; intros _.
    - apply wlp_ret. apply HQ; [apply touches_refl | reflexivity].
    - apply wlp_bind, wlp_store_bytes. intros m' Ht Hn _.
      apply wlp_ret. apply HQ; assumption. }
  unfold vsnprintf. destruct f as [text|code [text|]].
  - apply wlp_if; intros _; apply Hstores.
  - apply Hstores.
  - apply wlp_ret. apply HQ; [apply touches_refl | reflexivity].
Qed.

Lemma wlp_strcpy dst src m Q :
  (forall m', touches dst m m' -> next_block m' = next_block m -> Q tt m') ->
  wlp (strcpy dst src) Q m.
Proof.
  intros HQ. unfold wlp, strcpy.
  destruct (load_cstring src 0 m) as [s|]; [|exact I].
  apply (wlp_store_bytes dst 0 _ m Q). intros m' Ht Hn _. apply HQ; assumption.
Qed.

Lemma esb_append_printf_ap_grows data f m Q :
  sizes_ok data m ->
  (forall d' m', grows data d' m' -> alloc_size m' = alloc_size m -> Q d' m') ->
  wlp (esb_append_printf_ap data f) Q m.
Proof.
  intros Hs HQ. unfold esb_append_printf_ap, esb_allocate_more_if_needed.
  apply wlp_bind, wlp_bind, wlp_int_add. intros minlen.
  apply esb_force_allocation_grows; [exact Hs | apply to_size_t_range|].
  intros d1 m1 (Hle & Ha1 & Hu1 & Hq1) Hqm1 _. wlp_reduce.
  apply wlp_bind, wlp_vsnprintf. intros r m2 (Hq2 & _) _.
  assert (Hdone : forall u, grows data (Esb (esb_string d1) (esb_allocated_size d1)
                                            (to_size_t u)) m2).
  { intros u. split; [exact Hle|]. unfold sizes_ok.
    cbn [esb_allocated_size esb_used_bytes].
    split; [exact Ha1|]. split; [apply to_size_t_range | congruence]. }
  apply wlp_if; intros _.
  - apply wlp_ret. apply HQ; [|congruence].
    split; [exact Hle|]. split; [exact Ha1|]. split; [exact Hu1 | congruence].
  - apply wlp_if; intros _.
    + apply wlp_bind, wlp_int_add. intros written.
      apply wlp_ret. apply HQ; [apply Hdone | congruence].
    + apply wlp_ret. apply HQ; [apply Hdone | congruence].
Qed.

Lemma esb_get_string_grows data m Q :
  sizes_ok data m ->
  (forall r m', grows data (fst r) m' -> alloc_size m' = alloc_size m -> Q r m') ->
  wlp (esb_get_string data) Q m.
Proof.
  intros Hs HQ. unfold esb_get_string.
  apply wlp_bind, (lazy_init_grows data (fun quantum => quantum)); [exact Hs|].
  intros d1 m1 Hg Hq. apply wlp_ret. apply HQ; assumption.
Qed.

(** Every call but the destructor leaves a capacity that is at least
    the one it found. *)
Lemma perform_grows c data m :
  call_ok c -> sizes_ok data m ->
  wlp (perform c data) (fun d' m' => grows data d' m') m.
Proof.
  intros Hc Hs. pose proof Hs as (Ha & Hu & Hq).
  destruct c as [minlen|s len|s|f| | | | | |size|]; cbn [perform call_ok] in *.
  - apply esb_force_allocation_grows; [exact Hs | exact Hc|]. auto.
  - unfold esb_appendn.
    destruct s as [s|]; [|exact I].
    destruct (strlen s) as [t|] eqn:Ht; [|exact I].
    pose proof (strlen_nonneg _ _ Ht) as Hpos.
    apply wlp_bind. apply wlp_if; intros Hlt.
    + apply Z.ltb_lt in Hlt.
      apply wlp_bind, wlp_fprintf_stderr. intros m1 (Hq1 & _) _ _.
      apply wlp_ret.
      apply esb_appendn_internal_grows; [|unfold is_size_t in *; lia | auto].
      split; [exact Ha|]. split; [exact Hu | congruence].
    + apply wlp_ret. apply esb_appendn_internal_grows; auto.
  - unfold esb_append.
    destruct s as [s|]; [|apply wlp_ret; split; [lia | exact Hs]].
    destruct (strlen s) as [t|] eqn:Ht; [|exact I].
    pose proof (strlen_nonneg _ _ Ht) as Hpos.
    destruct (strlen_split _ _ Ht) as (rest & Hsplit & Hn).
    apply wlp_if; intros _; [apply wlp_ret; split; [lia | exact Hs]|].
    apply esb_appendn_internal_grows; [exact Hs| |auto].
    apply (f_equal (@length ascii)) in Hsplit.
    rewrite length_app in Hsplit. simpl length in Hsplit.
    unfold is_size_t in *. lia.
  - unfold esb_append_printf. apply esb_append_printf_ap_grows; auto.
  - apply wlp_bind, esb_get_string_grows; [exact Hs|].
    intros r m' Hg _. apply wlp_ret. exact Hg.
  - unfold esb_empty_string.
    apply wlp_bind, (lazy_init_grows data (fun quantum => quantum)); [exact Hs|].
    intros d1 m1 (Hle & Ha1 & Hu1 & Hq1) Hqm. wlp_reduce.
    apply wlp_bind, wlp_store. intros m2 b l _ _ _ (Hq2 & _) _ _.
    apply wlp_ret. split; [exact Hle|]. unfold sizes_ok.
    cbn [esb_allocated_size esb_used_bytes].
    split; [exact Ha1|]. split; [|congruence].
    unfold is_size_t. rewrite size_modulus_value. lia.
  - apply wlp_ret. split; [lia | exact Hs].
  - apply wlp_ret. split; [lia | exact Hs].
  - unfold esb_get_copy. apply wlp_bind. apply wlp_if; intros _.
    + apply wlp_ret, wlp_ret. cbn [fst]. split; [lia | exact Hs].
    + apply wlp_bind, wlp_malloc.
      * apply wlp_bind, esb_get_string_grows; [exact Hs|].
        intros r m1 Hg Hq1. apply wlp_bind, wlp_strcpy.
        intros m2 (Hq2 & _) _. apply wlp_ret, wlp_ret.
        destruct Hg as (Hle & Ha1 & Hu1 & Hqq).
        split; [exact Hle|]. split; [exact Ha1|]. split; [exact Hu1 | congruence].
      * intros m0 (Hq0 & _) _ _.
        apply wlp_bind, esb_get_string_grows.
        { split; [exact Ha|]. split; [exact Hu | congruence]. }
        intros r m1 Hg Hq1. apply wlp_bind, wlp_strcpy.
        intros m2 (Hq2 & _) _. apply wlp_ret, wlp_ret.
        destruct Hg as (Hle & Ha1 & Hu1 & Hqq).
        split; [exact Hle|]. split; [exact Ha1|]. split; [exact Hu1 | congruence].
  - apply wlp_bind. unfold wlp, esb_alloc_size.
    apply wlp_ret. split; [lia|]. split; [exact Ha|]. split; [exact Hu | exact Hc].
  - contradiction.
Qed.

Lemma capacities_from cs :
  forall data m,
    Forall call_ok cs -> sizes_ok data m ->
    StronglySorted Z.le (capacities cs data m) /\
    Forall (Z.le (esb_allocated_size data)) (capacities cs data m).
Proof.
  induction cs as [|c cs IH]; intros data m Hcs Hs.
  - simpl. split; repeat constructor. unfold esb_get_allocated_size. lia.
  - inversion Hcs as [|? ? Hc Hcs']; subst.
    cbn [capacities]. unfold esb_get_allocated_size at 1 2.
    pose proof (perform_grows c data m Hc Hs) as Hstep. unfold wlp in Hstep.
    destruct (perform c data m) as [d' m'| |].
    + destruct Hstep as (Hle & Hs').
      destruct (IH d' m' Hcs' Hs') as (Hsorted & Hall).
      assert (Htail : Forall (Z.le (esb_allocated_size data)) (capacities cs d' m')).
      { eapply Forall_impl; [exact Hall|]. intros x Hx. simpl in Hx. lia. }
      split; constructor; try assumption. lia.
    + split; repeat constructor. lia.
    + split; repeat constructor. lia.
Qed.

(** C7: over any sequence of calls other than the destructor, the
    capacities seen before the first call and after each call never
    decrease. *)
Theorem capacity_never_decreases cs data m :
  Forall call_ok cs -> sizes_ok data m ->
  StronglySorted Z.le (capacities cs data m).
Proof. intros Hcs Hs. apply capacities_from; assumption. Qed.

Lemma capacity_never_decreases_witness :
  StronglySorted Z.le
    (capacities [CallAppend (literal "aaaaa");
                 CallAppendPrintf (Expands (text_of "aaaa insert me bbbb"));
                 CallForceAllocation 50;
                 CallEmptyString;
                 CallAppendn (literal "cc") 1]
                (Esb None 0 0) (boot INITIAL_ALLOC always_available)).
Proof.
  apply capacity_never_decreases.
  - repeat (apply List.Forall_cons;
            [cbn [call_ok literal]; unfold is_size_t; rewrite ?size_modulus_value;
             simpl; first [exact I | lia]|]).
    apply List.Forall_nil.
  - unfold sizes_ok, is_size_t, boot, INITIAL_ALLOC, alloc_size,
      esb_allocated_size, esb_used_bytes.
    rewrite size_modulus_value. lia.
Defined.

Example capacities_example :
  capacities [CallAppend (literal "aaaaa");
              CallAppendPrintf (Expands (text_of "aaaa insert me bbbb"));
              CallForceAllocation 50;
              CallEmptyString;
              CallAppendn (literal "cc") 1]
             (Esb None 0 0) (boot INITIAL_ALLOC always_available)
  = [0; 17; 20; 50; 50; 50].
Proof. vm_compute. reflexivity. Qed.

(** ** A detached block stays as it is *)

Lemma touches_apart k p m m' :
  touches p m m' -> p <> Some k -> (k < next_block m)%positive ->
  heap m' !! k = heap m !! k /\ (k < next_block m')%positive.
Proof.
  intros (_ & Hn & Hk) Hp Hlt. split; [apply Hk; assumption | lia].
Qed.

Lemma fresh_not_apart k m : (k < next_block m)%positive -> Some (next_block m) <> Some k.
Proof. intros Hlt [= E]. lia. Qed.

Lemma init_esb_string_apart k data min_len m Q :
  apart k data m ->
  (forall d' m', apart k d' m' -> heap m' !! k = heap m !! k -> Q d' m') ->
  wlp (init_esb_string data min_len) Q m.
Proof.
  intros (Hp & Hlt) HQ. unfold init_esb_string.
  apply wlp_if; intros _.
  - apply wlp_ret. apply HQ; [split; assumption | reflexivity].
  - apply wlp_bind, wlp_get_alloc_size. wlp_reduce.
    apply wlp_bind, wlp_malloc; wlp_reduce.
    + apply wlp_bind, wlp_fprintf_stderr. intros. apply wlp_exit.
    + intros m1 Ht1 Hn1 _.
      destruct (touches_apart k _ _ _ Ht1 ltac:(discriminate) Hlt) as (Hk1 & Hlt1).
      apply wlp_bind, wlp_store. intros m2 b l _ _ _ Ht2 _ _.
      cbn [esb_string] in Ht2.
      destruct (touches_apart k _ _ _ Ht2 (fresh_not_apart k m Hlt) Hlt1)
        as (Hk2 & Hlt2).
      apply wlp_ret. apply HQ; [|congruence].
      split; [apply fresh_not_apart; exact Hlt | exact Hlt2].
Qed.

Lemma esb_allocate_more_apart k data len m Q :
  apart k data m ->
  (forall d' m', apart k d' m' -> heap m' !! k = heap m !! k -> Q d' m') ->
  wlp (esb_allocate_more data len) Q m.
Proof.
  intros (Hp & Hlt) HQ. unfold esb_allocate_more.
  apply wlp_bind, wlp_get_alloc_size. wlp_reduce.
  apply wlp_bind, wlp_realloc; wlp_reduce.
  - apply wlp_bind, wlp_fprintf_stderr. intros. apply wlp_exit.
  - intros m1 l Ht1 _ _ _.
    destruct (touches_apart k _ _ _ Ht1 Hp Hlt) as (Hk1 & Hlt1).
    apply wlp_ret. apply HQ; [|exact Hk1].
    split; [apply fresh_not_apart; exact Hlt | exact Hlt1].
Qed.

Lemma esb_force_allocation_apart k data minlen m Q :
  apart k data m ->
  (forall d' m', apart k d' m' -> heap m' !! k = heap m !! k -> Q d' m') ->
  wlp (esb_force_allocation data minlen) Q m.
Proof.
  intros Ha HQ. unfold esb_force_allocation. apply wlp_if; intros _.
  - apply (esb_allocate_more_apart k); assumption.
  - apply wlp_ret. apply HQ; [exact Ha | reflexivity].
Qed.

Lemma lazy_init_apart k data (g : Z -> Z) m Q :
  apart k data m ->
  (forall d' m', apart k d' m' -> heap m' !! k = heap m !! k -> Q d' m') ->
  wlp (if esb_allocated_size data =? 0
       then let* quantum := get_alloc_size in init_esb_string data (g quantum)
       else ret data) Q m.
Proof.
  intros Ha HQ. apply wlp_if; intros _.
  - apply wlp_bind, wlp_get_alloc_size. wlp_reduce.
    apply (init_esb_string_apart k); assumption.
  - apply wlp_ret. apply HQ; [exact Ha | reflexivity].
Qed.

Lemma esb_appendn_internal_apart k data s len m Q :
  apart k data m ->
  (forall d' m', apart k d' m' -> heap m' !! k = heap m !! k -> Q d' m') ->
  wlp (esb_appendn_internal data s len) Q m.
Proof.
  intros Ha HQ. unfold esb_appendn_internal. wlp_reduce.
  apply wlp_bind,
    (lazy_init_apart k data (fun quantum => if len >=? quantum then len else quantum));
    [exact Ha|].
  intros d1 m1 Ha1 Hk1.
  assert (Hfinish : forall d2 m2,
             apart k d2 m2 -> heap m2 !! k = heap m !! k ->
             wlp (let* _ := strncpy (esb_string d2) (esb_used_bytes d2) s len in
                  let* _ := store (esb_string d2)
                                  (to_size_t (esb_used_bytes d2 + len)) (Byte NUL) in
                  ret (Esb (esb_string d2) (esb_allocated_size d2)
                           (to_size_t (esb_used_bytes d2 + len)))) Q m2).
  { intros d2 m2 (Hp2 & Hlt2) Hk2.
    apply wlp_bind, wlp_strncpy.
    intros m3 Ht3 _ _. wlp_reduce.
    destruct (touches_apart k _ _ _ Ht3 Hp2 Hlt2) as (Hk3 & Hlt3).
    apply wlp_bind, wlp_store. intros m4 b l _ _ _ Ht4 _ _.
    cbn [esb_string] in Ht4.
    destruct (touches_apart k _ _ _ Ht4 Hp2 Hlt3) as (Hk4 & Hlt4).
    apply wlp_ret. apply HQ; [split; assumption | congruence]. }
  apply wlp_bind. apply wlp_if; intros _.
  - apply (esb_allocate_more_apart k); [exact Ha1|].
    intros d2 m2 Ha2 Hk2. apply Hfinish; [exact Ha2 | congruence].
  - apply wlp_ret. apply Hfinish; assumption.
Qed.

Lemma esb_get_string_apart k data m Q :
  apart k data m ->
  (forall r m', apart k (fst r) m' -> heap m' !! k = heap m !! k ->
                snd r = esb_string (fst r) -> Q r m') ->
  wlp (esb_get_string data) Q m.
Proof.
  intros Ha HQ. unfold esb_get_string.
  apply wlp_bind, (lazy_init_apart k data (fun quantum => quantum)); [exact Ha|].
  intros d1 m1 Ha1 Hk1. apply wlp_ret. apply HQ; auto.
Qed.

Lemma esb_append_printf_ap_apart k data f m Q :
  apart k data m ->
  (forall d' m', apart k d' m' -> heap m' !! k = heap m !! k -> Q d' m') ->
  wlp (esb_append_printf_ap data f) Q m.
Proof.
  intros Ha HQ. unfold esb_append_printf_ap, esb_allocate_more_if_needed.
  apply wlp_bind, wlp_bind, wlp_int_add. intros minlen.
  apply (esb_force_allocation_apart k); [exact Ha|].
  intros d1 m1 (Hp1 & Hlt1) Hk1. wlp_reduce.
  apply wlp_bind, wlp_vsnprintf. intros r m2 Ht2 _.
  destruct (touches_apart k _ _ _ Ht2 Hp1 Hlt1) as (Hk2 & Hlt2).
  apply wlp_if; intros _.
  - apply wlp_ret. apply HQ; [split; assumption | congruence].
  - apply wlp_if; intros _.
    + apply wlp_bind, wlp_int_add. intros written.
      apply wlp_ret. apply HQ; [split; assumption | congruence].
    + apply wlp_ret. apply HQ; [split; assumption | congruence].
Qed.

Lemma esb_get_copy_apart k data m Q :
  apart k data m ->
  (forall r m', apart k (fst r) m' -> heap m' !! k = heap m !! k -> Q r m') ->
  wlp (esb_get_copy data) Q m.
Proof.
  intros Ha HQ. pose proof Ha as (Hp & Hlt). unfold esb_get_copy.
  apply wlp_if; intros _.
  - apply wlp_ret. apply HQ; [exact Ha | reflexivity].
  - apply wlp_bind, wlp_malloc.
    + apply wlp_bind, (esb_get_string_apart k); [exact Ha|].
      intros r m1 (Hp1 & Hlt1) Hk1 _.
      apply wlp_bind, wlp_strcpy. intros m2 Ht2 _.
      destruct (touches_apart k _ _ _ Ht2 ltac:(discriminate) Hlt1) as (Hk2 & Hlt2).
      apply wlp_ret. apply HQ; [split; assumption | congruence].
    + intros m0 Ht0 Hn0 _.
      destruct (touches_apart k _ _ _ Ht0 ltac:(discriminate) Hlt) as (Hk0 & Hlt0).
      apply wlp_bind, (esb_get_string_apart k); [split; assumption|].
      intros r m1 (Hp1 & Hlt1) Hk1 _.
      apply wlp_bind, wlp_strcpy. intros m2 Ht2 _.
      destruct (touches_apart k _ _ _ Ht2 (fresh_not_apart k m Hlt) Hlt1)
        as (Hk2 & Hlt2).
      apply wlp_ret. apply HQ; [split; assumption | congruence].
Qed.

(** Whatever is called on the buffer, a block that is not its storage is
    left alone, and does not become its storage. *)
Lemma perform_apart k c data m :
  apart k data m ->
  wlp (perform c data)
      (fun d' m' => apart k d' m' /\ heap m' !! k = heap m !! k) m.
Proof.
  intros Ha. pose proof Ha as (Hp & Hlt).
  destruct c as [minlen|s len|s|f| | | | | |size|]; cbn [perform].
  - apply (esb_force_allocation_apart k); auto.
  - unfold esb_appendn.
    destruct s as [s|]; [|exact I].
    destruct (strlen s) as [t|] eqn:Ht; [|exact I].
    apply wlp_bind. apply wlp_if; intros _.
    + apply wlp_bind, wlp_fprintf_stderr. intros m1 Ht1 _ _.
      destruct (touches_apart k _ _ _ Ht1 ltac:(discriminate) Hlt) as (Hk1 & Hlt1).
      apply wlp_ret. apply (esb_appendn_internal_apart k); [split; assumption|].
      intros d' m' Ha' Hk'. split; [exact Ha' | congruence].
    + apply wlp_ret. apply (esb_appendn_internal_apart k); auto.
  - unfold esb_append.
    destruct s as [s|]; [|apply wlp_ret; auto].
    destruct (strlen s) as [t|] eqn:Ht; [|exact I].
    apply wlp_if; intros _; [apply wlp_ret; auto|].
    apply (esb_appendn_internal_apart k); auto.
  - unfold esb_append_printf. apply (esb_append_printf_ap_apart k); auto.
  - apply wlp_bind, (esb_get_string_apart k); [exact Ha|].
    intros r m' Ha' Hk' _. apply wlp_ret. auto.
  - unfold esb_empty_string.
    apply wlp_bind, (lazy_init_apart k data (fun quantum => quantum)); [exact Ha|].
    intros d1 m1 (Hp1 & Hlt1) Hk1. wlp_reduce.
    apply wlp_bind, wlp_store. intros m2 b l _ _ _ Ht2 _ _.
    cbn [esb_string] in Ht2.
    destruct (touches_apart k _ _ _ Ht2 Hp1 Hlt1) as (Hk2 & Hlt2).
    apply wlp_ret. split; [split; assumption | congruence].
  - apply wlp_ret. auto.
  - apply wlp_ret. auto.
  - apply wlp_bind, (esb_get_copy_apart k); [exact Ha|].
    intros r m' Ha' Hk'. apply wlp_ret. auto.
  - apply wlp_bind. unfold wlp, esb_alloc_size. apply wlp_ret.
    split; [split; assumption | reflexivity].
  - unfold esb_destructor, esb_constructor.
    apply wlp_bind. destruct (esb_string data) as [b|] eqn:Hs.
    + apply wlp_bind, wlp_free. intros m1 Ht1 _.
      destruct (touches_apart k _ _ _ Ht1 Hp Hlt) as (Hk1 & Hlt1).
      apply wlp_ret, wlp_ret. split; [split; [discriminate | exact Hlt1] | exact Hk1].
    + apply wlp_ret, wlp_ret. split; [split; [discriminate | exact Hlt] | reflexivity].
Qed.

Lemma perform_all_apart k cs :
  forall data m,
    apart k data m ->
    wlp (perform_all cs data)
        (fun d' m' => apart k d' m' /\ heap m' !! k = heap m !! k) m.
Proof.
  induction cs as [|c cs IH]; intros data m Ha; cbn [perform_all].
  - apply wlp_ret. auto.
  - apply wlp_bind.
    apply (wlp_mono _ _ _ _ (perform_apart k c data m Ha)).
    intros d1 m1 (Ha1 & Hk1).
    apply (wlp_mono _ _ _ _ (IH d1 m1 Ha1)).
    intros d2 m2 (Ha2 & Hk2). split; [exact Ha2 | congruence].
Qed.

(** ** The detached copy *)

Lemma chars_length_le s : (length (chars s) <= length s)%nat.
Proof.
  induction s as [|c s IH]; simpl; [lia|].
  destruct (Ascii.eqb c NUL); simpl; lia.
Qed.

(** C9: [esb_get_copy] returns a null pointer for an empty buffer.
    Otherwise (when [malloc] grants the request) it returns a block that
    was not allocated before, of length + 1 bytes, that starts with the
    string of the buffer and its terminator; the struct and the storage
    of the buffer are as before; and whatever is called on the buffer
    afterwards, the copy stays as it is. *)
Theorem esb_get_copy_detached text data m :
  holds text data m -> allocator_ok m ->
  (esb_string_len data = 0 -> esb_get_copy data m = Ret (data, None) m) /\
  (0 < esb_string_len data ->
   mem_avail m (esb_string_len data + 1) = true ->
   exists c l str m',
     esb_get_copy data m = Ret (data, Some c) m' /\
     heap m !! c = None /\
     heap m' !! c = Some l /\
     Z.of_nat (length l) = esb_string_len data + 1 /\
     as_string data m = Some str /\
     take (length str + 1) l = map Byte str ++ [Byte NUL] /\
     load_cstring (Some c) 0 m' = as_string data m /\
     holds text data m' /\
     storage data m' = storage data m /\
     forall cs d1 m1,
       perform_all cs data m' = Ret d1 m1 -> heap m1 !! c = Some l).
Proof.
  intros H Halloc. unfold esb_string_len. split.
  - intros H0. unfold esb_get_copy, esb_string_len. rewrite H0. reflexivity.
  - intros Hpos Hav.
    pose proof (holds_sizes _ _ _ H) as ((Ha0 & Ha1) & Hu0 & Hu1).
    assert (Hcap : 0 < esb_allocated_size data).
    { destruct (Z.eq_dec (esb_allocated_size data) 0) as [E|]; [|lia].
      destruct (holds_unallocated _ _ _ H E) as (_ & _ & ?). lia. }
    destruct (holds_allocated _ _ _ H Hcap)
      as (b & rest & Hs & Hb & Ha & Hu & _).
    set (c := next_block m).
    assert (Hfresh : heap m !! c = None) by (apply Halloc; unfold c; lia).
    assert (Hbc : c <> b) by (intros E; rewrite E in Hfresh; congruence).
    pose proof (chars_length_le text) as Hchars.
    set (R := replicate (Z.to_nat (esb_used_bytes data + 1)) Undef).
    set (l := take (Z.to_nat 0) R ++ map Byte (chars text ++ [NUL])
              ++ drop (Z.to_nat 0 + length (map Byte (chars text ++ [NUL])))%nat R).
    set (m0 := Machine (alloc_size m) (<[c := R]> (heap m)) (Pos.succ c)
                       (mem_avail m) (stderr m)).
    set (m' := set_heap (<[c := l]> (heap m0)) m0).
    assert (Hlen : Z.of_nat (length l) = esb_used_bytes data + 1).
    { unfold l, R. rewrite !length_app, length_take, length_drop, length_map,
        length_app, length_replicate. simpl length. lia. }
    assert (Hrun : esb_get_copy data m = Ret (data, Some c) m').
    { unfold esb_get_copy, esb_string_len.
      destruct (Z.eqb_spec (esb_used_bytes data) 0); [lia|].
      rewrite to_size_t_small by (unfold is_size_t; lia).
      unfold bind at 1. unfold malloc. rewrite Hav. fold c R m0.
      unfold esb_get_string.
      destruct (Z.eqb_spec (esb_allocated_size data) 0); [lia|].
      unfold bind at 1. unfold bind at 1. unfold ret at 1. unfold ret at 1.
      cbn [fst snd]. unfold bind, strcpy.
      assert (Hload : load_cstring (esb_string data) 0 m0 = Some (chars text)).
      { unfold load_cstring. rewrite Hs. cbn [heap m0].
        rewrite lookup_insert_ne by exact Hbc. rewrite Hb.
        apply cstring_of_content. }
      rewrite Hload.
      rewrite (store_bytes_eq c 0 _ R m0).
      - reflexivity.
      - cbn [heap m0]. apply lookup_insert_eq.
      - lia.
      - unfold R. rewrite length_map, length_app, length_replicate.
        simpl length. lia. }
    assert (Hc' : heap m' !! c = Some l).
    { unfold m'. cbn [heap set_heap]. apply lookup_insert_eq. }
    assert (Hb' : heap m' !! b = heap m !! b).
    { unfold m'. cbn [heap set_heap m0].
      rewrite !lookup_insert_ne by exact Hbc. reflexivity. }
    assert (Hl : l = map Byte (chars text)
                     ++ Byte NUL
                        :: drop (length (map Byte (chars text ++ [NUL]))) R).
    { unfold l. change (Z.to_nat 0) with 0%nat.
      rewrite take_0, map_app, <- app_assoc. reflexivity. }
    assert (Hstart : take (length (chars text) + 1) l
                     = map Byte (chars text) ++ [Byte NUL]).
    { rewrite Hl.
      change (Byte NUL :: ?t) with ([Byte NUL] ++ t). rewrite app_assoc.
      rewrite take_app_length'; [reflexivity|].
      rewrite length_app, length_map. reflexivity. }
    exists c, l, (chars text), m'.
    split; [exact Hrun|]. split; [exact Hfresh|]. split; [exact Hc'|].
    split; [exact Hlen|].
    split; [apply (holds_as_string _ _ _ H Hcap)|].
    split; [exact Hstart|]. split.
    { rewrite (holds_as_string _ _ _ H Hcap).
      unfold load_cstring. rewrite Hc'. change (Z.to_nat 0) with 0%nat.
      rewrite drop_0, Hl. cbn [Z.leb Z.compare]. rewrite cstring_of_content.
      rewrite chars_id by apply chars_no_NUL. reflexivity. }
    split.
    { unfold holds. destruct H as (Hu' & Hr' & _).
      split; [exact Hu'|]. split; [exact Hr'|].
      rewrite Hs. exists rest. rewrite Hb'. split; assumption. }
    split; [unfold storage; rewrite Hs; exact Hb'|].
    intros cs d1 m1 Hafter.
    assert (Hapart : apart c data m').
    { split; [rewrite Hs; congruence|]. unfold m', m0. cbn [next_block set_heap]. lia. }
    pose proof (perform_all_apart c cs data m' Hapart) as Hframe.
    apply (wlp_elim _ _ _ _ _ Hframe) in Hafter.
    destruct Hafter as (_ & ->). exact Hc'.
Qed.

Lemma allocator_ok_ab : allocator_ok ab_machine.
Proof.
  intros b Hb. unfold ab_machine in *. cbn [heap next_block] in *.
  apply lookup_singleton_ne. lia.
Defined.

Lemma esb_get_copy_detached_witness :
  (esb_string_len ab_buffer = 0 ->
   esb_get_copy ab_buffer ab_machine = Ret (ab_buffer, None) ab_machine) /\
  (0 < esb_string_len ab_buffer ->
   mem_avail ab_machine (esb_string_len ab_buffer + 1) = true ->
   exists c l str m',
     esb_get_copy ab_buffer ab_machine = Ret (ab_buffer, Some c) m' /\
     heap ab_machine !! c = None /\
     heap m' !! c = Some l /\
     Z.of_nat (length l) = esb_string_len ab_buffer + 1 /\
     as_string ab_buffer ab_machine = Some str /\
     take (length str + 1) l = map Byte str ++ [Byte NUL] /\
     load_cstring (Some c) 0 m' = as_string ab_buffer ab_machine /\
     holds (text_of "ab") ab_buffer m' /\
     storage ab_buffer m' = storage ab_buffer ab_machine /\
     forall cs d1 m1,
       perform_all cs ab_buffer m' = Ret d1 m1 -> heap m1 !! c = Some l).
Proof.
  apply (esb_get_copy_detached (text_of "ab") ab_buffer ab_machine).
  - exact holds_ab.
  - exact allocator_ok_ab.
Defined.

Example esb_get_copy_example :
  match (let* r := esb_get_copy ab_buffer in
         let* d := esb_empty_string (fst r) in
         let* d := esb_append d (literal "zz") in
         fun m => Ret (load_cstring (snd r) 0 m, as_string d m) m) ab_machine with
  | Ret (copy, source) _ =>
      copy = Some (text_of "ab") /\ source = Some (text_of "zz")
  | _ => False
  end.
Proof. vm_compute. split; reflexivity. Qed.

(** * Further properties of esb.c *)

(** ** Emptying, reading and destroying *)

Lemma insert_head {A} (x : A) (l : list A) :
  l <> [] -> <[0%nat := x]> l = x :: drop 1 l.
Proof. destruct l; [congruence | reflexivity]. Qed.

(** [esb_empty_string] on a valid buffer: the buffer is valid and empty
    and reads back as the empty string; an allocated buffer keeps its
    storage block and its capacity and nothing is allocated; an
    unallocated one gets [alloc_size + 1] bytes. *)
Theorem esb_empty_string_clears text data m :
  holds text data m -> is_size_t (alloc_size m) ->
  (esb_allocated_size data = 0 ->
   alloc_size m + 1 < SIZE_MODULUS /\ mem_avail m (alloc_size m + 1) = true) ->
  exists d' m',
    esb_empty_string data m = Ret d' m' /\
    holds [] d' m' /\
    as_string d' m' = Some [] /\
    same_process m m' /\
    (0 < esb_allocated_size data ->
     esb_string d' = esb_string data /\
     esb_allocated_size d' = esb_allocated_size data /\
     next_block m' = next_block m) /\
    (esb_allocated_size data = 0 -> esb_allocated_size d' = alloc_size m + 1).
Proof.
  intros H Hq Hmem.
  destruct (ensure_initialised text data m (fun quantum => quantum) H Hq Hq)
    as (d1 & m1 & Hrun1 & Hh1 & Hpos1 & Hsame1 & Hfresh & Hold).
  { intros H0. rewrite Z.max_id. apply Hmem, H0. }
  destruct (holds_allocated _ _ _ Hh1 Hpos1)
    as (b & rest & Hs & Hb & Ha & Hu & Hlt).
  set (l := map Byte text ++ Byte NUL :: rest) in *.
  assert (Hl : l <> []) by (unfold l; destruct text; discriminate).
  assert (Hlen : Z.of_nat (length l) = esb_allocated_size d1).
  { unfold l. rewrite length_app, length_map. simpl length. lia. }
  set (d' := Esb (Some b) (esb_allocated_size d1) 0).
  set (m' := set_heap (<[b := <[Z.to_nat 0 := Byte NUL]> l]> (heap m1)) m1).
  assert (Hrun : esb_empty_string data m = Ret d' m').
  { unfold esb_empty_string. cbv zeta. unfold bind at 1. rewrite Hrun1.
    unfold bind. cbn [esb_string]. rewrite Hs.
    rewrite (store_eq b 0 (Byte NUL) l m1 Hb) by lia. reflexivity. }
  assert (Hh' : holds [] d' m').
  { unfold holds, d', m'. cbn [esb_string esb_used_bytes esb_allocated_size
                               heap set_heap length map app].
    split; [reflexivity|]. split; [lia|].
    exists (drop 1 l). rewrite lookup_insert_eq. split.
    - f_equal. apply insert_head. exact Hl.
    - rewrite length_drop. destruct l; [congruence | simpl length in *; lia]. }
  exists d', m'. split; [exact Hrun|]. split; [exact Hh'|].
  split; [apply (holds_as_string [] d' m' Hh'); unfold d'; simpl; lia|].
  split.
  { apply (same_process_trans m m1 m'); [exact Hsame1 | repeat split]. }
  split.
  - intros Hpos. destruct (Hold Hpos) as (E1 & E2).
    unfold d', m'. cbn [esb_string esb_allocated_size next_block set_heap].
    rewrite <- Hs, E1, E2. repeat split.
  - intros H0. unfold d'. cbn [esb_allocated_size].
    rewrite (Hfresh H0), Z.max_id. reflexivity.
Qed.

Lemma esb_empty_string_clears_witness :
  exists d' m',
    esb_empty_string ab_buffer ab_machine = Ret d' m' /\
    holds [] d' m' /\
    as_string d' m' = Some [] /\
    same_process ab_machine m' /\
    (0 < esb_allocated_size ab_buffer ->
     esb_string d' = esb_string ab_buffer /\
     esb_allocated_size d' = esb_allocated_size ab_buffer /\
     next_block m' = next_block ab_machine) /\
    (esb_allocated_size ab_buffer = 0 ->
     esb_allocated_size d' = alloc_size ab_machine + 1).
Proof.
  apply (esb_empty_string_clears (text_of "ab") ab_buffer ab_machine).
  - exact holds_ab.
  - unfold is_size_t, ab_machine, INITIAL_ALLOC_SELFTEST, alloc_size.
    rewrite size_modulus_value. lia.
  - unfold ab_buffer, esb_allocated_size. lia.
Defined.

(** [esb_get_string] on a valid buffer never returns a null pointer: it
    returns the storage, which holds the characters of the content and
    a terminator; an allocated buffer and the machine are left as they
    are, an unallocated buffer is given storage first; and a second call
    returns the same pointer and changes nothing. *)
Theorem esb_get_string_never_null text data m :
  holds text data m -> is_size_t (alloc_size m) ->
  (esb_allocated_size data = 0 ->
   alloc_size m + 1 < SIZE_MODULUS /\ mem_avail m (alloc_size m + 1) = true) ->
  exists d' p m',
    esb_get_string data m = Ret (d', Some p) m' /\
    esb_string d' = Some p /\
    load_cstring (Some p) 0 m' = Some (chars text) /\
    holds text d' m' /\
    (0 < esb_allocated_size data -> d' = data /\ m' = m) /\
    esb_get_string d' m' = Ret (d', Some p) m'.
Proof.
  intros H Hq Hmem.
  destruct (ensure_initialised text data m (fun quantum => quantum) H Hq Hq)
    as (d1 & m1 & Hrun1 & Hh1 & Hpos1 & Hsame1 & Hfresh & Hold).
  { intros H0. rewrite Z.max_id. apply Hmem, H0. }
  destruct (holds_allocated _ _ _ Hh1 Hpos1)
    as (b & rest & Hs & Hb & Ha & Hu & Hlt).
  exists d1, b, m1.
  split.
  { unfold esb_get_string. unfold bind at 1. rewrite Hrun1.
    unfold ret. rewrite Hs. reflexivity. }
  split; [exact Hs|]. split.
  { rewrite <- Hs. apply (holds_as_string _ _ _ Hh1 Hpos1). }
  split; [exact Hh1|]. split; [exact Hold|].
  unfold esb_get_string, bind.
  destruct (Z.eqb_spec (esb_allocated_size d1) 0); [lia|].
  unfold ret. rewrite Hs. reflexivity.
Qed.

Lemma esb_get_string_never_null_witness :
  exists d' p m',
    esb_get_string (Esb None 0 0) (boot INITIAL_ALLOC always_available)
    = Ret (d', Some p) m' /\
    esb_string d' = Some p /\
    load_cstring (Some p) 0 m' = Some (chars []) /\
    holds [] d' m' /\
    (0 < esb_allocated_size (Esb None 0 0) ->
     d' = Esb None 0 0 /\ m' = boot INITIAL_ALLOC always_available) /\
    esb_get_string d' m' = Ret (d', Some p) m'.
Proof.
  apply (esb_get_string_never_null [] (Esb None 0 0)
           (boot INITIAL_ALLOC always_available)).
  - unfold holds. simpl. rewrite size_modulus_value. repeat split; lia.
  - unfold is_size_t, boot, INITIAL_ALLOC, alloc_size.
    rewrite size_modulus_value. lia.
  - intros _. unfold boot, INITIAL_ALLOC, alloc_size.
    rewrite size_modulus_value. split; [lia | reflexivity].
Defined.

(** [esb_destructor] on a buffer whose storage is live or null: the
    struct is as after [esb_constructor], the storage block is released
    and every other block is as before; and a second [esb_destructor]
    changes nothing. *)
Theorem esb_destructor_releases data m :
  storage_live data m ->
  exists m',
    esb_destructor data m = Ret (Esb None 0 0) m' /\
    heap m' = match esb_string data with
              | Some b => delete b (heap m)
              | None => heap m
              end /\
    same_process m m' /\
    next_block m' = next_block m /\
    esb_destructor (Esb None 0 0) m' = Ret (Esb None 0 0) m'.
Proof.
  intros Hlive. unfold storage_live in Hlive.
  unfold esb_destructor, esb_constructor.
  destruct (esb_string data) as [b|].
  - destruct Hlive as (l & Hb).
    exists (set_heap (delete b (heap m)) m).
    unfold bind, free. rewrite Hb. repeat split.
  - exists m. repeat split.
Qed.

Lemma esb_destructor_releases_witness :
  exists m',
    esb_destructor ab_buffer ab_machine = Ret (Esb None 0 0) m' /\
    heap m' = delete 1%positive (heap ab_machine) /\
    same_process ab_machine m' /\
    next_block m' = next_block ab_machine /\
    esb_destructor (Esb None 0 0) m' = Ret (Esb None 0 0) m'.
Proof.
  apply (esb_destructor_releases ab_buffer ab_machine).
  exact (holds_storage_live _ _ _ holds_ab).
Defined.

(** ** When the allocator refuses *)

(** [esb_get_copy] does not test what [malloc] returns: when the request
    for length + 1 bytes is refused on a non-empty valid buffer, the null
    pointer goes to [strcpy], which is undefined behaviour, not the
    [exit(5)] of the other allocations. *)
Theorem esb_get_copy_unchecked_malloc text data m :
  holds text data m -> 0 < esb_string_len data ->
  mem_avail m (esb_string_len data + 1) = false ->
  esb_get_copy data m = Fault.
Proof.
  unfold esb_string_len. intros H Hpos Hav.
  pose proof (holds_sizes _ _ _ H) as ((Ha0 & Ha1) & Hu0 & Hu1).
  assert (Hcap : 0 < esb_allocated_size data) by lia.
  destruct (holds_allocated _ _ _ H Hcap) as (b & rest & _ & _ & Ha & Hu & _).
  unfold esb_get_copy, esb_string_len.
  destruct (Z.eqb_spec (esb_used_bytes data) 0); [lia|].
  rewrite to_size_t_small by (unfold is_size_t; lia).
  unfold bind at 1. unfold malloc. rewrite Hav.
  unfold esb_get_string.
  destruct (Z.eqb_spec (esb_allocated_size data) 0); [lia|].
  unfold bind, ret. cbn [fst snd]. unfold strcpy.
  fold (as_string data m). rewrite (holds_as_string _ _ _ H Hcap).
  destruct (chars text); reflexivity.
Qed.

Lemma esb_get_copy_unchecked_malloc_witness :
  esb_get_copy ab_buffer
    (Machine INITIAL_ALLOC_SELFTEST (heap ab_machine) 2%positive
             (fun _ => false) [])
  = Fault.
Proof.
  apply (esb_get_copy_unchecked_malloc (text_of "ab")).
  - apply holds_ab.
  - unfold esb_string_len, ab_buffer, esb_used_bytes. lia.
  - reflexivity.
Defined.

Lemma init_esb_string_refused data min_len m :
  esb_allocated_size data = 0 ->
  is_size_t min_len -> is_size_t (alloc_size m) ->
  Z.max min_len (alloc_size m) + 1 < SIZE_MODULUS ->
  mem_avail m (Z.max min_len (alloc_size m) + 1) = false ->
  init_esb_string data min_len m
  = Exit 5 (Machine (alloc_size m) (heap m) (next_block m) (mem_avail m)
                    (stderr m
                     ++ [OutOfMemoryAllocating (Z.max min_len (alloc_size m) + 1)])).
Proof.
  intros H0 Hl Hq Hb Hav.
  unfold init_esb_string. rewrite H0. simpl.
  unfold bind, get_alloc_size.
  rewrite min_len_with_terminator by assumption.
  unfold malloc. rewrite Hav. reflexivity.
Qed.

(** An [esb_append] whose allocation is refused: the process exits with
    status 5 after one diagnostic that names the size asked for,
    [max(len, alloc_size) + 1] from [malloc] for an unallocated buffer
    and [max(capacity + len, alloc_size)] from [realloc] when the room
    left is not more than [len]; the heap, and with it the content, is
    untouched. *)
Theorem esb_append_out_of_memory text data s t m :
  holds text data m -> strlen s = Some t -> 0 < t ->
  is_size_t (alloc_size m) ->
  Z.max (esb_allocated_size data) (alloc_size m + 1) + t < SIZE_MODULUS ->
  (esb_allocated_size data = 0 ->
   mem_avail m (Z.max t (alloc_size m) + 1) = false ->
   exists m',
     esb_append data (Some s) m = Exit 5 m' /\
     heap m' = heap m /\
     stderr m' = stderr m ++ [OutOfMemoryAllocating (Z.max t (alloc_size m) + 1)]) /\
  (0 < esb_allocated_size data ->
   esb_allocated_size data - esb_used_bytes data <= t ->
   mem_avail m (Z.max (esb_allocated_size data + t) (alloc_size m)) = false ->
   exists m',
     esb_append data (Some s) m = Exit 5 m' /\
     heap m' = heap m /\
     stderr m' = stderr m
                 ++ [OutOfMemoryReallocating
                       (Z.max (esb_allocated_size data + t) (alloc_size m))]).
Proof.
  intros H Hs Ht Hq Hb.
  pose proof (holds_sizes _ _ _ H) as ((Ha0 & Ha1) & Hu0 & Hu1).
  unfold is_size_t in Hq.
  assert (Hrun : esb_append data (Some s) m = esb_appendn_internal data s t m).
  { unfold esb_append. rewrite Hs.
    destruct (Z.eqb_spec t 0); [lia | reflexivity]. }
  rewrite Hrun. unfold esb_appendn_internal. cbv zeta. split.
  - intros H0 Hav. unfold bind at 1.
    rewrite H0. cbn [Z.eqb]. unfold bind at 1. unfold get_alloc_size.
    assert (Hmax : (if t >=? alloc_size m then t else alloc_size m)
                   = Z.max t (alloc_size m)).
    { destruct (Z.geb_spec t (alloc_size m)); lia. }
    rewrite Hmax.
    rewrite init_esb_string_refused;
      rewrite ?Z.max_id, ?Z.max_assoc; try assumption;
      try (unfold is_size_t; lia).
    + replace (Z.max (Z.max t (alloc_size m)) (alloc_size m))
        with (Z.max t (alloc_size m)) by lia.
      eexists. split; [reflexivity|]. split; reflexivity.
    + replace (Z.max (Z.max t (alloc_size m)) (alloc_size m))
        with (Z.max t (alloc_size m)) by lia. exact Hav.
  - intros Hpos Hfull Hav. unfold bind at 1.
    destruct (Z.eqb_spec (esb_allocated_size data) 0); [lia|].
    unfold ret at 1. unfold bind at 1.
    rewrite to_size_t_small by (unfold is_size_t; lia).
    destruct (Z.leb_spec (esb_allocated_size data - esb_used_bytes data) t); [|lia].
    rewrite esb_allocate_more_fails.
    + rewrite new_size_of_max by (unfold is_size_t; lia).
      eexists. split; [reflexivity|]. split; reflexivity.
    + apply (holds_storage_live _ _ _ H).
    + rewrite new_size_of_max by (unfold is_size_t; lia). exact Hav.
Qed.

Lemma esb_append_out_of_memory_witness :
  (esb_allocated_size ab_buffer = 0 ->
   (fun _ : Z => false) (Z.max 3 1 + 1) = false ->
   exists m',
     esb_append ab_buffer (literal "xyz")
       (Machine INITIAL_ALLOC_SELFTEST (heap ab_machine) 2%positive
                (fun _ => false) []) = Exit 5 m' /\
     heap m' = heap ab_machine /\
     stderr m' = [] ++ [OutOfMemoryAllocating (Z.max 3 1 + 1)]) /\
  (0 < esb_allocated_size ab_buffer ->
   esb_allocated_size ab_buffer - esb_used_bytes ab_buffer <= 3 ->
   (fun _ : Z => false) (Z.max (4 + 3) 1) = false ->
   exists m',
     esb_append ab_buffer (literal "xyz")
       (Machine INITIAL_ALLOC_SELFTEST (heap ab_machine) 2%positive
                (fun _ => false) []) = Exit 5 m' /\
     heap m' = heap ab_machine /\
     stderr m' = [] ++ [OutOfMemoryReallocating (Z.max (4 + 3) 1)]).
Proof.
  apply (esb_append_out_of_memory (text_of "ab") ab_buffer
           (text_of "xyz" ++ [NUL]) 3
           (Machine INITIAL_ALLOC_SELFTEST (heap ab_machine) 2%positive
                    (fun _ => false) [])).
  - apply holds_ab.
  - reflexivity.
  - lia.
  - unfold is_size_t, INITIAL_ALLOC_SELFTEST, alloc_size.
    rewrite size_modulus_value. lia.
  - unfold ab_buffer, INITIAL_ALLOC_SELFTEST, alloc_size, esb_allocated_size.
    rewrite size_modulus_value. lia.
Defined.

(** ** The growth law of an append *)

Lemma stores_of_holds text data m :
  holds text data m -> 0 < esb_allocated_size data -> stores text data m.
Proof.
  intros H Hpos.
  destruct (holds_allocated _ _ _ H Hpos) as (b & rest & Hs & Hb & Ha & Hu & _).
  destruct H as (_ & Hr & _).
  split; [exact Hu|]. split; [exact Hr|].
  exists b, (Byte NUL), rest. auto.
Qed.

(** As [write_piece], over whatever byte followed the content. *)
Lemma write_piece_over text x rest (piece : list ascii) :
  (length piece <= length rest)%nat ->
  <[(length text + length piece)%nat := Byte NUL]>
    (take (length text) (map Byte text ++ x :: rest)
     ++ map Byte piece
     ++ drop (length text + length (map Byte piece))
             (map Byte text ++ x :: rest))
  = map Byte (text ++ piece) ++ Byte NUL :: drop (length piece) rest.
Proof.
  intros Hfit.
  rewrite take_app_length' by (rewrite length_map; reflexivity).
  rewrite drop_app_add' by (rewrite length_map; reflexivity).
  rewrite length_map, map_app, <- app_assoc.
  rewrite <- (length_map Byte text) at 1.
  rewrite insert_app_r.
  rewrite <- (length_map Byte piece) at 1.
  rewrite <- (Nat.add_0_r (length (map Byte piece))) at 1.
  rewrite insert_app_r.
  do 2 f_equal.
  destruct piece as [|c piece]; [reflexivity|].
  simpl length in *. simpl drop at 1.
  destruct (drop (length piece) rest) as [|y tl] eqn:E.
  - apply (f_equal length) in E. rewrite length_drop in E. simpl in E. lia.
  - simpl. f_equal.
    change (S (length piece)) with (1 + length piece)%nat.
    rewrite Nat.add_comm, <- drop_drop, E. reflexivity.
Qed.

(** The copy and the terminator of [esb_appendn_internal] when there is
    room, whatever byte followed the content: the struct keeps its
    storage pointer and capacity, nothing is allocated, and the buffer
    is valid afterwards. *)
Lemma copy_and_terminate_stores text data s len piece m :
  stores text data m ->
  strncpy_image s (Z.to_nat len) = Some piece -> 0 <= len ->
  esb_used_bytes data + len < esb_allocated_size data ->
  exists m3,
    (let* _ := strncpy (esb_string data) (esb_used_bytes data) s len in
     let data := Esb (esb_string data) (esb_allocated_size data)
                     (to_size_t (esb_used_bytes data + len)) in
     let* _ := store (esb_string data) (esb_used_bytes data) (Byte NUL) in
     ret data) m
    = Ret (Esb (esb_string data) (esb_allocated_size data)
               (esb_used_bytes data + len)) m3 /\
    holds (text ++ piece)
          (Esb (esb_string data) (esb_allocated_size data)
               (esb_used_bytes data + len)) m3 /\
    same_process m m3 /\
    next_block m3 = next_block m /\
    forall k, esb_string data <> Some k -> heap m3 !! k = heap m !! k.
Proof.
  intros (Hu & Hr & b & x & rest & Hs & Hblk & Ha) Himg Hlen Hroom.
  pose proof (strncpy_image_length _ _ _ Himg) as Hpl.
  assert (Hfit : (length piece <= length rest)%nat) by lia.
  unfold bind, strncpy. rewrite Himg, Hs.
  rewrite (store_bytes_eq b _ _ _ m Hblk)
    by (rewrite ?length_app, ?length_map; simpl length; lia).
  cbn [esb_string esb_used_bytes].
  rewrite to_size_t_small by (unfold is_size_t in *; lia).
  erewrite store_eq;
    [|cbn [heap set_heap]; apply lookup_insert_eq
     |rewrite !length_app, length_take, length_drop, !length_app, !length_map;
      simpl length; lia].
  eexists. split; [reflexivity|].
  split; [|split; [repeat split | split; [reflexivity|]]].
  - unfold holds.
    cbn [esb_string esb_used_bytes esb_allocated_size heap set_heap].
    split; [rewrite length_app; lia|].
    split; [exact Hr|].
    exists (drop (length piece) rest).
    rewrite insert_insert_eq, lookup_insert_eq. split.
    + f_equal. rewrite Hu, Nat2Z.id.
      replace (Z.to_nat (Z.of_nat (length text) + len))
        with (length text + length piece)%nat by lia.
      apply write_piece_over. exact Hfit.
    + rewrite length_app, length_drop. lia.
  - intros k Hk. cbn [heap set_heap].
    rewrite !lookup_insert_ne by congruence. reflexivity.
Qed.

Lemma strncpy_image_whole s t :
  strlen s = Some t -> strncpy_image s (Z.to_nat t) = Some (chars s).
Proof.
  intros Hs. destruct (strlen_split s t Hs) as (rest & Hsplit & Hn).
  rewrite Hsplit at 1.
  rewrite (strncpy_image_prefix _ _ _ (chars_no_NUL s)) by lia.
  rewrite take_ge by lia. reflexivity.
Qed.

(** The growth law of [esb_append] on a valid buffer, for a non-empty
    string of [t] characters: the first allocation has
    [max(t, alloc_size) + 1] bytes; an allocated buffer whose room is
    not more than [t] is reallocated to [max(capacity + t, alloc_size)];
    and when the room is more than [t], the capacity and the storage
    pointer stay and nothing is allocated, so pointers obtained from
    [esb_get_string] remain good. *)
Theorem esb_append_growth text data s t m :
  holds text data m -> strlen s = Some t -> 0 < t ->
  is_size_t (alloc_size m) ->
  Z.max (esb_allocated_size data) (alloc_size m + 1) + t < SIZE_MODULUS ->
  enough_memory m (Z.max (esb_allocated_size data) (alloc_size m + 1) + t) ->
  exists d' m',
    esb_append data (Some s) m = Ret d' m' /\
    holds (text ++ chars s) d' m' /\
    esb_allocated_size d'
    = (if esb_allocated_size data =? 0 then Z.max t (alloc_size m) + 1
       else if esb_allocated_size data - esb_used_bytes data <=? t
            then Z.max (esb_allocated_size data + t) (alloc_size m)
            else esb_allocated_size data) /\
    (t < esb_allocated_size data - esb_used_bytes data ->
     esb_string d' = esb_string data /\ next_block m' = next_block m /\
     forall k, esb_string data <> Some k -> heap m' !! k = heap m !! k).
Proof.
  intros H Hs Ht Hq Hb Hmem.
  pose proof (holds_sizes _ _ _ H) as ((Ha0 & Ha1) & Hu0 & Hu1).
  unfold is_size_t in Hq.
  pose proof (strncpy_image_whole s t Hs) as Himg.
  assert (Hrun0 : esb_append data (Some s) m = esb_appendn_internal data s t m).
  { unfold esb_append. rewrite Hs.
    destruct (Z.eqb_spec t 0); [lia | reflexivity]. }
  assert (Hg : (if t >=? alloc_size m then t else alloc_size m)
               = Z.max t (alloc_size m)).
  { destruct (Z.geb_spec t (alloc_size m)); lia. }
  destruct (ensure_initialised text data m
              (fun quantum => if t >=? quantum then t else quantum))
    as (d1 & m1 & Hrun1 & Hh1 & Hpos1 & Hsame1 & Hfresh & Hold).
  { exact H. }
  { cbv beta. rewrite Hg. unfold is_size_t. lia. }
  { unfold is_size_t. exact Hq. }
  { intros H0. cbv beta. rewrite Hg. split; [lia | apply Hmem; lia]. }
  cbv beta in Hfresh. rewrite Hg in Hfresh.
  pose proof Hsame1 as (Hq1 & Hav1 & _).
  assert (Hu1' : esb_allocated_size data = 0 -> esb_used_bytes d1 = 0).
  { intros H0. destruct (holds_unallocated _ _ _ H H0) as (_ & -> & _).
    destruct Hh1 as (? & _). assumption. }
  destruct (make_room text d1 t m1)
    as (d2 & m2 & Hrun2 & Hh2 & Hroom & Hfull2 & Hkeep2 & Hsame2);
    try assumption; try lia.
  { rewrite Hq1. unfold is_size_t. lia. }
  { intros Hfull. rewrite Hq1, Hav1.
    destruct (Z.eq_dec (esb_allocated_size data) 0) as [H0|Hne].
    - rewrite (Hfresh H0), (Hu1' H0) in Hfull. lia.
    - destruct Hold as (-> & _); [lia|]. split; [lia | apply Hmem; lia]. }
  assert (Hpos2 : 0 < esb_allocated_size d2) by (destruct Hh2 as (? & _); lia).
  destruct (copy_and_terminate_stores text d2 s t (chars s) m2
              (stores_of_holds _ _ _ Hh2 Hpos2) Himg ltac:(lia) Hroom)
    as (m3 & Hrun3 & Hh3 & Hsame3 & Hn3 & Hother).
  eexists _, m3. split.
  { rewrite Hrun0. unfold esb_appendn_internal. cbv zeta.
    unfold bind at 1. rewrite Hrun1. unfold bind at 1. rewrite Hrun2.
    exact Hrun3. }
  split; [exact Hh3|]. cbn [esb_allocated_size esb_string]. split.
  - destruct (Z.eqb_spec (esb_allocated_size data) 0) as [H0|Hne].
    + destruct Hkeep2 as (-> & _); [rewrite (Hfresh H0), (Hu1' H0); lia|].
      rewrite (Hfresh H0). lia.
    + destruct Hold as (E1 & E2); [lia|]. subst d1 m1.
      destruct (Z.leb_spec (esb_allocated_size data - esb_used_bytes data) t)
        as [Hfull|Hfree].
      * apply Hfull2, Hfull.
      * destruct Hkeep2 as (-> & _); [lia | reflexivity].
  - intros Hfree.
    assert (Hne : 0 < esb_allocated_size data) by lia.
    destruct Hold as (E1 & E2); [exact Hne|]. subst d1 m1.
    destruct Hkeep2 as (E1 & E2); [exact Hfree|]. subst d2 m2.
    split; [reflexivity|]. split; [exact Hn3 | exact Hother].
Qed.

Lemma esb_append_growth_witness :
  exists d' m',
    esb_append ab_buffer (literal "z") ab_machine = Ret d' m' /\
    holds (text_of "ab" ++ text_of "z") d' m' /\
    esb_allocated_size d' = 4 /\
    (1 < esb_allocated_size ab_buffer - esb_used_bytes ab_buffer ->
     esb_string d' = esb_string ab_buffer /\
     next_block m' = next_block ab_machine /\
     forall k, esb_string ab_buffer <> Some k ->
               heap m' !! k = heap ab_machine !! k).
Proof.
  apply (esb_append_growth (text_of "ab") ab_buffer (text_of "z" ++ [NUL]) 1
           ab_machine).
  - exact holds_ab.
  - reflexivity.
  - lia.
  - unfold is_size_t, ab_machine, INITIAL_ALLOC_SELFTEST, alloc_size.
    rewrite size_modulus_value. lia.
  - unfold ab_buffer, ab_machine, INITIAL_ALLOC_SELFTEST, alloc_size,
      esb_allocated_size.
    rewrite size_modulus_value. lia.
  - intros n _. reflexivity.
Defined.

(** ** Pre-sizing a constructed buffer *)

(** [esb_force_allocation] on a constructed buffer followed by
    [esb_append] of a non-empty string shorter than the forced
    capacity: one allocation of [max(minlen, alloc_size)] bytes serves
    both, and the append leaves a valid buffer that holds the string,
    although the forced storage itself starts with indeterminate
    bytes. *)
Theorem force_allocation_then_append minlen s t m :
  is_size_t minlen -> 0 < minlen -> is_size_t (alloc_size m) ->
  strlen s = Some t -> 0 < t < Z.max minlen (alloc_size m) ->
  mem_avail m (Z.max minlen (alloc_size m)) = true ->
  exists d' m',
    (let* d := esb_force_allocation (Esb None 0 0) minlen in
     esb_append d (Some s)) m = Ret d' m' /\
    holds (chars s) d' m' /\
    esb_allocated_size d' = Z.max minlen (alloc_size m) /\
    esb_string d' = Some (next_block m) /\
    next_block m' = Pos.succ (next_block m).
Proof.
  intros Hm Hpos Hq Hs Ht Hav.
  set (d0 := Esb None 0 0).
  assert (Hn : new_size_of d0 (to_size_t (minlen - esb_allocated_size d0)) m
               = Z.max minlen (alloc_size m)).
  { apply force_increment; [|exact Hm | exact Hq | exact Hpos].
    unfold is_size_t, d0, esb_allocated_size. rewrite size_modulus_value. lia. }
  set (n := Z.max minlen (alloc_size m)) in *.
  set (d1 := Esb (Some (next_block m)) n 0).
  set (m1 := Machine (alloc_size m)
                     (<[next_block m := replicate (Z.to_nat n) Undef]> (heap m))
                     (Pos.succ (next_block m)) (mem_avail m) (stderr m)).
  assert (Hrun1 : esb_force_allocation d0 minlen m = Ret d1 m1).
  { unfold esb_force_allocation.
    destruct (Z.ltb_spec (esb_allocated_size d0) minlen) as [_|Hge];
      [|unfold d0, esb_allocated_size in Hge; lia].
    rewrite esb_allocate_more_null; [|reflexivity | rewrite Hn; exact Hav].
    rewrite Hn. reflexivity. }
  unfold is_size_t in *.
  assert (Hstores : stores [] d1 m1).
  { unfold stores, d1, m1.
    cbn [esb_used_bytes esb_allocated_size esb_string heap length map app].
    split; [reflexivity|]. split; [unfold n; lia|].
    exists (next_block m), Undef, (replicate (Z.to_nat (n - 1)) Undef).
    split; [reflexivity|]. rewrite lookup_insert_eq. split.
    - f_equal. replace (Z.to_nat n) with (S (Z.to_nat (n - 1))) by (unfold n; lia).
      reflexivity.
    - rewrite length_replicate. unfold n. lia. }
  destruct (copy_and_terminate_stores [] d1 s t (chars s) m1 Hstores
              (strncpy_image_whole s t Hs))
    as (m3 & Hrun3 & Hh3 & Hsame3 & Hn3 & _).
  { lia. }
  { unfold d1. cbn [esb_used_bytes esb_allocated_size]. lia. }
  eexists _, m3. split.
  { unfold bind at 1. rewrite Hrun1. unfold esb_append. rewrite Hs.
    destruct (Z.eqb_spec t 0); [lia|].
    unfold esb_appendn_internal. cbv zeta.
    unfold bind at 1.
    replace (esb_allocated_size d1 =? 0) with false
      by (symmetry; apply Z.eqb_neq; unfold d1, n; cbn [esb_allocated_size]; lia).
    unfold ret at 1. unfold bind at 1.
    rewrite to_size_t_small
      by (unfold is_size_t, d1, n; cbn [esb_allocated_size esb_used_bytes]; lia).
    replace (esb_allocated_size d1 - esb_used_bytes d1 <=? t) with false
      by (symmetry; apply Z.leb_gt; unfold d1, n;
          cbn [esb_allocated_size esb_used_bytes]; lia).
    unfold ret at 1. exact Hrun3. }
  split; [exact Hh3|]. split; [reflexivity|]. split; [reflexivity|].
  rewrite Hn3. reflexivity.
Qed.

Lemma force_allocation_then_append_witness :
  exists d' m',
    (let* d := esb_force_allocation (Esb None 0 0) 7 in
     esb_append d (literal "aaaa i"))
      (boot INITIAL_ALLOC_SELFTEST always_available) = Ret d' m' /\
    holds (text_of "aaaa i") d' m' /\
    esb_allocated_size d' = Z.max 7 1 /\
    esb_string d' = Some 1%positive /\
    next_block m' = 2%positive.
Proof.
  apply (force_allocation_then_append 7 (text_of "aaaa i" ++ [NUL]) 6
           (boot INITIAL_ALLOC_SELFTEST always_available)).
  - unfold is_size_t. rewrite size_modulus_value. lia.
  - lia.
  - unfold is_size_t, boot, INITIAL_ALLOC_SELFTEST, alloc_size.
    rewrite size_modulus_value. lia.
  - reflexivity.
  - unfold boot, INITIAL_ALLOC_SELFTEST, alloc_size. lia.
  - reflexivity.
Defined.

(** ** The formatted append when the format expands *)

Lemma to_int_small x : 0 <= x <= INT_MAX -> to_int x = x.
Proof.
  unfold INT_MAX, to_int. intros Hx.
  rewrite Z.mod_small by lia.
  destruct (Z.ltb_spec x (2 ^ 31)); lia.
Qed.

Lemma measure_expanding data text m :
  Z.of_nat (length text) < INT_MAX ->
  esb_allocate_more_if_needed data (Expands text) m
  = esb_force_allocation data (Z.of_nat (length text) + 1) m.
Proof.
  intros Hl. unfold esb_allocate_more_if_needed, vsnprintf_result.
  destruct (Z.leb_spec (Z.of_nat (length text)) INT_MAX); [|lia].
  unfold int_add, in_int_range, bind.
  destruct (Z.leb_spec INT_MIN (Z.of_nat (length text) + 1));
    [|unfold INT_MIN in *; lia].
  destruct (Z.leb_spec (Z.of_nat (length text) + 1) INT_MAX); [|lia].
  cbn [andb]. unfold ret.
  rewrite to_size_t_small; [reflexivity|].
  unfold is_size_t, INT_MAX in *. rewrite size_modulus_value. lia.
Qed.

(** After the measure phase on a valid buffer the storage has the
    content and room for at least one byte. *)
Lemma measure_phase_stores text data len m :
  holds text data m -> 0 <= len < INT_MAX -> is_size_t (alloc_size m) ->
  (esb_allocated_size data < len + 1 ->
   mem_avail m (Z.max (len + 1) (alloc_size m)) = true) ->
  exists d1 m1,
    esb_force_allocation data (len + 1) m = Ret d1 m1 /\
    stores text d1 m1 /\
    esb_allocated_size d1 = capacity_after_measure data len m /\
    same_process m m1.
Proof.
  intros H Hlen Hq Hav.
  pose proof (holds_sizes _ _ _ H) as (Ha & Hu).
  assert (Hm : is_size_t (len + 1)).
  { unfold is_size_t, INT_MAX in *. rewrite size_modulus_value. lia. }
  unfold capacity_after_measure, esb_force_allocation.
  destruct (Z.ltb_spec (esb_allocated_size data) (len + 1)) as [Hlt|Hge].
  - specialize (Hav Hlt).
    pose proof (force_increment data (len + 1) m Ha Hm Hq Hlt) as Hn.
    destruct (Z.eq_dec (esb_allocated_size data) 0) as [H0|Hne].
    + destruct (holds_unallocated _ _ _ H H0) as (Hs & -> & Hu0).
      rewrite esb_allocate_more_null; [|exact Hs | rewrite Hn; exact Hav].
      rewrite Hn. do 2 eexists. split; [reflexivity|].
      split; [|split; [reflexivity | repeat split]].
      unfold stores.
      cbn [esb_used_bytes esb_allocated_size esb_string heap length map app].
      unfold is_size_t in *.
      split; [exact Hu0|]. split; [lia|].
      exists (next_block m), Undef,
             (replicate (Z.to_nat (Z.max (len + 1) (alloc_size m) - 1)) Undef).
      split; [reflexivity|]. rewrite lookup_insert_eq. split.
      * f_equal.
        replace (Z.to_nat (Z.max (len + 1) (alloc_size m)))
          with (S (Z.to_nat (Z.max (len + 1) (alloc_size m) - 1))) by lia.
        reflexivity.
      * rewrite length_replicate. lia.
    + unfold is_size_t in *.
      rewrite (to_size_t_small (len + 1 - _)) in * by (unfold is_size_t; lia).
      destruct (esb_allocate_more_holds text data
                  (len + 1 - esb_allocated_size data) m)
        as (d2 & m2 & Hrun & Hh & Hcap & Hsame); try assumption; try lia.
      { replace (esb_allocated_size data + (len + 1 - esb_allocated_size data))
          with (len + 1) by lia. exact Hav. }
      exists d2, m2. split; [exact Hrun|].
      split; [apply stores_of_holds; [exact Hh | lia]|].
      split; [|exact Hsame]. rewrite Hcap. f_equal. lia.
  - exists data, m. split; [reflexivity|].
    split; [apply stores_of_holds; [exact H | lia]|].
    split; [reflexivity | apply same_process_refl].
Qed.

Lemma write_text_over text x rest (w : list ascii) :
  (length w <= length rest)%nat ->
  take (length text) (map Byte text ++ x :: rest)
  ++ map Byte (w ++ [NUL])
  ++ drop (length text + length (map Byte (w ++ [NUL])))
          (map Byte text ++ x :: rest)
  = map Byte (text ++ w) ++ Byte NUL :: drop (length w) rest.
Proof.
  intros Hfit.
  rewrite take_app_length' by (rewrite length_map; reflexivity).
  rewrite drop_app_add' by (rewrite length_map; reflexivity).
  rewrite length_map, length_app, !map_app, <- !app_assoc.
  cbn [length map app]. rewrite Nat.add_comm. reflexivity.
Qed.

(** The formatted append on a valid buffer, whenever the room [r] that
    the measure phase leaves is at most [INT_MAX] and differs from the
    length of the expansion:
    the characters that fit in [r - 1] bytes are appended and
    terminated, and the capacity is the one the measure phase left. *)
Lemma esb_append_printf_ap_expands text data t m :
  holds text data m ->
  Z.of_nat (length t) < INT_MAX -> is_size_t (alloc_size m) ->
  (esb_allocated_size data < Z.of_nat (length t) + 1 ->
   mem_avail m (Z.max (Z.of_nat (length t) + 1) (alloc_size m)) = true) ->
  capacity_after_measure data (Z.of_nat (length t)) m - esb_used_bytes data
    <= INT_MAX ->
  capacity_after_measure data (Z.of_nat (length t)) m - esb_used_bytes data
    <> Z.of_nat (length t) ->
  exists d' m',
    esb_append_printf_ap data (Expands t) m = Ret d' m' /\
    holds (text
           ++ take (Z.to_nat (capacity_after_measure data (Z.of_nat (length t)) m
                              - esb_used_bytes data - 1)) t) d' m' /\
    esb_allocated_size d' = capacity_after_measure data (Z.of_nat (length t)) m /\
    same_process m m'.
Proof.
  intros H Hl Hq Hav Hint Hne.
  destruct (measure_phase_stores text data (Z.of_nat (length t)) m H
              ltac:(lia) Hq Hav)
    as (d1 & m1 & Hrun1 & Hst & Hcap & Hsame1).
  rewrite <- Hcap in *.
  assert (Hu1 : esb_used_bytes d1 = esb_used_bytes data).
  { destruct Hst as (Hu & _). destruct H as (Hu0 & _). congruence. }
  rewrite <- Hu1 in *.
  destruct Hst as (Hu & Hr & b & x & rest & Hs & Hblk & Ha).
  set (r := esb_allocated_size d1 - esb_used_bytes d1) in *.
  assert (Hrpos : 0 < r) by (unfold r; lia).
  set (w := take (Z.to_nat (r - 1)) t).
  assert (Hw : (length w <= length rest)%nat).
  { unfold w. rewrite length_take. unfold r. lia. }
  assert (Hsize : to_size_t r = r).
  { apply to_size_t_small. unfold is_size_t, INT_MAX in *.
    rewrite size_modulus_value. lia. }
  assert (Hused : to_size_t (esb_used_bytes d1 + Z.of_nat (length w))
                  = esb_used_bytes d1 + Z.of_nat (length w)).
  { apply to_size_t_small. unfold is_size_t. lia. }
  assert (Hadv : (if r <? Z.of_nat (length t) then r - 1 else Z.of_nat (length t))
                 = Z.of_nat (length w)).
  { unfold w. rewrite length_take.
    destruct (Z.ltb_spec r (Z.of_nat (length t))); lia. }
  eexists (Esb (esb_string d1) (esb_allocated_size d1)
               (esb_used_bytes d1 + Z.of_nat (length w))), _.
  split.
  { unfold esb_append_printf_ap. unfold bind at 1.
    rewrite measure_expanding by exact Hl. rewrite Hrun1.
    fold r. rewrite Hsize, (to_int_small r) by lia. rewrite Hsize.
    unfold bind at 1. unfold vsnprintf.
    destruct (Z.leb_spec (Z.of_nat (length t)) INT_MAX); [|lia].
    destruct (Z.eqb_spec r 0); [lia|].
    unfold bind at 1. fold w. rewrite Hs.
    rewrite (store_bytes_eq b _ _ _ m1 Hblk);
      [|lia
       |rewrite length_map, !length_app, length_map; simpl length; lia].
    unfold ret at 1.
    destruct (Z.ltb_spec (Z.of_nat (length t)) 0); [lia|].
    destruct (Z.ltb_spec r (Z.of_nat (length t))) as [Hsmall|Hbig].
    - unfold bind, int_add, in_int_range.
      destruct (Z.leb_spec INT_MIN (r + -1)); [|unfold INT_MIN in *; lia].
      destruct (Z.leb_spec (r + -1) INT_MAX); [|lia].
      cbn [andb]. unfold ret.
      rewrite (to_size_t_small (r + -1))
        by (unfold is_size_t, INT_MAX in *; rewrite size_modulus_value; lia).
      replace (esb_used_bytes d1 + (r + -1))
        with (esb_used_bytes d1 + Z.of_nat (length w)) by lia.
      rewrite Hused. reflexivity.
    - unfold ret.
      rewrite (to_size_t_small (Z.of_nat (length t)))
        by (unfold is_size_t, INT_MAX in *; rewrite size_modulus_value; lia).
      replace (esb_used_bytes d1 + Z.of_nat (length t))
        with (esb_used_bytes d1 + Z.of_nat (length w)) by lia.
      rewrite Hused. reflexivity. }
  split; [|split; [reflexivity|]].
  - unfold holds.
    cbn [esb_string esb_used_bytes esb_allocated_size heap set_heap].
    split; [rewrite length_app; lia|]. split; [exact Hr|].
    rewrite Hs. exists (drop (length w) rest).
    rewrite lookup_insert_eq. split.
    + f_equal. rewrite Hu, Nat2Z.id. apply write_text_over. exact Hw.
    + rewrite length_app, length_drop. lia.
  - apply (same_process_trans m m1 _ Hsame1). repeat split.
Qed.

(** The formatted append on a valid buffer when the room the measure
    phase leaves is at most [INT_MAX], so that the [int] [netlen] holds
    it, and the expansion is shorter than that room: the whole
    expansion is appended and terminated, the length grows by its
    length, and the capacity is unchanged unless it was below that
    length plus one.  What a room above [INT_MAX] leads to is shown in the
    section on a room that is no [int]. *)
Theorem esb_append_printf_fits text data t m :
  holds text data m ->
  Z.of_nat (length t) < INT_MAX -> is_size_t (alloc_size m) ->
  (esb_allocated_size data < Z.of_nat (length t) + 1 ->
   mem_avail m (Z.max (Z.of_nat (length t) + 1) (alloc_size m)) = true) ->
  capacity_after_measure data (Z.of_nat (length t)) m - esb_used_bytes data
    <= INT_MAX ->
  Z.of_nat (length t)
    < capacity_after_measure data (Z.of_nat (length t)) m - esb_used_bytes data ->
  exists d' m',
    esb_append_printf_ap data (Expands t) m = Ret d' m' /\
    holds (text ++ t) d' m' /\
    esb_string_len d' = esb_string_len data + Z.of_nat (length t) /\
    esb_allocated_size d' = capacity_after_measure data (Z.of_nat (length t)) m /\
    (Z.of_nat (length t) < esb_allocated_size data ->
     esb_allocated_size d' = esb_allocated_size data).
Proof.
  intros H Hl Hq Hav Hint Hroom.
  destruct (esb_append_printf_ap_expands text data t m H Hl Hq Hav Hint)
    as (d' & m' & Hrun & Hh & Hcap & _); [lia|].
  rewrite take_ge in Hh by lia.
  exists d', m'. split; [exact Hrun|]. split; [exact Hh|].
  split.
  { destruct Hh as (Hu' & _). destruct H as (Hu & _).
    unfold esb_string_len. rewrite Hu', Hu, length_app. lia. }
  split; [exact Hcap|].
  intros Hbig. rewrite Hcap. unfold capacity_after_measure.
  destruct (Z.ltb_spec (esb_allocated_size data) (Z.of_nat (length t) + 1));
    [lia | reflexivity].
Qed.


Lemma esb_append_printf_fits_witness :
  exists d' m',
    esb_append_printf_ap ab_buffer (Expands (text_of "z")) ab_machine
    = Ret d' m' /\
    holds (text_of "ab" ++ text_of "z") d' m' /\
    esb_string_len d' = esb_string_len ab_buffer + 1 /\
    esb_allocated_size d' = capacity_after_measure ab_buffer 1 ab_machine /\
    (1 < esb_allocated_size ab_buffer ->
     esb_allocated_size d' = esb_allocated_size ab_buffer).
Proof.
  apply (esb_append_printf_fits (text_of "ab") ab_buffer (text_of "z") ab_machine).
  - exact holds_ab.
  - unfold INT_MAX. simpl. lia.
  - unfold is_size_t, ab_machine, INITIAL_ALLOC_SELFTEST, alloc_size.
    rewrite size_modulus_value. lia.
  - intros _. reflexivity.
  - unfold INT_MAX. vm_compute. discriminate.
  - vm_compute. reflexivity.
Defined.


(** ** Appends with any claimed length *)

Lemma take_chars s t len :
  strlen s = Some t -> 0 <= len <= t ->
  take (Z.to_nat len) s = take (Z.to_nat len) (chars s).
Proof.
  intros Hs Hlen. destruct (strlen_split s t Hs) as (rest & Hsplit & Hn).
  rewrite Hsplit at 1. rewrite take_app_le by lia. reflexivity.
Qed.

(** One append of a terminated string, whatever length is claimed. *)
Lemma perform_clamped c text data m :
  terminated_input c -> holds text data m -> is_size_t (alloc_size m) ->
  Z.max (esb_allocated_size data) (alloc_size m + 1)
    + Z.of_nat (length (clamped c)) < SIZE_MODULUS ->
  enough_memory m
    (Z.max (esb_allocated_size data) (alloc_size m + 1)
     + Z.of_nat (length (clamped c))) ->
  exists d1 m1,
    perform c data m = Ret d1 m1 /\
    holds (text ++ clamped c) d1 m1 /\
    alloc_size m1 = alloc_size m /\
    mem_avail m1 = mem_avail m /\
    stderr m1 = stderr m ++ complaint c /\
    esb_allocated_size d1
      <= Z.max (esb_allocated_size data) (alloc_size m + 1)
         + Z.of_nat (length (clamped c)) /\
    Forall (fun a => a <> NUL) (clamped c).
Proof.
  intros Hc H Hq Hb Hmem.
  destruct c as [| [s|] len | [s|] | | | | | | | |]; simpl in Hc; try contradiction.
  - (* esb_appendn *)
    destruct (strlen s) as [t|] eqn:Hs; [|contradiction].
    pose proof (strlen_nonneg _ _ Hs) as Ht.
    destruct (strlen_split s t Hs) as (rest & Hsplit & Hn).
    pose proof (chars_no_NUL s) as Hnn.
    cbn [clamped complaint perform] in *. rewrite Hs.
    unfold is_size_t in Hc.
    destruct (Z.ltb_spec t len) as [Hshort|Hok].
    + (* the claimed length is clamped *)
      rewrite take_ge in * by lia.
      set (m0 := Machine (alloc_size m) (heap m) (next_block m) (mem_avail m)
                         (stderr m ++ [BadStringLength t len])).
      destruct (esb_appendn_internal_holds text data s t (chars s) m0)
        as (d1 & m1 & Hrun & Hh & (Hq1 & Hav1 & Herr1) & Hcap);
        try assumption; try lia.
      { apply strncpy_image_whole. exact Hs. }
      { cbn [alloc_size m0]. lia. }
      { cbn [alloc_size m0]. intros n Hn'. apply Hmem. lia. }
      exists d1, m1.
      split; [rewrite (esb_appendn_short _ _ t) by assumption; exact Hrun|].
      split; [exact Hh|]. split; [exact Hq1|]. split; [exact Hav1|].
      split; [exact Herr1|]. split; [|exact Hnn].
      cbn [alloc_size m0] in Hcap. lia.
    + assert (Hlen : Z.of_nat (length (take (Z.to_nat len) (chars s))) = len).
      { rewrite length_take. lia. }
      rewrite Hlen in *.
      destruct (strncpy_image_truthful s t len Hs ltac:(lia)) as (Himg & _ & _).
      rewrite (take_chars s t len Hs) in Himg by lia.
      destruct (esb_appendn_internal_holds text data s len _ m H Himg)
        as (d1 & m1 & Hrun & Hh & (Hq1 & Hav1 & Herr1) & Hcap);
        try assumption; try lia.
      exists d1, m1.
      split; [rewrite (esb_appendn_truthful _ _ t) by (assumption || lia);
              exact Hrun|].
      split; [exact Hh|]. split; [exact Hq1|]. split; [exact Hav1|].
      split; [rewrite app_nil_r; exact Herr1|].
      split; [lia | apply Forall_take; exact Hnn].
  - (* esb_append *)
    destruct (strlen s) as [t|] eqn:Hs; [|contradiction].
    destruct (strlen_split s t Hs) as (rest & _ & Hn).
    assert (Hal : appended_length (CallAppend (Some s))
                  = Z.of_nat (length (clamped (CallAppend (Some s))))).
    { cbn [appended_length clamped]. rewrite Hs, Hn. reflexivity. }
    destruct (perform_append (CallAppend (Some s)) text data m)
      as (d1 & m1 & Hrun & Hh & (Hq1 & Hav1 & Herr1) & Hcap & Hnn & Hlen);
      try assumption.
    { simpl. rewrite Hs. exact I. }
    { rewrite Hal. exact Hb. }
    { rewrite Hal. exact Hmem. }
    exists d1, m1. cbn [clamped complaint appended] in *.
    split; [exact Hrun|]. split; [exact Hh|]. split; [exact Hq1|].
    split; [exact Hav1|]. split; [rewrite app_nil_r; exact Herr1|].
    split; [|exact Hnn]. rewrite Hlen in *. exact Hcap.
Qed.

Lemma perform_all_clamped cs :
  forall text data m,
    Forall terminated_input cs -> holds text data m ->
    is_size_t (alloc_size m) ->
    Z.max (esb_allocated_size data) (alloc_size m + 1)
      + Z.of_nat (length (concat (map clamped cs))) < SIZE_MODULUS ->
    enough_memory m
      (Z.max (esb_allocated_size data) (alloc_size m + 1)
       + Z.of_nat (length (concat (map clamped cs)))) ->
    exists d' m',
      perform_all cs data m = Ret d' m' /\
      holds (text ++ concat (map clamped cs)) d' m' /\
      alloc_size m' = alloc_size m /\
      mem_avail m' = mem_avail m /\
      stderr m' = stderr m ++ concat (map complaint cs) /\
      Forall (fun a => a <> NUL) (concat (map clamped cs)).
Proof.
  induction cs as [|c cs IH]; intros text data m Hcs H Hq Hb Hmem.
  - exists data, m. simpl. rewrite !app_nil_r.
    split; [reflexivity|]. split; [exact H|]. repeat split. constructor.
  - inversion Hcs as [|? ? Hc Hcs']; subst.
    cbn [map concat] in *. rewrite length_app in Hb, Hmem.
    destruct (perform_clamped c text data m)
      as (d1 & m1 & Hrun1 & Hh1 & Hq1 & Hav1 & Herr1 & Hcap1 & Hnn1);
      try assumption.
    { lia. }
    { apply (enough_memory_le _ _ _ Hmem). lia. }
    pose proof (holds_sizes _ _ _ H) as ((Ha0 & _) & _).
    unfold is_size_t in Hq.
    destruct (IH (text ++ clamped c) d1 m1)
      as (d' & m' & Hrun & Hh & Hq' & Hav' & Herr' & Hnn); try assumption.
    { rewrite Hq1. exact Hq. }
    { rewrite Hq1. lia. }
    { intros n Hn. rewrite Hav1. apply Hmem. rewrite Hq1 in Hn. lia. }
    exists d', m'. split.
    { cbn [perform_all]. unfold bind. rewrite Hrun1. exact Hrun. }
    split; [rewrite app_assoc; exact Hh|].
    split; [congruence|]. split; [congruence|].
    split; [rewrite Herr', Herr1, app_assoc; reflexivity|].
    apply Forall_app. split; assumption.
Qed.

(** On a freshly constructed buffer, after any sequence of [esb_append]
    and [esb_appendn] calls with terminated strings, whatever lengths
    are claimed: the content is the concatenation of the strings, each
    cut at the claimed length when that is shorter; [esb_string_len] is
    the [strlen] of what [esb_get_string] gives; and [stderr] has
    received one diagnostic for each claimed length that was too
    long, in call order. *)
Theorem appends_keep_strlen garbage cs m :
  Forall terminated_input cs -> is_size_t (alloc_size m) ->
  alloc_size m + 1 + Z.of_nat (length (concat (map clamped cs))) < SIZE_MODULUS ->
  enough_memory m
    (alloc_size m + 1 + Z.of_nat (length (concat (map clamped cs)))) ->
  exists d' m' m'',
    (let* d := esb_constructor garbage in perform_all cs d) m = Ret d' m' /\
    read_back d' m' = Ret (Some (concat (map clamped cs))) m'' /\
    esb_string_len d' = Z.of_nat (length (concat (map clamped cs))) /\
    stderr m' = stderr m ++ concat (map complaint cs).
Proof.
  intros Hcs Hq Hb Hmem.
  assert (H0 : holds [] (Esb None 0 0) m).
  { unfold holds. simpl. rewrite size_modulus_value. repeat split; lia. }
  unfold is_size_t in Hq.
  destruct (perform_all_clamped cs [] (Esb None 0 0) m)
    as (d' & m' & Hrun & Hh & Hq' & Hav' & Herr & Hnn); try assumption.
  { simpl. lia. }
  { apply (enough_memory_le _ _ _ Hmem). simpl. lia. }
  simpl in Hh.
  destruct (ensure_initialised _ d' m' (fun quantum => quantum) Hh)
    as (d1 & m1 & Hrun1 & Hh1 & Hpos1 & _).
  { rewrite Hq'. exact Hq. }
  { rewrite Hq'. exact Hq. }
  { intros _. rewrite Hq', Hav'. split; [lia | apply Hmem; lia]. }
  exists d', m', m1. split; [exact Hrun|]. split.
  { unfold read_back, esb_get_string.
    unfold bind at 1. unfold bind at 1. rewrite Hrun1.
    unfold ret. cbn [snd]. f_equal. fold (as_string d1 m1).
    rewrite (holds_as_string _ _ _ Hh1 Hpos1).
    rewrite chars_id by exact Hnn. reflexivity. }
  split; [destruct Hh as (Hu & _); exact Hu | exact Herr].
Qed.

Lemma appends_keep_strlen_witness :
  exists d' m' m'',
    (let* d := esb_constructor (Esb None 0 0) in
     perform_all [CallAppendn oddarray 6; CallAppendn (literal "cc") 1] d)
      (boot INITIAL_ALLOC_SELFTEST always_available) = Ret d' m' /\
    read_back d' m' = Ret (Some (text_of "abc")) m'' /\
    esb_string_len d' = 3 /\
    stderr m' = [] ++ [BadStringLength 2 6].
Proof.
  apply (appends_keep_strlen (Esb None 0 0)
           [CallAppendn oddarray 6; CallAppendn (literal "cc") 1]
           (boot INITIAL_ALLOC_SELFTEST always_available)).
  - repeat (apply List.Forall_cons;
            [simpl; unfold is_size_t; rewrite size_modulus_value; lia|]).
    apply List.Forall_nil.
  - unfold is_size_t, boot, INITIAL_ALLOC_SELFTEST, alloc_size.
    rewrite size_modulus_value. lia.
  - rewrite size_modulus_value. vm_compute. reflexivity.
  - intros n _. reflexivity.
Defined.

(** ** A room that is no [int] *)

Lemma to_int_high x : 2 ^ 31 <= x < 2 ^ 32 -> to_int x = x - 2 ^ 32.
Proof.
  unfold to_int. intros Hx. rewrite Z.mod_small by lia.
  destruct (Z.ltb_spec x (2 ^ 31)); lia.
Qed.

(** The room is read into the [int] [netlen].  On a valid buffer whose
    room [r] lies between [2^31 + 1] and [2^32 - 1], [netlen] is the
    negative [r - 2^32]: the expansion is stored whole and terminated,
    but the length is advanced by [netlen - 1] read as a [size_t], and
    is not the old length plus the length of the expansion. *)
Lemma esb_append_printf_room_beyond_int text data t m :
  holds text data m -> Z.of_nat (length t) < INT_MAX ->
  2 ^ 31 < esb_allocated_size data - esb_used_bytes data < 2 ^ 32 ->
  exists m',
    esb_append_printf_ap data (Expands t) m
    = Ret (Esb (esb_string data) (esb_allocated_size data)
               (to_size_t (esb_used_bytes data
                           + (esb_allocated_size data - esb_used_bytes data
                              - 2 ^ 32 - 1)))) m' /\
    holds (text ++ t)
          (Esb (esb_string data) (esb_allocated_size data)
               (esb_used_bytes data + Z.of_nat (length t))) m' /\
    to_size_t (esb_used_bytes data
               + (esb_allocated_size data - esb_used_bytes data - 2 ^ 32 - 1))
    <> esb_used_bytes data + Z.of_nat (length t).
Proof.
  intros H Hl Hroom.
  assert (E31 : 2 ^ 31 = 2147483648) by reflexivity.
  assert (E32 : 2 ^ 32 = 4294967296) by reflexivity.
  assert (Hmax : INT_MAX = 2147483647) by reflexivity.
  assert (Hmin : INT_MIN = -2147483648) by reflexivity.
  pose proof size_modulus_value as Hmod.
  pose proof (holds_sizes _ _ _ H) as ((Ha0 & Ha1) & Hu0 & Hu1).
  assert (Hpos : 0 < esb_allocated_size data) by lia.
  destruct (holds_allocated _ _ _ H Hpos) as (b & rest & Hs & Hb & Ha & Hu & Hlt).
  set (r := esb_allocated_size data - esb_used_bytes data) in *.
  assert (Hfit : (length t <= length rest)%nat) by (unfold r in *; lia).
  assert (Hsize : to_size_t r = r).
  { apply to_size_t_small. unfold is_size_t. lia. }
  assert (Hneg : to_size_t (r - 2 ^ 32) = r - 2 ^ 32 + SIZE_MODULUS).
  { apply to_size_t_below. lia. }
  set (m' := set_heap
               (<[b := map Byte (text ++ t) ++ Byte NUL :: drop (length t) rest]>
                  (heap m)) m).
  exists m'. split; [|split].
  - unfold esb_append_printf_ap. unfold bind at 1.
    rewrite measure_expanding by exact Hl. unfold esb_force_allocation.
    destruct (Z.ltb_spec (esb_allocated_size data) (Z.of_nat (length t) + 1));
      [lia|].
    unfold ret at 1. fold r. rewrite Hsize, (to_int_high r) by lia.
    rewrite Hneg. unfold bind at 1. unfold vsnprintf.
    destruct (Z.leb_spec (Z.of_nat (length t)) INT_MAX); [|lia].
    destruct (Z.eqb_spec (r - 2 ^ 32 + SIZE_MODULUS) 0); [lia|].
    unfold bind at 1. rewrite take_ge by lia. rewrite Hs.
    rewrite (store_bytes_eq b _ _ _ m Hb);
      [|lia
       |rewrite length_map, !length_app, length_map; simpl length; lia].
    unfold ret at 1.
    destruct (Z.ltb_spec (Z.of_nat (length t)) 0); [lia|].
    destruct (Z.ltb_spec (r - 2 ^ 32) (Z.of_nat (length t))); [|lia].
    unfold bind, int_add, in_int_range.
    destruct (Z.leb_spec INT_MIN (r - 2 ^ 32 + -1)); [|lia].
    destruct (Z.leb_spec (r - 2 ^ 32 + -1) INT_MAX); [|lia].
    cbn [andb]. unfold ret.
    rewrite (to_size_t_below (r - 2 ^ 32 + -1)) by lia.
    replace (esb_used_bytes data + (r - 2 ^ 32 + -1 + SIZE_MODULUS))
      with (esb_used_bytes data + (r - 2 ^ 32 - 1) + 1 * SIZE_MODULUS) by lia.
    rewrite to_size_t_shift.
    rewrite Hu. rewrite Nat2Z.id.
    rewrite (write_text_over text (Byte NUL) rest t Hfit). reflexivity.
  - unfold holds. cbn [esb_string esb_used_bytes esb_allocated_size].
    split; [rewrite length_app; lia|]. split; [lia|].
    rewrite Hs. exists (drop (length t) rest).
    split; [unfold m'; cbn [heap set_heap]; apply lookup_insert_eq|].
    rewrite length_app, length_drop. lia.
  - destruct (Z.lt_ge_cases (esb_used_bytes data + (r - 2 ^ 32 - 1)) 0).
    + rewrite to_size_t_below by lia. lia.
    + rewrite to_size_t_small by (unfold is_size_t; lia). lia.
Qed.

Lemma holds_wide : holds [] wide_buffer wide_machine.
Proof.
  unfold holds, wide_buffer, wide_machine.
  cbn [esb_used_bytes esb_allocated_size esb_string heap length].
  split; [reflexivity|]. split; [rewrite size_modulus_value; lia|].
  exists (replicate (Z.to_nat 3221225471) Undef).
  split; [apply lookup_singleton_eq|].
  rewrite length_replicate, Z2Nat.id by lia. reflexivity.
Qed.

(** Appending "hi" to the empty 3 GiB buffer: the length becomes
    [2^64 - 2^30 - 1]. *)
Lemma esb_append_printf_room_beyond_int_example :
  exists m',
    esb_append_printf_ap wide_buffer (Expands (text_of "hi")) wide_machine
    = Ret (Esb (Some 1%positive) 3221225472 18446744072635809791) m' /\
    holds (text_of "hi") (Esb (Some 1%positive) 3221225472 2) m'.
Proof.
  destruct (esb_append_printf_room_beyond_int [] wide_buffer (text_of "hi")
              wide_machine holds_wide)
    as (m' & Hrun & Hh & _).
  - reflexivity.
  - unfold wide_buffer. cbn [esb_allocated_size esb_used_bytes].
    change (2 ^ 31) with 2147483648. change (2 ^ 32) with 4294967296. lia.
  - exists m'. split; [exact Hrun | exact Hh].
Qed.

(** ** A format that fails after it has produced text *)

(** On any valid allocated buffer, when the format fails with -1 after
    the library has stored the text [t]: the struct is returned as it
    was, length included, but the storage holds the content followed by
    the characters of [t] that fit in the room less one, and a NUL
    behind them.  So the string read from the storage is longer than the
    length says whenever [t] starts with a character and the room is
    more than one byte. *)
Lemma failing_format_keeps_bytes text data t m :
  holds text data m -> 0 < esb_allocated_size data ->
  esb_allocated_size data - esb_used_bytes data <= INT_MAX ->
  let w := take (Z.to_nat (esb_allocated_size data - esb_used_bytes data - 1)) t in
  exists m',
    esb_append_printf_ap data (FormatError (-1) (Some t)) m = Ret data m' /\
    holds (text ++ w)
          (Esb (esb_string data) (esb_allocated_size data)
               (esb_used_bytes data + Z.of_nat (length w))) m' /\
    as_string data m = Some (chars text) /\
    as_string data m' = Some (chars (text ++ w)) /\
    same_process m m'.
Proof.
  intros H Hpos Hint w.
  destruct (holds_allocated _ _ _ H Hpos) as (b & rest & Hs & Hb & Ha & Hu & Hlt).
  set (r := esb_allocated_size data - esb_used_bytes data) in *.
  assert (Hr : 0 < r) by (unfold r; lia).
  assert (Hw : (length w <= length rest)%nat).
  { unfold w. rewrite length_take. unfold r. lia. }
  assert (Hsize : to_size_t r = r).
  { apply to_size_t_small. unfold is_size_t. unfold r. lia. }
  set (m' := set_heap
               (<[b := map Byte (text ++ w) ++ Byte NUL :: drop (length w) rest]>
                  (heap m)) m).
  assert (Hrun : esb_append_printf_ap data (FormatError (-1) (Some t)) m
                 = Ret data m').
  { unfold esb_append_printf_ap. unfold bind at 1.
    rewrite measure_failing_format by (unfold INT_MIN; lia).
    change (to_size_t (-1 + 1)) with 0. unfold esb_force_allocation.
    destruct (Z.ltb_spec (esb_allocated_size data) 0); [lia|].
    unfold ret at 1. fold r. rewrite Hsize, (to_int_small r) by lia.
    rewrite Hsize. unfold bind at 1. unfold vsnprintf.
    destruct (Z.eqb_spec r 0); [lia|].
    unfold bind at 1. fold w. rewrite Hs.
    rewrite (store_bytes_eq b _ _ _ m Hb);
      [|lia
       |rewrite length_map, !length_app, length_map; simpl length; lia].
    unfold ret. cbn [Z.ltb Z.compare].
    rewrite Hu. rewrite Nat2Z.id.
    rewrite (write_text_over text (Byte NUL) rest w Hw). reflexivity. }
  assert (Hh : holds (text ++ w)
                 (Esb (esb_string data) (esb_allocated_size data)
                      (esb_used_bytes data + Z.of_nat (length w))) m').
  { unfold holds. cbn [esb_string esb_used_bytes esb_allocated_size].
    split; [rewrite length_app; lia|].
    split; [destruct H as (_ & ? & _); assumption|].
    rewrite Hs. exists (drop (length w) rest).
    split; [unfold m'; cbn [heap set_heap]; apply lookup_insert_eq|].
    rewrite length_app, length_drop. lia. }
  exists m'. split; [exact Hrun|]. split; [exact Hh|].
  split; [apply (holds_as_string _ _ _ H Hpos)|].
  split; [|unfold m'; repeat split].
  apply (holds_as_string _ _ _ Hh). exact Hpos.
Qed.

Lemma failing_format_keeps_bytes_example :
  exists m',
    esb_append_printf_ap ab_buffer (FormatError (-1) (Some (text_of "xyz")))
                         ab_machine = Ret ab_buffer m' /\
    as_string ab_buffer ab_machine = Some (text_of "ab") /\
    as_string ab_buffer m' = Some (text_of "abx").
Proof.
  destruct (failing_format_keeps_bytes (text_of "ab") ab_buffer (text_of "xyz")
              ab_machine holds_ab)
    as (m' & Hrun & _ & Hbefore & Hafter & _).
  - reflexivity.
  - vm_compute. discriminate.
  - exists m'. split; [exact Hrun|]. split; [exact Hbefore | exact Hafter].
Defined.

(** ** No block is leaked *)

Lemma wlp_conj {A} (c : M A) (Q1 Q2 : A -> machine -> Prop) m :
  wlp c Q1 m -> wlp c Q2 m -> wlp c (fun a m' => Q1 a m' /\ Q2 a m') m.
Proof. unfold wlp. destruct (c m); auto. Qed.

Lemma wlp_forall {A B} (c : M A) (Q : B -> A -> machine -> Prop) m :
  (forall x, wlp c (Q x) m) -> wlp c (fun a m' => forall x, Q x a m') m.
Proof.
  unfold wlp. intros H. destruct (c m) as [a m'| |]; auto.
Qed.

Lemma overwrites_refl p m : overwrites p m m.
Proof. repeat split. left. reflexivity. Qed.

Lemma wlp_malloc_moves n m Q :
  Q None m ->
  (forall m', moves None m m' ->
              heap m' !! next_block m = Some (replicate (Z.to_nat n) Undef) ->
              Q (Some (next_block m)) m') ->
  wlp (malloc n) Q m.
Proof.
  intros Hnone Hsome. unfold wlp, malloc.
  destruct (mem_avail m n); [|exact Hnone].
  apply Hsome.
  - split; [reflexivity|]. split; [reflexivity|]. eexists. reflexivity.
  - apply lookup_insert_eq.
Qed.

Lemma wlp_realloc_moves p n m Q :
  Q None m ->
  (forall m', moves p m m' -> Q (Some (next_block m)) m') ->
  wlp (realloc p n) Q m.
Proof.
  intros Hnone Hsome. destruct p as [b|].
  - unfold wlp, realloc.
    destruct (heap m !! b) as [old|]; [|exact I].
    destruct (mem_avail m n); [|exact Hnone].
    apply Hsome. split; [reflexivity|]. split; [reflexivity|].
    eexists. reflexivity.
  - apply wlp_malloc_moves; [exact Hnone|]. intros m' Hm _. apply Hsome, Hm.
Qed.

Lemma wlp_store_overwrites p i v m Q :
  (forall m' b l,
      overwrites p m m' -> p = Some b -> heap m !! b = Some l ->
      0 <= i < Z.of_nat (length l) -> Q tt m') ->
  wlp (store p i v) Q m.
Proof.
  intros HQ. unfold wlp, store.
  destruct p as [b|]; [|exact I].
  destruct (heap m !! b) as [l|] eqn:Hb; [|exact I].
  destruct (Z.leb_spec 0 i); [|exact I].
  destruct (Z.ltb_spec i (Z.of_nat (length l))); [|exact I].
  cbn [andb]. apply (HQ _ b l); try reflexivity; try assumption; try lia.
  split; [reflexivity|]. split; [reflexivity|].
  right. exists b, l. eexists. repeat split. exact Hb.
Qed.

Lemma wlp_store_bytes_overwrites p off vs m Q :
  (forall m', overwrites p m m' -> Q tt m') ->
  wlp (store_bytes p off vs) Q m.
Proof.
  intros HQ. destruct vs as [|v vs].
  - apply HQ, overwrites_refl.
  - unfold wlp, store_bytes.
    destruct p as [b|]; [|exact I].
    destruct (heap m !! b) as [l|] eqn:Hb; [|exact I].
    destruct (_ && _); [|exact I].
    apply HQ. split; [reflexivity|]. split; [reflexivity|].
    right. exists b, l. eexists. repeat split. exact Hb.
Qed.

Lemma wlp_strncpy_overwrites p off s len m Q :
  (forall m', overwrites p m m' -> Q tt m') ->
  wlp (strncpy p off s len) Q m.
Proof.
  intros HQ. unfold strncpy.
  destruct (strncpy_image s (Z.to_nat len)); [|exact I].
  apply wlp_store_bytes_overwrites, HQ.
Qed.

Lemma wlp_vsnprintf_overwrites p off size f m Q :
  (forall r m', overwrites p m m' -> Q r m') ->
  wlp (vsnprintf p off size f) Q m.
Proof.
  intros HQ.
  assert (Hstores : forall r text,
             wlp (if size =? 0 then ret r
                  else
                    let* _ := store_bytes p off
                                (map Byte (take (Z.to_nat (size - 1)) text
                                           ++ [NUL])) in
                    ret r) Q m).
  { intros r text. apply wlp_if; intros _.
    - apply wlp_ret, HQ, overwrites_refl.
    - apply wlp_bind, wlp_store_bytes_overwrites. intros m' Ho.
      apply wlp_ret, HQ, Ho. }
  unfold vsnprintf. destruct f as [text|code [text|]].
  - apply wlp_if; intros _; apply Hstores.
  - apply Hstores.
  - apply wlp_ret, HQ, overwrites_refl.
Qed.

Lemma owned_overwrites base data data' m m' :
  owned base data m -> overwrites (esb_string data) m m' ->
  esb_string data' = esb_string data ->
  (esb_string data' <> None -> 0 < esb_allocated_size data') ->
  owned base data' m'.
Proof.
  intros (Hbase & Hfresh & Hown & Hq & _) (Hq' & Hn' & Hheap) Hs Hcap.
  assert (Hdom : forall k, is_Some (heap m' !! k) <-> is_Some (heap m !! k)).
  { destruct Hheap as [->|(b & l & l' & _ & Hb & ->)]; [reflexivity|].
    intros k. destruct (decide (b = k)) as [<-|Hne].
    - rewrite lookup_insert_eq, Hb. split; eauto.
    - rewrite lookup_insert_ne by exact Hne. reflexivity. }
  split; [lia|]. split.
  { intros k Hk. rewrite Hn' in Hk. specialize (Hfresh k Hk).
    apply eq_None_not_Some. rewrite Hdom. rewrite Hfresh. intros [? ?].
    discriminate. }
  split.
  { intros k Hk Hlive. rewrite Hs. apply Hown; [exact Hk|]. apply Hdom, Hlive. }
  split; [lia | exact Hcap].
Qed.

Lemma owned_moves base data data' m m' :
  owned base data m -> moves (esb_string data) m m' ->
  esb_string data' = Some (next_block m) ->
  0 < esb_allocated_size data' ->
  owned base data' m'.
Proof.
  intros (Hbase & Hfresh & Hown & Hq & _) (Hq' & Hn' & l & Hheap) Hs Hcap.
  split; [lia|]. split.
  { intros k Hk. rewrite Hn' in Hk. rewrite Hheap.
    rewrite lookup_insert_ne by lia.
    destruct (esb_string data) as [b|].
    - destruct (decide (b = k)) as [<-|Hne];
        [apply lookup_delete_eq|rewrite lookup_delete_ne by exact Hne].
      apply Hfresh. lia.
    - apply Hfresh. lia. }
  split.
  { intros k Hk Hlive. rewrite Hs. f_equal.
    destruct (decide (next_block m = k)) as [E|Hne]; [exact E|]. exfalso.
    rewrite Hheap, lookup_insert_ne in Hlive by exact Hne.
    destruct (esb_string data) as [b|] eqn:Hsd.
    - destruct (decide (b = k)) as [<-|Hnb].
      + rewrite lookup_delete_eq in Hlive. destruct Hlive. discriminate.
      + rewrite lookup_delete_ne in Hlive by exact Hnb.
        pose proof (Hown k Hk Hlive) as E. congruence.
    - pose proof (Hown k Hk Hlive) as E. discriminate. }
  split; [lia|]. intros _. exact Hcap.
Qed.

Lemma owned_process base data m m' :
  owned base data m -> heap m' = heap m -> next_block m' = next_block m ->
  0 < alloc_size m' -> owned base data m'.
Proof.
  intros (Hbase & Hfresh & Hown & Hq & Hcap) Hh Hn Hq'.
  unfold owned. rewrite Hh, Hn. auto.
Qed.

Lemma init_esb_string_owned base data min_len m Q :
  owned base data m ->
  (forall d' m', owned base d' m' -> Q d' m') ->
  wlp (init_esb_string data min_len) Q m.
Proof.
  intros Ho HQ. unfold init_esb_string.
  apply wlp_if; intros Hpos.
  - apply wlp_ret, HQ, Ho.
  - apply gtb_false in Hpos.
    assert (Hs : esb_string data = None).
    { destruct Ho as (_ & _ & _ & _ & Hcap).
      destruct (esb_string data); [|reflexivity].
      assert (0 < esb_allocated_size data) by (apply Hcap; discriminate). lia. }
    apply wlp_bind, wlp_get_alloc_size. wlp_reduce.
    apply wlp_bind, wlp_malloc_moves; wlp_reduce.
    + apply wlp_bind. unfold wlp, fprintf_stderr, bind, exit. exact I.
    + intros m1 Hmoves Hblock.
      apply wlp_bind, wlp_store_overwrites.
      intros m2 b l Hover [= <-] Hb Hrange. cbn [esb_string] in *.
      rewrite Hblock in Hb. injection Hb as <-.
      rewrite length_replicate in Hrange.
      apply wlp_ret, HQ.
      assert (Ho1 : owned base
                      (Esb (Some (next_block m))
                           (if min_len <=? alloc_size m
                            then to_size_t (alloc_size m + 1)
                            else to_size_t (min_len + 1)) 0) m1).
      { apply (owned_moves base data _ m m1 Ho);
          [rewrite Hs; exact Hmoves | reflexivity|].
        cbn [esb_allocated_size]. lia. }
      apply (owned_overwrites base _ _ m1 m2 Ho1 Hover); [reflexivity|].
      intros _. cbn [esb_allocated_size]. lia.
Qed.

Lemma esb_allocate_more_owned base data len m Q :
  owned base data m ->
  (forall d' m', owned base d' m' -> Q d' m') ->
  wlp (esb_allocate_more data len) Q m.
Proof.
  intros Ho HQ. unfold esb_allocate_more.
  apply wlp_bind, wlp_get_alloc_size. wlp_reduce.
  apply wlp_bind, wlp_realloc_moves; wlp_reduce.
  - apply wlp_bind. unfold wlp, fprintf_stderr, bind, exit. exact I.
  - intros m1 Hmoves. apply wlp_ret, HQ.
    apply (owned_moves base data _ m m1 Ho Hmoves); [reflexivity|].
    cbn [esb_allocated_size].
    destruct Ho as (_ & _ & _ & Hq & _).
    destruct (Z.ltb_spec (to_size_t (esb_allocated_size data + len)) (alloc_size m));
      lia.
Qed.

Lemma esb_force_allocation_owned base data minlen m Q :
  owned base data m ->
  (forall d' m', owned base d' m' -> Q d' m') ->
  wlp (esb_force_allocation data minlen) Q m.
Proof.
  intros Ho HQ. unfold esb_force_allocation. apply wlp_if; intros _.
  - apply (esb_allocate_more_owned base); assumption.
  - apply wlp_ret, HQ, Ho.
Qed.

Lemma lazy_init_owned base data (g : Z -> Z) m Q :
  owned base data m ->
  (forall d' m', owned base d' m' -> Q d' m') ->
  wlp (if esb_allocated_size data =? 0
       then let* quantum := get_alloc_size in init_esb_string data (g quantum)
       else ret data) Q m.
Proof.
  intros Ho HQ. apply wlp_if; intros _.
  - apply wlp_bind, wlp_get_alloc_size. wlp_reduce.
    apply (init_esb_string_owned base); assumption.
  - apply wlp_ret, HQ, Ho.
Qed.

Lemma owned_capacity base data m :
  owned base data m -> esb_string data <> None -> 0 < esb_allocated_size data.
Proof. intros (_ & _ & _ & _ & Hcap). exact Hcap. Qed.

Lemma esb_appendn_internal_owned base data s len m Q :
  owned base data m ->
  (forall d' m', owned base d' m' -> Q d' m') ->
  wlp (esb_appendn_internal data s len) Q m.
Proof.
  intros Ho HQ. unfold esb_appendn_internal. wlp_reduce.
  apply wlp_bind,
    (lazy_init_owned base data
       (fun quantum => if len >=? quantum then len else quantum));
    [exact Ho|].
  intros d1 m1 Ho1.
  assert (Hfinish : forall d2 m2,
             owned base d2 m2 ->
             wlp (let* _ := strncpy (esb_string d2) (esb_used_bytes d2) s len in
                  let* _ := store (esb_string d2)
                                  (to_size_t (esb_used_bytes d2 + len)) (Byte NUL) in
                  ret (Esb (esb_string d2) (esb_allocated_size d2)
                           (to_size_t (esb_used_bytes d2 + len)))) Q m2).
  { intros d2 m2 Ho2.
    apply wlp_bind, wlp_strncpy_overwrites. intros m3 Hov3. wlp_reduce.
    pose proof (owned_overwrites base d2 d2 m2 m3 Ho2 Hov3 eq_refl
                  (owned_capacity _ _ _ Ho2)) as Ho3.
    apply wlp_bind, wlp_store_overwrites. intros m4 b l Hov4 _ _ _.
    apply wlp_ret, HQ.
    apply (owned_overwrites base d2 _ m3 m4 Ho3 Hov4); [reflexivity|].
    cbn [esb_string esb_allocated_size]. apply (owned_capacity _ _ _ Ho2). }
  apply wlp_bind. apply wlp_if; intros _.
  - apply (esb_allocate_more_owned base); [exact Ho1|].
    intros d2 m2 Ho2. apply Hfinish, Ho2.
  - apply wlp_ret, Hfinish, Ho1.
Qed.

Lemma esb_append_printf_ap_owned base data f m Q :
  owned base data m ->
  (forall d' m', owned base d' m' -> Q d' m') ->
  wlp (esb_append_printf_ap data f) Q m.
Proof.
  intros Ho HQ. unfold esb_append_printf_ap, esb_allocate_more_if_needed.
  apply wlp_bind, wlp_bind, wlp_int_add. intros minlen.
  apply (esb_force_allocation_owned base); [exact Ho|].
  intros d1 m1 Ho1. wlp_reduce.
  apply wlp_bind, wlp_vsnprintf_overwrites. intros r m2 Hov.
  assert (Hdone : forall u,
             owned base (Esb (esb_string d1) (esb_allocated_size d1) u) m2).
  { intros u. apply (owned_overwrites base d1 _ m1 m2 Ho1 Hov); [reflexivity|].
    cbn [esb_string esb_allocated_size]. apply (owned_capacity _ _ _ Ho1). }
  apply wlp_if; intros _.
  - apply wlp_ret, HQ.
    apply (owned_overwrites base d1 d1 m1 m2 Ho1 Hov eq_refl
             (owned_capacity _ _ _ Ho1)).
  - apply wlp_if; intros _.
    + apply wlp_bind, wlp_int_add. intros written. apply wlp_ret, HQ, Hdone.
    + apply wlp_ret, HQ, Hdone.
Qed.

(** Every call that hands out no block keeps the buffer the only owner
    of at most one block. *)
Lemma perform_owned base c data m :
  keeps_blocks c -> owned base data m ->
  wlp (perform c data) (fun d' m' => owned base d' m') m.
Proof.
  intros Hc Ho.
  destruct c as [minlen|s len|s|f| | | | | |size|]; cbn [perform keeps_blocks] in *.
  - apply (esb_force_allocation_owned base); auto.
  - unfold esb_appendn.
    destruct s as [s|]; [|exact I].
    destruct (strlen s) as [t|]; [|exact I].
    apply wlp_bind. apply wlp_if; intros _.
    + apply wlp_bind. unfold wlp at 1, fprintf_stderr.
      apply wlp_ret. apply (esb_appendn_internal_owned base); [|auto].
      apply (owned_process base data m); try reflexivity; [exact Ho|].
      destruct Ho as (_ & _ & _ & Hq & _). exact Hq.
    + apply wlp_ret. apply (esb_appendn_internal_owned base); auto.
  - unfold esb_append.
    destruct s as [s|]; [|apply wlp_ret; exact Ho].
    destruct (strlen s) as [t|]; [|exact I].
    apply wlp_if; intros _; [apply wlp_ret; exact Ho|].
    apply (esb_appendn_internal_owned base); auto.
  - unfold esb_append_printf. apply (esb_append_printf_ap_owned base); auto.
  - unfold esb_get_string.
    apply wlp_bind, wlp_bind,
      (lazy_init_owned base data (fun quantum => quantum)); [exact Ho|].
    intros d1 m1 Ho1. apply wlp_ret, wlp_ret. exact Ho1.
  - unfold esb_empty_string.
    apply wlp_bind, (lazy_init_owned base data (fun quantum => quantum));
      [exact Ho|].
    intros d1 m1 Ho1. wlp_reduce.
    apply wlp_bind, wlp_store_overwrites. intros m2 b l Hov _ _ _.
    apply wlp_ret.
    apply (owned_overwrites base d1 _ m1 m2 Ho1 Hov); [reflexivity|].
    cbn [esb_string esb_allocated_size]. apply (owned_capacity _ _ _ Ho1).
  - apply wlp_ret. exact Ho.
  - apply wlp_ret. exact Ho.
  - contradiction.
  - apply wlp_bind. unfold wlp at 1, esb_alloc_size. apply wlp_ret.
    apply (owned_process base data m); try reflexivity; [exact Ho | exact Hc].
  - unfold esb_destructor, esb_constructor.
    destruct Ho as (Hbase & Hfresh & Hown & Hq & _).
    apply wlp_bind. destruct (esb_string data) as [b|] eqn:Hs.
    + apply wlp_bind. unfold wlp at 1, free.
      destruct (heap m !! b) as [l|] eqn:Hb; [|exact I].
      apply wlp_ret, wlp_ret.
      split; [exact Hbase|]. cbn [heap set_heap next_block alloc_size esb_string].
      split.
      { intros k Hk. destruct (decide (b = k)) as [<-|Hne];
          [apply lookup_delete_eq | rewrite lookup_delete_ne by exact Hne].
        apply Hfresh, Hk. }
      split.
      { intros k Hk Hlive. exfalso.
        destruct (decide (b = k)) as [<-|Hne].
        - rewrite lookup_delete_eq in Hlive. destruct Hlive. discriminate.
        - rewrite lookup_delete_ne in Hlive by exact Hne.
          pose proof (Hown k Hk Hlive). congruence. }
      split; [exact Hq | congruence].
    + apply wlp_ret, wlp_ret.
      split; [exact Hbase|]. split; [exact Hfresh|].
      split; [|split; [exact Hq | cbn [esb_string]; congruence]].
      intros k Hk Hlive. pose proof (Hown k Hk Hlive). discriminate.
Qed.

Lemma perform_all_owned base cs :
  forall data m,
    Forall keeps_blocks cs -> owned base data m ->
    wlp (perform_all cs data) (fun d' m' => owned base d' m') m.
Proof.
  induction cs as [|c cs IH]; intros data m Hcs Ho; cbn [perform_all].
  - apply wlp_ret. exact Ho.
  - inversion Hcs as [|? ? Hc Hcs']; subst.
    apply wlp_bind.
    apply (wlp_mono _ _ _ _ (perform_owned base c data m Hc Ho)).
    intros d1 m1 Ho1. apply (IH d1 m1 Hcs' Ho1).
Qed.

(** Construct, any calls that hand no block to the caller, destroy: when
    the destructor returns, the heap is the one the constructor found;
    every block the buffer obtained has been released, and no other
    block was touched. *)
Theorem no_block_is_leaked garbage cs m :
  allocator_ok m -> 0 < alloc_size m -> Forall keeps_blocks cs ->
  forall d' m',
    (let* d := esb_constructor garbage in
     let* d := perform_all cs d in
     esb_destructor d) m = Ret d' m' ->
    d' = Esb None 0 0 /\ heap m' = heap m.
Proof.
  intros Halloc Hq Hcs d' m' Hrun.
  set (d0 := Esb None 0 0).
  assert (Ho0 : owned (next_block m) d0 m).
  { split; [lia|]. split; [exact Halloc|]. split.
    - intros k Hk (l & Hl). rewrite (Halloc k Hk) in Hl. discriminate.
    - split; [exact Hq|]. cbn [esb_string d0]. congruence. }
  assert (Hold : forall k, (k < next_block m)%positive -> apart k d0 m).
  { intros k Hk. split; [discriminate | exact Hk]. }
  unfold bind at 1 in Hrun. unfold esb_constructor at 1, ret at 1 in Hrun.
  fold d0 in Hrun. unfold bind at 1 in Hrun.
  pose proof (perform_all_owned (next_block m) cs d0 m Hcs Ho0) as Hown.
  assert (Hframe : forall k, (k < next_block m)%positive ->
             wlp (perform_all cs d0)
                 (fun d1 m1 => apart k d1 m1 /\ heap m1 !! k = heap m !! k) m).
  { intros k Hk. apply perform_all_apart, Hold, Hk. }
  unfold wlp in Hown, Hframe.
  destruct (perform_all cs d0 m) as [d1 m1| |]; try discriminate.
  destruct Hown as (Hbase & Hfresh1 & Hown1 & _).
  unfold esb_destructor, esb_constructor, bind, ret in Hrun.
  destruct (esb_string d1) as [b|] eqn:Hs.
  - unfold free in Hrun. destruct (heap m1 !! b) eqn:Hb; [|discriminate].
    injection Hrun as <- <-. split; [reflexivity|].
    cbn [heap set_heap]. apply map_eq. intros k.
    destruct (Pos.ltb_spec k (next_block m)) as [Hk|Hk].
    + destruct (Hframe k Hk) as ((Hne & _) & Hsame).
      rewrite lookup_delete_ne by congruence. exact Hsame.
    + rewrite (Halloc k Hk).
      destruct (decide (b = k)) as [<-|Hne]; [apply lookup_delete_eq|].
      rewrite lookup_delete_ne by exact Hne.
      apply eq_None_not_Some. intros Hlive.
      pose proof (Hown1 k Hk Hlive). congruence.
  - injection Hrun as <- <-. split; [reflexivity|].
    apply map_eq. intros k.
    destruct (Pos.ltb_spec k (next_block m)) as [Hk|Hk].
    + apply (Hframe k Hk).
    + rewrite (Halloc k Hk). apply eq_None_not_Some. intros Hlive.
      pose proof (Hown1 k Hk Hlive). discriminate.
Qed.

Lemma no_block_is_leaked_witness :
  exists d' m',
    (let* d := esb_constructor (Esb (Some 7%positive) 3 9) in
     let* d := perform_all [CallAppend (literal "ab");
                            CallAllocSize 4;
                            CallAppendPrintf (Expands (text_of "cdefgh"));
                            CallAppendn oddarray 6;
                            CallEmptyString;
                            CallForceAllocation 40;
                            CallGetString] d in
     esb_destructor d) ab_machine = Ret d' m' /\
    d' = Esb None 0 0 /\ heap m' = heap ab_machine.
Proof.
  eexists _, _. split; [vm_compute; reflexivity|].
  apply (no_block_is_leaked (Esb (Some 7%positive) 3 9)
           [CallAppend (literal "ab");
            CallAllocSize 4;
            CallAppendPrintf (Expands (text_of "cdefgh"));
            CallAppendn oddarray 6;
            CallEmptyString;
            CallForceAllocation 40;
            CallGetString] ab_machine).
  - exact allocator_ok_ab.
  - unfold ab_machine, INITIAL_ALLOC_SELFTEST, alloc_size. lia.
  - repeat (apply List.Forall_cons; [simpl; try lia; exact I|]).
    apply List.Forall_nil.
  - vm_compute. reflexivity.
Defined.

(** ** The copy of one buffer appended to another *)

Lemma defined_prefix_bytes s pad :
  defined_prefix (map Byte s ++ replicate pad Undef) = s.
Proof.
  induction s as [|c s IH]; cbn [map app defined_prefix].
  - destruct pad; reflexivity.
  - rewrite IH. reflexivity.
Qed.

Lemma chars_app_NUL pre rest :
  Forall (fun c => c <> NUL) pre -> chars (pre ++ NUL :: rest) = pre.
Proof.
  induction 1 as [|x s Hx _ IH]; cbn [app chars].
  - rewrite Ascii.eqb_refl. reflexivity.
  - rewrite eqb_NUL_false by exact Hx. rewrite IH. reflexivity.
Qed.

(** What [esb_get_copy] leaves behind for a buffer that is not empty. *)
Lemma esb_get_copy_runs text data m :
  holds text data m -> allocator_ok m ->
  0 < esb_string_len data ->
  mem_avail m (esb_string_len data + 1) = true ->
  exists pad,
    esb_get_copy data m
    = Ret (data, Some (next_block m))
          (Machine (alloc_size m)
                   (<[next_block m := map Byte (chars text ++ [NUL])
                                      ++ replicate pad Undef]> (heap m))
                   (Pos.succ (next_block m)) (mem_avail m) (stderr m)).
Proof.
  intros H Halloc Hpos Hav. unfold esb_string_len in *.
  pose proof (holds_sizes _ _ _ H) as ((Ha0 & Ha1) & Hu0 & Hu1).
  assert (Hcap : 0 < esb_allocated_size data).
  { destruct (Z.eq_dec (esb_allocated_size data) 0) as [E|]; [|lia].
    destruct (holds_unallocated _ _ _ H E) as (_ & _ & ?). lia. }
  destruct (holds_allocated _ _ _ H Hcap) as (b & rest & Hs & Hb & Ha & Hu & _).
  set (c := next_block m).
  assert (Hfresh : heap m !! c = None) by (apply Halloc; unfold c; lia).
  assert (Hbc : c <> b) by (intros E; rewrite E in Hfresh; congruence).
  pose proof (chars_length_le text) as Hchars.
  set (R := replicate (Z.to_nat (esb_used_bytes data + 1)) Undef).
  set (m0 := Machine (alloc_size m) (<[c := R]> (heap m)) (Pos.succ c)
                     (mem_avail m) (stderr m)).
  exists (Z.to_nat (esb_used_bytes data + 1)
          - (0 + length (map Byte (chars text ++ [NUL]))))%nat.
  unfold esb_get_copy, esb_string_len.
  destruct (Z.eqb_spec (esb_used_bytes data) 0); [lia|].
  rewrite to_size_t_small by (unfold is_size_t; lia).
  unfold bind at 1. unfold malloc. rewrite Hav. fold c R m0.
  unfold esb_get_string.
  destruct (Z.eqb_spec (esb_allocated_size data) 0); [lia|].
  unfold bind at 1. unfold bind at 1. unfold ret at 1. unfold ret at 1.
  cbn [fst snd]. unfold bind, strcpy.
  assert (Hload : load_cstring (esb_string data) 0 m0 = Some (chars text)).
  { unfold load_cstring. rewrite Hs. cbn [heap m0].
    rewrite lookup_insert_ne by exact Hbc. rewrite Hb.
    apply cstring_of_content. }
  rewrite Hload.
  rewrite (store_bytes_eq c 0 _ R m0).
  - unfold ret, set_heap, m0. cbn [heap alloc_size next_block mem_avail stderr].
    rewrite insert_insert_eq. change (Z.to_nat 0) with 0%nat.
    rewrite take_0. cbn [app]. unfold R. rewrite drop_replicate. reflexivity.
  - cbn [heap m0]. apply lookup_insert_eq.
  - lia.
  - unfold R. rewrite length_map, length_app, length_replicate.
    simpl length. lia.
Qed.

(** A block handed out later does not disturb a valid buffer. *)
Lemma holds_fresh text data m m' c l :
  holds text data m -> heap m !! c = None ->
  heap m' = <[c := l]> (heap m) -> holds text data m'.
Proof.
  intros (Hu & Hr & Hs) Hc Hm'. split; [exact Hu|]. split; [exact Hr|].
  destruct (esb_string data) as [b|]; [|exact Hs].
  destruct Hs as (rest & Hb & Ha). exists rest. split; [|exact Ha].
  rewrite Hm', lookup_insert_ne; [exact Hb|].
  intros ->. congruence.
Qed.

(** Instance 16 of the self test, for any two buffers: the copy of a
    buffer that is not empty, appended to another buffer, adds the string
    of the first to the second; the first buffer is as before, the copy
    is still the string, and the second buffer does not share its
    storage with either. *)
Theorem copy_round_trip text pre d e m :
  holds text d m -> holds pre e m -> allocator_ok m ->
  esb_string e <> esb_string d ->
  0 < esb_string_len d ->
  is_size_t (alloc_size m) ->
  Z.max (esb_allocated_size e) (alloc_size m + 1)
    + Z.of_nat (length (chars text)) < SIZE_MODULUS ->
  enough_memory m (Z.max (esb_allocated_size e) (alloc_size m + 1)
                   + Z.of_nat (length (chars text))) ->
  mem_avail m (esb_string_len d + 1) = true ->
  exists c e' m',
    copy_into d e m = Ret (d, e', Some c) m' /\
    heap m !! c = None /\
    holds (pre ++ chars text) e' m' /\
    holds text d m' /\
    load_cstring (Some c) 0 m' = Some (chars text) /\
    esb_string e' <> Some c /\
    esb_string e' <> esb_string d.
Proof.
  intros Hd He Halloc Hne Hpos Hq Hbound Hmem Hav.
  destruct (esb_get_copy_runs text d m Hd Halloc Hpos Hav) as (pad & Hcopy).
  set (c := next_block m) in *.
  set (l := map Byte (chars text ++ [NUL]) ++ replicate pad Undef) in *.
  set (m1 := Machine (alloc_size m) (<[c := l]> (heap m)) (Pos.succ c)
                     (mem_avail m) (stderr m)) in *.
  assert (Hfresh : heap m !! c = None) by (apply Halloc; unfold c; lia).
  assert (Hd1 : holds text d m1) by (apply (holds_fresh _ _ m m1 c l); auto).
  assert (He1 : holds pre e m1) by (apply (holds_fresh _ _ m m1 c l); auto).
  assert (Hc1 : heap m1 !! c = Some l) by (cbn [heap m1]; apply lookup_insert_eq).
  assert (Hload1 : load_cstring (Some c) 0 m1 = Some (chars text)).
  { unfold load_cstring. rewrite Hc1. change (Z.to_nat 0) with 0%nat.
    rewrite drop_0. cbn [Z.leb Z.compare]. unfold l.
    rewrite map_app, <- app_assoc. cbn [map app].
    rewrite cstring_of_content. f_equal. apply chars_id, chars_no_NUL. }
  assert (Hcap : 0 < esb_allocated_size d).
  { destruct (Z.eq_dec (esb_allocated_size d) 0) as [E|].
    - destruct (holds_unallocated _ _ _ Hd E) as (_ & _ & ?).
      unfold esb_string_len in Hpos. lia.
    - destruct Hd as (_ & ? & _). lia. }
  destruct (holds_allocated _ _ _ Hd Hcap) as (b & rest & Hs & Hb & _).
  assert (Hbc : b <> c) by (intros ->; congruence).
  assert (Hec : esb_string e <> Some c).
  { destruct He as (_ & _ & Hse). intros E. rewrite E in Hse.
    destruct Hse as (r & Hr & _). congruence. }
  assert (Hstr : strlen (chars text ++ [NUL])
                 = Some (Z.of_nat (length (chars text)))).
  { apply strlen_app_NUL, chars_no_NUL. }
  assert (Hstep : copy_into d e m
                  = (let* e0 := esb_append e (Some (chars text ++ [NUL])) in
                     ret (d, e0, Some c)) m1).
  { unfold copy_into. unfold bind at 1. rewrite Hcopy.
    unfold bind at 1. cbn [fst snd]. unfold argument_at. rewrite Hc1.
    unfold l. rewrite defined_prefix_bytes. reflexivity. }
  rewrite Hstep. unfold bind, esb_append. rewrite Hstr.
  destruct (Z.eqb_spec (Z.of_nat (length (chars text))) 0) as [Hz|Hnz].
  - exists c, e, m1. split; [reflexivity|]. split; [exact Hfresh|].
    assert (Hnil : chars text = []) by (destruct (chars text); [reflexivity|simpl in Hz; lia]).
    rewrite Hnil, app_nil_r. repeat (split; [assumption|]).
    rewrite <- Hnil. split; [exact Hload1|]. split; assumption.
  - destruct (esb_appendn_internal_holds pre e (chars text ++ [NUL])
                (Z.of_nat (length (chars text))) (chars text) m1)
      as (e' & m' & Hrun & He' & _ & _).
    { exact He1. }
    { rewrite (strncpy_image_whole _ _ Hstr). f_equal.
      apply chars_app_NUL, chars_no_NUL. }
    { lia. }
    { exact Hq. }
    { exact Hbound. }
    { exact Hmem. }
    rewrite Hrun. exists c, e', m'. split; [reflexivity|].
    split; [exact Hfresh|]. split; [exact He'|].
    assert (Hab : apart b e m1).
    { split; [congruence|]. cbn [next_block m1].
      destruct (Pos.ltb_spec b (Pos.succ c)) as [?|Hge]; [assumption|].
      assert (heap m !! b = None) by (apply Halloc; unfold c in *; lia).
      congruence. }
    assert (Hac : apart c e m1).
    { split; [exact Hec|]. cbn [next_block m1]. lia. }
    pose proof (esb_appendn_internal_apart b e (chars text ++ [NUL])
                  (Z.of_nat (length (chars text))) m1
                  (fun d' m' => apart b d' m' /\ heap m' !! b = heap m1 !! b)
                  Hab (fun _ _ A B => conj A B)) as Fb.
    pose proof (esb_appendn_internal_apart c e (chars text ++ [NUL])
                  (Z.of_nat (length (chars text))) m1
                  (fun d' m' => apart c d' m' /\ heap m' !! c = heap m1 !! c)
                  Hac (fun _ _ A B => conj A B)) as Fc.
    apply (wlp_elim _ _ _ _ _ Fb) in Hrun as Hb'.
    apply (wlp_elim _ _ _ _ _ Fc) in Hrun as Hc'.
    destruct Hb' as ((Hneb & _) & Hsameb). destruct Hc' as ((Hnec & _) & Hsamec).
    split.
    { destruct Hd1 as (Hu & Hr & Hsd). split; [exact Hu|]. split; [exact Hr|].
      rewrite Hs in *. destruct Hsd as (r & Hr1 & Hr2). exists r.
      rewrite Hsameb. split; assumption. }
    split.
    { unfold load_cstring in *. rewrite Hsamec. exact Hload1. }
    split; [exact Hnec | rewrite Hs; exact Hneb].
Qed.

Lemma copy_round_trip_witness :
  exists c e' m',
    copy_into ab_buffer (Esb None 0 0) ab_machine
    = Ret (ab_buffer, e', Some c) m' /\
    heap ab_machine !! c = None /\
    holds ([] ++ chars (text_of "ab")) e' m' /\
    holds (text_of "ab") ab_buffer m' /\
    load_cstring (Some c) 0 m' = Some (chars (text_of "ab")) /\
    esb_string e' <> Some c /\
    esb_string e' <> esb_string ab_buffer.
Proof.
  apply (copy_round_trip (text_of "ab") [] ab_buffer (Esb None 0 0) ab_machine).
  - exact holds_ab.
  - split; [reflexivity|]. split; [rewrite size_modulus_value; simpl; lia|].
    split; reflexivity.
  - exact allocator_ok_ab.
  - discriminate.
  - unfold esb_string_len, ab_buffer, esb_used_bytes. lia.
  - unfold is_size_t, ab_machine, INITIAL_ALLOC_SELFTEST, alloc_size.
    rewrite size_modulus_value. lia.
  - rewrite size_modulus_value. vm_compute. reflexivity.
  - intros n _. reflexivity.
  - reflexivity.
Defined.

(** ** The null device *)

(** Once [esb_open_null_device] has returned a stream, every later call
    returns that stream and opens nothing. *)
Theorem null_device_opened_once st f st1 :
  NullDevice.esb_open_null_device st = (Some f, st1) ->
  NullDevice.esb_open_null_device st1 = (Some f, st1) /\
  NullDevice.null_device_handle st1 = Some f.
Proof.
  unfold NullDevice.esb_open_null_device, NullDevice.fopen. intros H.
  destruct (NullDevice.null_device_handle st) as [g|] eqn:Hh.
  - injection H as <- <-. rewrite Hh. split; reflexivity.
  - destruct (NullDevice.fopen_succeeds st).
    + injection H as <- <-. split; reflexivity.
    + discriminate.
Qed.

Lemma null_device_opened_once_witness :
  NullDevice.esb_open_null_device
    (snd (NullDevice.esb_open_null_device (NullDevice.start true)))
  = (Some 1%positive,
     snd (NullDevice.esb_open_null_device (NullDevice.start true))) /\
  NullDevice.null_device_handle
    (snd (NullDevice.esb_open_null_device (NullDevice.start true)))
  = Some 1%positive.
Proof.
  apply (null_device_opened_once (NullDevice.start true)). reflexivity.
Defined.

(** [esb_close_null_device] closes the stream but leaves the handle set:
    after it, [esb_open_null_device] returns the closed stream without
    opening anything, and a second [esb_close_null_device] passes the
    closed stream to [fclose]. *)
Theorem null_device_close_keeps_handle st f :
  NullDevice.null_device_handle st = Some f ->
  f ∈ NullDevice.open_streams st ->
  exists st',
    NullDevice.esb_close_null_device st = Some st' /\
    NullDevice.esb_open_null_device st' = (Some f, st') /\
    (f ∉ NullDevice.open_streams st') /\
    NullDevice.esb_close_null_device st' = None.
Proof.
  intros Hh Hin.
  unfold NullDevice.esb_close_null_device at 1. rewrite Hh.
  unfold NullDevice.fclose. rewrite bool_decide_eq_true_2 by exact Hin.
  eexists. split; [reflexivity|].
  unfold NullDevice.esb_open_null_device, NullDevice.esb_close_null_device,
    NullDevice.fclose.
  cbn [NullDevice.null_device_handle NullDevice.open_streams]. rewrite Hh.
  split; [reflexivity|].
  assert (Hout : f ∉ NullDevice.open_streams st ∖ {[f]}).
  { rewrite elem_of_difference, elem_of_singleton. tauto. }
  split; [exact Hout|].
  rewrite bool_decide_eq_false_2 by exact Hout. reflexivity.
Qed.

Lemma null_device_close_keeps_handle_witness :
  exists st',
    NullDevice.esb_close_null_device
      (snd (NullDevice.esb_open_null_device (NullDevice.start true)))
    = Some st' /\
    NullDevice.esb_open_null_device st' = (Some 1%positive, st') /\
    (1%positive ∉ NullDevice.open_streams st') /\
    NullDevice.esb_close_null_device st' = None.
Proof.
  apply (null_device_close_keeps_handle
           (snd (NullDevice.esb_open_null_device (NullDevice.start true)))
           1%positive).
  - reflexivity.
  - vm_compute. set_solver.
Defined.
